(** * Carrier snapshot extractor: a shallow embedding of [src/extractor.js]
      and of its sibling variant [src/unnamed/part_000].

    Strings are sequences of code units, from 0 to 255.  The model
    interprets the ASCII range, which is what the scraped pages are made
    of: a code unit of 128 or more is carried through as an ordinary
    character that is neither a letter nor a digit.  One of them is
    white space, the no-break space U+00A0 (code unit 160), as it is to
    [\s], [trim] and [Number].

    JavaScript built-ins the programs call ([String.prototype] methods,
    regular expressions, [Number], [Math.ceil]) are embedded as executable
    functions; the three that depend on the outside world (the network
    behind [fetch], the clock and date parser behind [Date], the resolver
    behind [new URL]) are fields of an environment record [Env].

    An [async] function is a function from a world to an outcome (a value
    or a thrown error) and a world; the world counts the requests made
    and records, in order, every request and every pause.  What
    [console.log] prints is left out.  One run of [handleMC] is modelled
    on its own: the runs that [Promise.all] interleaves share nothing but
    the list their results are appended to. *)

From Stdlib Require Import String Ascii List Bool Arith ZArith QArith Lia.
From Stdlib Require Import DecimalString.
Import ListNotations.

Local Close Scope Q_scope.
Local Open Scope list_scope.
Local Open Scope string_scope.

(* ================================================================== *)
(** ** JavaScript string built-ins *)
(* ================================================================== *)

Module JS.

Definition code (c : ascii) : nat := nat_of_ascii c.

Definition between (lo hi : nat) (c : ascii) : bool :=
  (lo <=? code c)%nat && (code c <=? hi)%nat.

(** [\s], also the set that [trim] and [Number] strip, on the code units
    a string of the model holds: TAB LF VT FF CR SPACE and the no-break
    space U+00A0. *)
Definition isSpace (c : ascii) : bool :=
  between 9 13 c || (code c =? 32)%nat || (code c =? 160)%nat.

Definition isDigit (c : ascii) : bool := between 48 57 c.
Definition isUpper (c : ascii) : bool := between 65 90 c.
Definition isLower (c : ascii) : bool := between 97 122 c.
Definition isAlpha (c : ascii) : bool := isUpper c || isLower c.
Definition isAlnum (c : ascii) : bool := isAlpha c || isDigit c.

Definition upper (c : ascii) : ascii :=
  if isLower c then ascii_of_nat (code c - 32) else c.

(** [s.toUpperCase()] *)
Fixpoint toUpperCase (s : string) : string :=
  match s with
  | EmptyString => EmptyString
  | String c s' => String (upper c) (toUpperCase s')
  end.

Fixpoint startsWith (p s : string) : bool :=
  match p, s with
  | EmptyString, _ => true
  | String a p', String b s' => Ascii.eqb a b && startsWith p' s'
  | String _ _, EmptyString => false
  end.

(** [s.includes(needle)] *)
Fixpoint includes (s needle : string) : bool :=
  startsWith needle s ||
  match s with
  | EmptyString => false
  | String _ s' => includes s' needle
  end.

Fixpoint rev_onto (s acc : string) : string :=
  match s with
  | EmptyString => acc
  | String c s' => rev_onto s' (String c acc)
  end.

Definition rev (s : string) : string := rev_onto s EmptyString.

Fixpoint trimStart (s : string) : string :=
  match s with
  | String c s' => if isSpace c then trimStart s' else s
  | EmptyString => EmptyString
  end.

Definition trimEnd (s : string) : string := rev (trimStart (rev s)).

(** [s.trim()] *)
Definition trim (s : string) : string := trimEnd (trimStart s).

(** The first [n] code units of [s]. *)
Fixpoint take (n : nat) (s : string) : string :=
  match n, s with
  | S n', String c s' => String c (take n' s')
  | _, _ => EmptyString
  end.

(** [a.join(sep)] *)
Fixpoint join (sep : string) (l : list string) : string :=
  match l with
  | [] => EmptyString
  | [x] => x
  | x :: l' => x ++ sep ++ join sep l'
  end.

(** [s.split(c)] for a one-character separator: always at least one
    piece. *)
Fixpoint splitChar (sep : ascii) (acc s : string) : list string :=
  match s with
  | EmptyString => [rev acc]
  | String c s' =>
      if Ascii.eqb c sep then rev acc :: splitChar sep EmptyString s'
      else splitChar sep (String c acc) s'
  end.

Definition split (sep : ascii) (s : string) : list string :=
  splitChar sep EmptyString s.

(** A string used as a condition: only the empty string is falsy. *)
Definition truthy (s : string) : bool :=
  match s with EmptyString => false | _ => true end.

(** [[...new Set(items)]]: a [Set] keeps the first insertion of each value,
    in insertion order. *)
Fixpoint setOf (seen : list string) (items : list string) : list string :=
  match items with
  | [] => []
  | x :: rest =>
      if existsb (String.eqb x) seen then setOf seen rest
      else x :: setOf (x :: seen) rest
  end.

Definition dedupe (items : list string) : list string := setOf [] items.

End JS.

(* ================================================================== *)
(** ** Regular expressions with JavaScript's backtracking order *)
(* ================================================================== *)

Module Regex.

Inductive regex : Type :=
| Emp                                    (* matches the empty string *)
| Lit (c : ascii)                        (* one literal character *)
| Cls (p : ascii -> bool)                (* a class: [..], \s, \d, . *)
| Cat (r1 r2 : regex)
| Alt (r1 r2 : regex)                    (* r1|r2, r1 tried first *)
| Star (greedy : bool) (r : regex)       (* r* when greedy, else r*? *)
| Grp (n : nat) (r : regex).             (* capture group number n *)

(** Derived forms. *)
Fixpoint str (s : string) : regex :=
  match s with
  | EmptyString => Emp
  | String c s' => Cat (Lit c) (str s')
  end.

Definition opt (r : regex) : regex := Alt r Emp.            (* r?  *)
Definition plus (r : regex) : regex := Cat r (Star true r). (* r+  *)

Fixpoint times (n : nat) (r : regex) : regex :=             (* r{n} *)
  match n with
  | O => Emp
  | S n' => Cat r (times n' r)
  end.

Fixpoint upto (n : nat) (r : regex) : regex :=              (* r{0,n} *)
  match n with
  | O => Emp
  | S n' => opt (Cat r (upto n' r))
  end.

Definition range (lo hi : nat) (r : regex) : regex :=       (* r{lo,hi} *)
  Cat (times lo r) (upto (hi - lo) r).

Definition atLeast (lo : nat) (r : regex) : regex :=        (* r{lo,} *)
  Cat (times lo r) (Star true r).

Definition anyChar : ascii -> bool := fun _ => true.        (* [\s\S] *)
Definition notChar (c : ascii) : ascii -> bool :=           (* [^c]   *)
  fun x => negb (Ascii.eqb x c).
(** [.]: anything but a line terminator. *)
Definition dot : ascii -> bool :=
  fun x => negb ((JS.code x =? 10)%nat || (JS.code x =? 13)%nat).

Definition caps : Type := list (nat * string).

Fixpoint cap (n : nat) (c : caps) : option string :=
  match c with
  | [] => None
  | (m, s) :: c' => if (m =? n)%nat then Some s else cap n c'
  end.

Definition litMatches (ci : bool) (c x : ascii) : bool :=
  if ci then Ascii.eqb (JS.upper c) (JS.upper x) else Ascii.eqb c x.

Section Matcher.
Context {A : Type}.
(** The [i] flag.  The classes used below contain no letters, so only
    literals are compared up to case. *)
Variable ci : bool.

(** [rmatch r s c k]: match [r] at the front of [s], then hand the rest
    of the input and the captures to the continuation [k]; when [k]
    fails, the next alternative in JavaScript's priority order is
    tried.  An iteration of a star that consumes nothing is rejected,
    as in the language. *)
Fixpoint rmatch (r : regex) (s : string) (c : caps)
         (k : string -> caps -> option A) {struct r} : option A :=
  match r with
  | Emp => k s c
  | Lit a =>
      match s with
      | String x s' => if litMatches ci a x then k s' c else None
      | EmptyString => None
      end
  | Cls p =>
      match s with
      | String x s' => if p x then k s' c else None
      | EmptyString => None
      end
  | Cat r1 r2 => rmatch r1 s c (fun s' c' => rmatch r2 s' c' k)
  | Alt r1 r2 =>
      match rmatch r1 s c k with
      | Some x => Some x
      | None => rmatch r2 s c k
      end
  | Star greedy r' =>
      (fix loop (fuel : nat) (s : string) (c : caps) {struct fuel}
         : option A :=
         match fuel with
         | O => k s c
         | S fuel' =>
             let again (_ : unit) :=
               rmatch r' s c
                 (fun s' c' =>
                    if (String.length s' <? String.length s)%nat
                    then loop fuel' s' c' else None) in
             if greedy then
               match again tt with
               | Some x => Some x
               | None => k s c
               end
             else
               match k s c with
               | Some x => Some x
               | None => again tt
               end
         end) (String.length s) s c
  | Grp n r' =>
      rmatch r' s c
        (fun s' c' =>
           k s' ((n, JS.take (String.length s - String.length s') s) :: c'))
  end.
End Matcher.

(** The result of [RegExp.prototype.exec]: the text before the match,
    the match, its captures, and the input after it. *)
Record result : Type := mkResult {
  before : string;
  matched : string;
  groups : caps;
  after : string
}.

Definition matchHere (ci : bool) (r : regex) (s : string)
  : option (string * caps) :=
  rmatch ci r s [] (fun rest c => Some (rest, c)).

(** Leftmost match: start positions are tried from left to right. *)
Fixpoint search (ci : bool) (r : regex) (pre s : string) : option result :=
  match matchHere ci r s with
  | Some (rest, c) =>
      Some (mkResult (JS.rev pre)
                     (JS.take (String.length s - String.length rest) s)
                     c rest)
  | None =>
      match s with
      | EmptyString => None
      | String x s' => search ci r (String x pre) s'
      end
  end.

(** [s.match(r)] without the [g] flag, and [r.exec(s)] from index 0. *)
Definition exec (ci : bool) (r : regex) (s : string) : option result :=
  search ci r EmptyString s.

(** Capture [n] of a match, [undefined] rendered as [None]. *)
Definition group (n : nat) (m : result) : option string := cap n (groups m).

(** [m && m[n]] used as a condition, and the value it then denotes. *)
Definition groupText (n : nat) (m : option result) : option string :=
  match m with
  | Some r =>
      match group n r with
      | Some g => if JS.truthy g then Some g else None
      | None => None
      end
  | None => None
  end.

(** [s.replace(r, rep)] with the [g] flag.  After an empty match the scan
    moves on by one code unit. *)
Fixpoint replaceLoop (fuel : nat) (ci : bool) (r : regex) (rep s : string)
  : string :=
  match fuel with
  | O => s
  | S fuel' =>
      match exec ci r s with
      | None => s
      | Some m =>
          match matched m, after m with
          | EmptyString, String x rest =>
              before m ++ rep ++ String x (replaceLoop fuel' ci r rep rest)
          | EmptyString, EmptyString => before m ++ rep
          | _, rest => before m ++ rep ++ replaceLoop fuel' ci r rep rest
          end
      end
  end.

Definition replaceAll (ci : bool) (r : regex) (rep s : string) : string :=
  replaceLoop (S (String.length s)) ci r rep s.

(** The loop [while ((m = r.exec(s)) !== null) items.push(m[n])] for a
    regex with the [g] flag whose matches are never empty: the scan
    resumes where the previous match ended. *)
Fixpoint execLoop (fuel : nat) (ci : bool) (r : regex) (s : string)
  : list result :=
  match fuel with
  | O => []
  | S fuel' =>
      match exec ci r s with
      | None => []
      | Some m =>
          match matched m with
          | EmptyString => [m]
          | _ => m :: execLoop fuel' ci r (after m)
          end
      end
  end.

Definition execAll (ci : bool) (r : regex) (s : string) : list result :=
  execLoop (S (String.length s)) ci r s.

(** [s.split(r)] for a regex without groups.  A separator match is
    looked for at every position [q] of the current piece; one that ends
    where the piece began is skipped. *)
Fixpoint splitLoop (fuel : nat) (ci : bool) (r : regex) (acc s : string)
  : list string :=
  match fuel with
  | O => [JS.rev acc ++ s]
  | S fuel' =>
      match s with
      | EmptyString => [JS.rev acc]
      | String x s' =>
          match matchHere ci r s with
          | Some (rest, _) =>
              match acc, (String.length rest =? String.length s)%nat with
              | EmptyString, true => splitLoop fuel' ci r (String x acc) s'
              | _, _ => JS.rev acc :: splitLoop fuel' ci r EmptyString rest
              end
          | None => splitLoop fuel' ci r (String x acc) s'
          end
      end
  end.

Definition split (ci : bool) (r : regex) (s : string) : list string :=
  match s with
  | EmptyString =>
      match matchHere ci r s with Some _ => [] | None => [EmptyString] end
  | _ => splitLoop (2 * String.length s + 1) ci r EmptyString s
  end.

End Regex.

Import Regex.

(* ================================================================== *)
(** ** [Number(string)] and the comparisons made on its result *)
(* ================================================================== *)

Module Num.

(** A JavaScript number: [NaN], an infinity, or a finite binary64 value
    given by the rational it denotes. *)
Inductive number : Type :=
| NaN
| Inf (negative : bool)
| Fin (q : Q).

Definition isNaN (x : number) : bool :=
  match x with NaN => true | _ => false end.

(** [x < y] for a finite [y]; a comparison with [NaN] is false. *)
Definition lt (x : number) (y : Q) : bool :=
  match x with
  | NaN => false
  | Inf negative => negative
  | Fin q => negb (Qle_bool y q)
  end.

Definition neg (x : number) : number :=
  match x with
  | NaN => NaN
  | Inf b => Inf (negb b)
  | Fin q => Fin (- q)
  end.

(** Round the positive rational [num/den] to the nearest binary64 value,
    ties to even: 53 significant bits, exponents from -1022 (below which
    the spacing stays 2^-1074) to 1023 (above which the result is
    [Infinity]). *)
Definition roundDouble (num den : Z) : number :=
  let e0 := (Z.log2 num - Z.log2 den)%Z in
  let reaches :=
    if (0 <=? e0)%Z then (den * 2 ^ e0 <=? num)%Z
    else (den <=? num * 2 ^ (- e0))%Z in
  let e := if reaches then e0 else (e0 - 1)%Z in
  let ex := Z.max e (-1022) in
  let sh := (52 - ex)%Z in
  let N := if (0 <=? sh)%Z then (num * 2 ^ sh)%Z else num in
  let D := if (0 <=? sh)%Z then den else (den * 2 ^ (- sh))%Z in
  let m := (N / D)%Z in
  let r := (N mod D)%Z in
  let up := (D <? 2 * r)%Z || ((D =? 2 * r)%Z && Z.odd m) in
  let m' := if up then (m + 1)%Z else m in
  if (1024 <=? ex)%Z || ((1023 <=? ex)%Z && (2 ^ 53 <=? m')%Z) then Inf false
  else if (0 <=? sh)%Z then Fin (Qred (m' # Z.to_pos (2 ^ sh)))
  else Fin (inject_Z (m' * 2 ^ (- sh))).

(** The binary64 value of [n * 10^k] for [n >= 0]. *)
Definition ofDecimal (n k : Z) (ndigits : nat) : number :=
  if (n =? 0)%Z then Fin 0
  else if (400 <? k)%Z then Inf false
  else if (k <? - (400 + Z.of_nat ndigits))%Z then Fin 0
  else if (0 <=? k)%Z then roundDouble (n * 10 ^ k) 1
  else roundDouble n (10 ^ (- k)).

Fixpoint spanWhile (p : ascii -> bool) (acc s : string) : string * string :=
  match s with
  | String c s' =>
      if p c then spanWhile p (String c acc) s' else (JS.rev acc, s)
  | EmptyString => (JS.rev acc, EmptyString)
  end.

Definition span (p : ascii -> bool) (s : string) : string * string :=
  spanWhile p EmptyString s.

Definition digitVal (c : ascii) : Z :=
  if JS.isDigit c then Z.of_nat (JS.code c - 48)
  else if JS.isUpper c then Z.of_nat (JS.code c - 55)
  else Z.of_nat (JS.code c - 87).

Fixpoint digitsVal (base acc : Z) (s : string) : Z :=
  match s with
  | EmptyString => acc
  | String c s' => digitsVal base (acc * base + digitVal c)%Z s'
  end.

Definition isHex (c : ascii) : bool :=
  JS.isDigit c || JS.between 65 70 c || JS.between 97 102 c.
Definition isOct (c : ascii) : bool := JS.between 48 55 c.
Definition isBin (c : ascii) : bool := JS.between 48 49 c.

(** [0x..], [0o..], [0b..]: digits only, no sign. *)
Definition nonDecimal (p : ascii -> bool) (base : Z) (s : string) : number :=
  match span p s with
  | (String c ds, EmptyString) =>
      ofDecimal (digitsVal base 0 (String c ds)) 0 0
  | _ => NaN
  end.

(** [e] or [E], an optional sign and at least one digit; nothing may
    follow. *)
Definition exponent (s : string) : option Z :=
  match s with
  | EmptyString => Some 0%Z
  | String c s' =>
      if Ascii.eqb c "e" || Ascii.eqb c "E" then
        let '(negative, t) :=
          match s' with
          | String "+" t => (false, t)
          | String "-" t => (true, t)
          | _ => (false, s')
          end in
        match span JS.isDigit t with
        | (String d ds, EmptyString) =>
            let v := digitsVal 10 0 (String d ds) in
            Some (if negative then (- v)%Z else v)
        | _ => None
        end
      else None
  end.

(** An unsigned decimal literal: [digits], [digits.], [digits.digits],
    [.digits], each with an optional exponent, or [Infinity]. *)
Definition unsignedDecimal (s : string) : number :=
  if String.eqb s "Infinity" then Inf false
  else
    let '(ip, r1) := span JS.isDigit s in
    let '(fp, r2, hasDot) :=
      match r1 with
      | String "." r => let '(f, r') := span JS.isDigit r in (f, r', true)
      | _ => (EmptyString, r1, false)
      end in
    match ip, fp with
    | EmptyString, EmptyString => NaN
    | _, _ =>
        match exponent r2 with
        | Some ex =>
            ofDecimal (digitsVal 10 0 (ip ++ fp))
                      (ex - Z.of_nat (String.length fp))
                      (String.length (ip ++ fp))
        | None => NaN
        end
    end.

(** [Number(s)] for a string [s]: white space around the literal is
    dropped and the empty string is 0. *)
Definition Number (s : string) : number :=
  match JS.trim s with
  | EmptyString => Fin 0
  | String "0" (String x rest) as t =>
      if Ascii.eqb x "x" || Ascii.eqb x "X" then nonDecimal isHex 16 rest
      else if Ascii.eqb x "o" || Ascii.eqb x "O" then nonDecimal isOct 8 rest
      else if Ascii.eqb x "b" || Ascii.eqb x "B" then nonDecimal isBin 2 rest
      else unsignedDecimal t
  | String "+" t => unsignedDecimal t
  | String "-" t => neg (unsignedDecimal t)
  | t => unsignedDecimal t
  end.

End Num.

(* ================================================================== *)
(** ** The outside world and the monad of effects *)
(* ================================================================== *)

(** A thrown value: an [Error] with its message. *)
Record error : Type := Error { message : string }.

(** What one call of [fetch] comes to: a rejection (network failure,
    malformed URL, or the abort fired by the timeout), or a response with
    a status and a body. *)
Inductive response : Type :=
| Rejects (e : error)
| Responds (status : Z) (body : string).

Record Env : Type := mkEnv {
  (** the answer to the [n]-th request of a run, sent to a URL *)
  net : nat -> string -> response;
  (** [new Date(s).getTime()]; [None] is the [NaN] of an invalid date *)
  Date_parse : string -> option Z;
  (** [new Date().getTime()] *)
  Date_now : Z;
  (** [new URL(href, base).href]; [None] when the constructor throws *)
  URL_href : string -> string -> option string
}.

Inductive event : Type :=
| Fetched (url : string)
| Slept (ms : Z).

Record world : Type := mkWorld {
  requests : nat;
  trace : list event
}.

Definition start : world := mkWorld 0 [].

Inductive outcome (A : Type) : Type :=
| Returns (a : A)
| Throws (e : error).
Arguments Returns {A} a.
Arguments Throws {A} e.

(** An [async] computation: it runs from a world, returns or throws, and
    leaves a world. *)
Definition M (A : Type) : Type := world -> outcome A * world.

Definition ret {A} (a : A) : M A := fun w => (Returns a, w).
Definition throw {A} (e : error) : M A := fun w => (Throws e, w).

Definition bind {A B} (m : M A) (f : A -> M B) : M B :=
  fun w =>
    match m w with
    | (Returns a, w') => f a w'
    | (Throws e, w') => (Throws e, w')
    end.

(** [try { m } catch (e) { h e }] *)
Definition tryCatch {A} (m : M A) (h : error -> M A) : M A :=
  fun w =>
    match m w with
    | (Returns a, w') => (Returns a, w')
    | (Throws e, w') => h e w'
    end.

Notation "x <- m ;; k" := (bind m (fun x => k))
  (at level 61, m at next level, right associativity).
Notation "m ;;; k" := (bind m (fun _ => k))
  (at level 61, right associativity).

(** [await sleep(ms)] *)
Definition sleep (ms : Z) : M unit :=
  fun w => (Returns tt, mkWorld (requests w) (trace w ++ [Slept ms])).

Definition showZ (z : Z) : string := NilZero.string_of_int (Z.to_int z).

(** The double quote, for the string constants that contain one. *)
Definition dq : string := String (ascii_of_nat 34) EmptyString.

Infix "+++" := Cat (at level 60, right associativity).

(* ================================================================== *)
(** ** Code common to both files *)
(* ================================================================== *)

(** These functions read the same, character for character, in
    [src/extractor.js] and in [src/unnamed/part_000]. *)

Definition MIN_AGE_DAYS : Z := 180.
Definition FETCH_TIMEOUT_MS : Z := 30000.
Definition MAX_RETRIES : nat := 3.
Definition BACKOFF_BASE_MS : Z := 2000.

Definition space : regex := Cls JS.isSpace.
Definition digit : regex := Cls JS.isDigit.

Definition hexDigit (n : nat) : ascii :=
  ascii_of_nat (if (n <? 10)%nat then 48 + n else 55 + n).

Definition percent (n : nat) : string :=
  String "%" (String (hexDigit (n / 16)) (String (hexDigit (n mod 16))
    EmptyString)).

Definition unreserved (c : ascii) : bool :=
  JS.isAlnum c ||
  existsb (Ascii.eqb c) ["-"; "_"; "."; "!"; "~"; "*"; "'"; "("; ")"]%char.

(** [encodeURIComponent]: everything but the unreserved marks is written
    as the percent-escapes of its UTF-8 bytes. *)
Fixpoint encodeURIComponent (s : string) : string :=
  match s with
  | EmptyString => EmptyString
  | String c s' =>
      (if unreserved c then String c EmptyString
       else if (JS.code c <? 128)%nat then percent (JS.code c)
       else percent (192 + JS.code c / 64) ++ percent (128 + JS.code c mod 64))
      ++ encodeURIComponent s'
  end.

Definition mcToSnapshotUrl (mc : string) : string :=
  let m := replaceAll false (plus space) EmptyString mc in
  "https://safer.fmcsa.dot.gov/query.asp?searchtype=ANY&query_type=queryCarrierSnapshot&query_param=MC_MX&query_string="
  ++ encodeURIComponent m.

Section Fetching.
Variable E : Env.

(** What the [n]-th request comes to in [fetchWithTimeout]: a status
    outside 200..299 is thrown as an error. *)
Definition attempt (n : nat) (url : string) : outcome string :=
  match net E n url with
  | Rejects e => Throws e
  | Responds status body =>
      if (200 <=? status)%Z && (status <=? 299)%Z then Returns body
      else Throws (Error ("HTTP " ++ showZ status))
  end.

(** [fetchWithTimeout], with the body already read: the request is
    counted and recorded whatever becomes of it. *)
Definition fetchWithTimeout (url : string) (ms : Z) : M string :=
  fun w =>
    (attempt (requests w) url,
     mkWorld (S (requests w)) (trace w ++ [Fetched url])).

(** The [for] loop of [fetchRetry], entered at index [i] with [n]
    iterations to go. *)
Fixpoint fetchRetryLoop (url : string) (tries : nat) (timeout : Z)
         (label : string) (n i : nat) (lastErr : option error)
  : M string :=
  match n with
  | O =>
      throw
        (match lastErr with
         | Some e => e
         | None =>
             Error (label ++ " failed after " ++ showZ (Z.of_nat tries)
                    ++ " attempts")
         end)
  | S n' =>
      tryCatch (fetchWithTimeout url timeout)
        (fun err =>
           let backoff := (BACKOFF_BASE_MS * 2 ^ Z.of_nat i)%Z in
           sleep backoff ;;;
           fetchRetryLoop url tries timeout label n' (S i) (Some err))
  end.

Definition fetchRetry (url : string) (tries : nat) (timeout : Z)
           (label : string) : M string :=
  fetchRetryLoop url tries timeout label tries 0 None.
End Fetching.

(** [htmlToText] *)
Definition htmlToText (s : string) : string :=
  if negb (JS.truthy s) then EmptyString
  else
    let s := replaceAll true (str "<br" +++ Star true space +++ opt (Lit "/")
                              +++ str ">") ", " s in
    let s := replaceAll false (str "<" +++ Star true (Cls (notChar ">"))
                               +++ str ">") " " s in
    let s := replaceAll false (str "&nbsp;") " " s in
    let s := replaceAll false (str "&amp;") "&" s in
    let s := replaceAll false (str "&lt;") "<" s in
    let s := replaceAll false (str "&gt;") ">" s in
    let s := replaceAll false (plus space) " " s in
    JS.trim s.

(** The regular expression built in [extractDataByHeader].  The code
    pastes the label into the pattern as it is, without escaping it.
    Every label the programs pass is free of pattern operators and so
    stands for itself, which is what this definition takes a label for;
    for a label with a pattern operator in it the code builds another
    pattern, or none, and the definition does not speak.  Statements
    about an arbitrary label are made for such plain labels only. *)
Definition headerRegex (headerText : string) : regex :=
  str ">" +++ str headerText +++ str "</a></th>" +++ Star true space
  +++ str "<td" +++ Star true (Cls (notChar ">")) +++ str ">"
  +++ Grp 1 (Star false (Cls anyChar)) +++ str "</td>".

Definition extractDataByHeader (html headerText : string) : string :=
  match groupText 1 (exec true (headerRegex headerText) html) with
  | Some g => htmlToText g
  | None => EmptyString
  end.

(** The pattern shared by both [getXMarkedItems]: a marker cell holding
    [X], then the cell with the label. *)
Definition findXRegex : regex :=
  str ("<td class=" ++ dq ++ "queryfield" ++ dq)
  +++ Star true (Cls (notChar ">")) +++ str ">X</td>" +++ Star true space
  +++ str "<td><font" +++ plus (Cls (notChar ">")) +++ str ">"
  +++ Grp 1 (plus (Cls (notChar "<"))) +++ str "</font></td>".

(** The [while] loop over [findXRegex.exec], pushing [match[1].trim()]. *)
Definition markedLabels (tableHtml : string) : list string :=
  map (fun m => match group 1 m with
                | Some g => JS.trim g
                | None => EmptyString
                end)
      (execAll true findXRegex tableHtml).

Definition quoteChar (c : ascii) : bool :=
  Ascii.eqb c (ascii_of_nat 34) || Ascii.eqb c "'".
Definition notQuote : regex := Cls (fun c => negb (quoteChar c)).

Definition smsLinkRegex : regex :=
  str "href=" +++ Cls quoteChar
  +++ Grp 1 (Star true notQuote
             +++ Grp 2 (Alt (str "safer_xfr.aspx") (str "/SMS/"))
             +++ Star true notQuote)
  +++ Cls quoteChar.

Definition regLinkRegex : regex :=
  str "href=" +++ Cls quoteChar
  +++ Grp 1 (Star true notQuote +++ str "CarrierRegistration.aspx"
             +++ Star true notQuote)
  +++ Cls quoteChar.

Definition emailLocal (c : ascii) : bool :=
  JS.isAlnum c || existsb (Ascii.eqb c) ["."; "_"; "%"; "+"; "-"]%char.
Definition emailDomain (c : ascii) : bool :=
  JS.isAlnum c || existsb (Ascii.eqb c) ["."; "-"]%char.

Definition emailRegex : regex :=
  Grp 1 (plus (Cls emailLocal) +++ str "@" +++ plus (Cls emailDomain)
         +++ str "." +++ atLeast 2 (Cls JS.isAlpha)).

Definition addressRegex : regex :=
  opt (Lit ",") +++ Star true space
  +++ Grp 1 (plus (Cls (notChar ","))) +++ str "," +++ Star true space
  +++ Grp 2 (times 2 (Cls JS.isUpper)) +++ Star true space
  +++ Grp 3 (times 5 digit +++ opt (str "-" +++ times 4 digit)).

Definition orEmpty (o : option string) : string :=
  match o with Some s => s | None => EmptyString end.

(** [Math.ceil(a / b)] for integers [a] and [b > 0].  The quotient of the
    program is a binary64; it is at most 179 exactly when the exact
    quotient is, so the comparison with [MIN_AGE_DAYS] is the same. *)
Definition ceilDiv (a b : Z) : Z := (- ((- a) / b))%Z.

(** [x < y] where [x] may be [NaN] ([None]): false then. *)
Definition ltNaN (x : option Z) (y : Z) : bool :=
  match x with Some v => (v <? y)%Z | None => false end.

Definition msPerDay : Z := 1000 * 60 * 60 * 24.

(** [text.replace(/,/g, '')] *)
Definition stripCommas (text : string) : string :=
  replaceAll false (str ",") EmptyString text.

(** The five tests of [handleMC], in the words of the code; they read the
    same in both files. *)
Section Filters.
Variable E : Env.

Definition recordMissing (html : string) : bool :=
  let upperCaseHtml := JS.toUpperCase html in
  JS.includes upperCaseHtml "RECORD NOT FOUND"
  || JS.includes upperCaseHtml "RECORD INACTIVE".

Definition notAuthorized (html : string) : bool :=
  let authStatusText :=
    JS.toUpperCase (extractDataByHeader html "Operating Authority Status:") in
  JS.includes authStatusText "NOT AUTHORIZED"
  || negb (JS.includes authStatusText "AUTHORIZED").

Definition diffDays (dateStr : string) : option Z :=
  let formDate := Date_parse E dateStr in
  let today := Date_now E in
  let diffTime := option_map (fun t => Z.abs (today - t)) formDate in
  option_map (fun d => ceilDiv d msPerDay) diffTime.

(** The age test rejects: the date is there and too recent, or it is
    not there. *)
Definition tooNew (html : string) : bool :=
  let dateStr := extractDataByHeader html "MCS-150 Form Date:" in
  if JS.truthy dateStr then ltNaN (diffDays dateStr) MIN_AGE_DAYS
  else true.

(** [isNaN(n) || n < 1] for [n = Number(text.replace(/,/g, ''))] *)
Definition belowOne (text : string) : bool :=
  let n := Num.Number (stripCommas text) in
  Num.isNaN n || Num.lt n 1.

Definition tooFewPowerUnits (html : string) : bool :=
  belowOne (extractDataByHeader html "Power Units:").

Definition tooFewDrivers (html : string) : bool :=
  belowOne (extractDataByHeader html "Drivers:").
End Filters.

(** [r[h]]: the value of a property of an object, [undefined] rendered
    as [None]. *)
Fixpoint property (obj : list (string * string)) (h : string)
  : option string :=
  match obj with
  | [] => None
  | (k, v) :: rest => if String.eqb k h then Some v else property rest h
  end.

Definition newline : string := String (ascii_of_nat 10) EmptyString.

(** The cell written by [run] for a property value [v]: the text of
    [v || ''] between double quotes, each double quote in it doubled. *)
Definition csvCell (v : option string) : string :=
  dq ++ replaceAll false (str dq) (dq ++ dq) (orEmpty v) ++ dq.

(* ================================================================== *)
(** ** [src/extractor.js] *)
(* ================================================================== *)

Module Extractor.

Record Address : Type := mkAddress { city : string; state : string }.

Definition parseAddress (addressString : string) : Address :=
  if negb (JS.truthy addressString) then mkAddress EmptyString EmptyString
  else
    match exec false addressRegex addressString with
    | Some m =>
        mkAddress (JS.trim (orEmpty (group 1 m)))
                  (JS.trim (orEmpty (group 2 m)))
    | None =>
        let parts := JS.split "," addressString in
        if (2 <=? length parts)%nat then
          let stateZip :=
            Regex.split false (plus space)
              (JS.trim (nth (length parts - 1) parts EmptyString)) in
          mkAddress (JS.trim (nth (length parts - 2) parts EmptyString))
                    (nth 0 stateZip EmptyString)
        else mkAddress EmptyString EmptyString
    end.

(** [sectionHeader] is escaped before it enters the pattern, so it stands
    for itself. *)
Definition sectionRegex (sectionHeader : string) : regex :=
  str sectionHeader +++ str "</a></td>" +++ Star false (Cls anyChar)
  +++ str "<table" +++ Star false (Cls dot)
  +++ Grp 1 (Star false (Cls anyChar)) +++ str "</table>".

Definition opClassRegex : regex :=
  str "Operation Classification:</a></td>" +++ Star false (Cls anyChar)
  +++ str "<table" +++ Star false (Cls dot)
  +++ Grp 1 (Star false (Cls anyChar)) +++ str "</table>".

Definition getXMarkedItems (html sectionHeader : string) : list string :=
  match groupText 1 (exec true (sectionRegex sectionHeader) html) with
  | None =>
      if JS.includes sectionHeader "Operation Classification" then
        match groupText 1 (exec true opClassRegex html) with
        | None => []
        | Some tableHtml => JS.dedupe (markedLabels tableHtml)
        end
      else []
  | Some tableHtml => JS.dedupe (markedLabels tableHtml)
  end.

Record Row : Type := mkRow {
  MC_Number : string;
  USDOT_Number : string;
  Legal_Name : string;
  City : string;
  State : string;
  Status : string;
  Authority_Type : string;
  Power_Units : string;
  Drivers : string;
  Cargo_Carried : string;
  Phone : string;
  Email : string;
  Operation_Type : string;
  Entity_Type : string;
  Script_Output : string
}.

Record Result : Type := mkResult { valid : bool; row : option Row }.

Definition authorityRegex : regex :=
  str "AUTHORIZED FOR "
  +++ Grp 1 (Alt (str "Property") (Alt (str "Passenger") (str "HHG"))).

Definition mcRegex : regex := str "MC-" +++ Grp 1 (range 3 9 digit).

Section Pipeline.
Variable E : Env.

(** [new URL(href, base).href] *)
Definition newURL (href base : string) : M string :=
  match URL_href E href base with
  | Some u => ret u
  | None => throw (Error "Invalid URL")
  end.

Definition extractAllData (url html : string) : M Row :=
  let legalName := extractDataByHeader html "Legal Name:" in
  let usdotNumber := extractDataByHeader html "USDOT Number:" in
  let phone := extractDataByHeader html "Phone:" in
  let entityType := extractDataByHeader html "Entity Type:" in
  let powerUnits := extractDataByHeader html "Power Units:" in
  let drivers := extractDataByHeader html "Drivers:" in
  let usdotStatus := extractDataByHeader html "USDOT Status:" in
  let authStatusText :=
    extractDataByHeader html "Operating Authority Status:" in
  let status :=
    if JS.includes (JS.toUpperCase usdotStatus) "ACTIVE"
       && JS.includes (JS.toUpperCase authStatusText) "AUTHORIZED"
    then "Active" else "Inactive" in
  let mcNumber := orEmpty (groupText 1 (exec true mcRegex html)) in
  let physicalAddress := extractDataByHeader html "Physical Address:" in
  let addr := parseAddress physicalAddress in
  let authorityType :=
    match exec true authorityRegex authStatusText with
    | Some m => orEmpty (group 1 m)
    | None => EmptyString
    end in
  let operationTypes := getXMarkedItems html "Carrier Operation:" in
  let cargoCarried := getXMarkedItems html "Cargo Carried:" in
  email <-
    match groupText 1 (exec true smsLinkRegex html) with
    | Some href =>
        smsLink <- newURL href url ;;
        sleep 300 ;;;
        tryCatch
          (smsHtml <- fetchRetry E smsLink MAX_RETRIES FETCH_TIMEOUT_MS
                        "sms" ;;
           match groupText 1 (exec true regLinkRegex smsHtml) with
           | Some href' =>
               regLink <- newURL href' smsLink ;;
               sleep 300 ;;;
               regHtml <- fetchRetry E regLink MAX_RETRIES FETCH_TIMEOUT_MS
                            "registration" ;;
               match exec false emailRegex regHtml with
               | Some m => ret (orEmpty (group 1 m))
               | None => ret EmptyString
               end
           | None => ret EmptyString
           end)
          (fun _ => ret EmptyString)
    | None => ret EmptyString
    end ;;
  ret {| MC_Number := mcNumber;
         USDOT_Number := usdotNumber;
         Legal_Name := legalName;
         City := city addr;
         State := state addr;
         Status := status;
         Authority_Type := authorityType;
         Power_Units := powerUnits;
         Drivers := drivers;
         Cargo_Carried := JS.join ", " cargoCarried;
         Phone := phone;
         Email := email;
         Operation_Type := JS.join ", " operationTypes;
         Entity_Type := entityType;
         Script_Output := EmptyString |}.

Definition rejected : Result := mkResult false None.

Definition handleMC (mc : string) : M Result :=
  let url := mcToSnapshotUrl mc in
  tryCatch
    (html <- fetchRetry E url MAX_RETRIES FETCH_TIMEOUT_MS "snapshot" ;;
     if recordMissing html then ret rejected
     else if notAuthorized html then ret rejected
     else if tooNew E html then ret rejected
     else if tooFewPowerUnits html then ret rejected
     else if tooFewDrivers html then ret rejected
     else
       row <- extractAllData url html ;;
       ret (mkResult true (Some row)))
    (fun _ => ret rejected).
End Pipeline.

(** The record as the object it is: its properties in order. *)
Definition entries (r : Row) : list (string * string) :=
  [("MC_Number", MC_Number r); ("USDOT_Number", USDOT_Number r);
   ("Legal_Name", Legal_Name r); ("City", City r); ("State", State r);
   ("Status", Status r); ("Authority_Type", Authority_Type r);
   ("Power_Units", Power_Units r); ("Drivers", Drivers r);
   ("Cargo_Carried", Cargo_Carried r); ("Phone", Phone r);
   ("Email", Email r); ("Operation_Type", Operation_Type r);
   ("Entity_Type", Entity_Type r); ("Script_Output", Script_Output r)].

Definition headers : list string :=
  ["MC_Number"; "USDOT_Number"; "Legal_Name"; "City"; "State"; "Status";
   "Authority_Type"; "Power_Units"; "Drivers"; "Cargo_Carried"; "Phone";
   "Email"; "Operation_Type"; "Entity_Type"; "Script_Output"].

(** One line of the file written by [run]: the cells of a record under
    [headers], joined by commas. *)
Definition csvRow (r : Row) : string :=
  JS.join "," (map (fun h => csvCell (property (entries r) h)) headers).

(** The text handed to [fs.writeFileSync]. *)
Definition csv (rows : list Row) : string :=
  JS.join newline (JS.join "," headers :: map csvRow rows).

(** The accumulation loop of [run] over the results of the slices, and
    the file written at the end, if any. *)
Definition collect (results : list Result) : list Row :=
  flat_map (fun r => match valid r, row r with
                     | true, Some x => [x]
                     | _, _ => []
                     end) results.

Definition csvFile (rows : list Row) : option string :=
  match rows with [] => None | _ => Some (csv rows) end.

End Extractor.

(* ================================================================== *)
(** ** [src/unnamed/part_000] *)
(* ================================================================== *)

Module Part000.

Record Address : Type :=
  mkAddress { city : string; state : string; zip : string }.

Definition parseAddress (addressString : string) : Address :=
  if negb (JS.truthy addressString)
  then mkAddress EmptyString EmptyString EmptyString
  else
    match exec false addressRegex addressString with
    | Some m =>
        mkAddress (JS.trim (orEmpty (group 1 m)))
                  (JS.trim (orEmpty (group 2 m)))
                  (JS.trim (orEmpty (group 3 m)))
    | None => mkAddress EmptyString EmptyString EmptyString
    end.

Definition getXMarkedItems (html : string) : list string :=
  JS.dedupe (markedLabels html).

Record Row : Type := mkRow {
  entityType : string;
  legalName : string;
  dbaName : string;
  mcNumber : string;
  phone : string;
  email : string;
  physicalAddress : string;
  mailingAddress : string;
  city_ : string;
  state_ : string;
  zip_ : string;
  operationType : string;
  url_ : string
}.

Record Result : Type :=
  mkResult { valid : bool; url : option string; row : option Row }.

Definition mcRegex : regex := str "MC-" +++ Grp 1 (range 3 7 digit).

(** [items.includes(x)] on an array of strings *)
Definition has (items : list string) (x : string) : bool :=
  existsb (String.eqb x) items.

Section Pipeline.
Variable E : Env.
(** [process.env.MODE || 'both'] *)
Variable MODE : string.

(** [absoluteUrl(base, href)]: the link itself when it cannot be
    resolved. *)
Definition absoluteUrl (base href : string) : string :=
  match URL_href E href base with
  | Some u => u
  | None => href
  end.

Definition extractAllData (url html : string) : M Row :=
  let entityType := extractDataByHeader html "Entity Type:" in
  let legalName := extractDataByHeader html "Legal Name:" in
  let dbaName := extractDataByHeader html "DBA Name:" in
  let physicalAddress := extractDataByHeader html "Physical Address:" in
  let mailingAddress := extractDataByHeader html "Mailing Address:" in
  let addr :=
    parseAddress (if JS.truthy physicalAddress then physicalAddress
                  else mailingAddress) in
  let xMarkedItems := getXMarkedItems html in
  let operationType :=
    if has xMarkedItems "Auth. For Hire" then "Property"
    else if has xMarkedItems "Passengers" then "Passenger"
    else if has xMarkedItems "Broker" then "Broker"
    else EmptyString in
  let mcNumber :=
    match groupText 1 (exec true mcRegex html) with
    | Some g => "MC-" ++ g
    | None => EmptyString
    end in
  let phone := extractDataByHeader html "Phone:" in
  email <-
    match groupText 1 (exec true smsLinkRegex html) with
    | Some href =>
        let smsLink := absoluteUrl url href in
        sleep 300 ;;;
        tryCatch
          (smsHtml <- fetchRetry E smsLink MAX_RETRIES FETCH_TIMEOUT_MS
                        "sms" ;;
           match groupText 1 (exec true regLinkRegex smsHtml) with
           | Some href' =>
               let regLink := absoluteUrl smsLink href' in
               sleep 300 ;;;
               regHtml <- fetchRetry E regLink MAX_RETRIES FETCH_TIMEOUT_MS
                            "registration" ;;
               match exec false emailRegex regHtml with
               | Some m => ret (orEmpty (group 1 m))
               | None => ret EmptyString
               end
           | None => ret EmptyString
           end)
          (fun _ => ret EmptyString)
    | None => ret EmptyString
    end ;;
  ret {| entityType := entityType;
         legalName := legalName;
         dbaName := dbaName;
         mcNumber := mcNumber;
         phone := phone;
         email := email;
         physicalAddress := physicalAddress;
         mailingAddress := mailingAddress;
         city_ := city addr;
         state_ := state addr;
         zip_ := zip addr;
         operationType := operationType;
         url_ := url |}.

Definition rejected : Result := mkResult false None None.

Definition handleMC (mc : string) : M Result :=
  let url := mcToSnapshotUrl mc in
  tryCatch
    (html <- fetchRetry E url MAX_RETRIES FETCH_TIMEOUT_MS "snapshot" ;;
     if recordMissing html then ret rejected
     else if notAuthorized html then ret rejected
     else if tooNew E html then ret rejected
     else if tooFewPowerUnits html then ret rejected
     else if tooFewDrivers html then ret rejected
     else if String.eqb MODE "urls" then ret (mkResult true (Some url) None)
     else
       row <- extractAllData url html ;;
       ret (mkResult true (Some url) (Some row)))
    (fun _ => ret rejected).
End Pipeline.

Definition entries (r : Row) : list (string * string) :=
  [("entityType", entityType r); ("legalName", legalName r);
   ("dbaName", dbaName r); ("mcNumber", mcNumber r); ("phone", phone r);
   ("email", email r); ("physicalAddress", physicalAddress r);
   ("mailingAddress", mailingAddress r); ("city", city_ r);
   ("state", state_ r); ("zip", zip_ r);
   ("operationType", operationType r); ("url", url_ r)].

Definition headers : list string :=
  ["mcNumber"; "legalName"; "dbaName"; "entityType"; "operationType";
   "phone"; "email"; "physicalAddress"; "mailingAddress"; "city"; "state";
   "zip"; "url"].

Definition csvRow (r : Row) : string :=
  JS.join "," (map (fun h => csvCell (property (entries r) h)) headers).

Definition csv (rows : list Row) : string :=
  JS.join newline (JS.join "," headers :: map csvRow rows).

(** The accumulation loop of [run]: the records and the URLs of the valid
    results, in order. *)
Definition collect (results : list Result) : list Row * list string :=
  (flat_map (fun r => match valid r, row r with
                      | true, Some x => [x]
                      | _, _ => []
                      end) results,
   flat_map (fun r => match valid r, url r with
                      | true, Some u => if JS.truthy u then [u] else []
                      | _, _ => []
                      end) results).

Definition csvFile (rows : list Row) : option string :=
  match rows with [] => None | _ => Some (csv rows) end.

(** The list of URLs, written in [urls] mode only. *)
Definition urlFile (MODE : string) (validUrls : list string) : option string :=
  if String.eqb MODE "urls" then
    match validUrls with
    | [] => None
    | _ => Some (JS.join newline validUrls)
    end
  else None.

End Part000.

(* ================================================================== *)
(** ** A concrete world, to run the programs in *)
(* ================================================================== *)

Module Sample.

(** Days from 1970-01-01 to the civil date [y-m-d]. *)
Definition daysFromCivil (y m d : Z) : Z :=
  let y' := if (m <=? 2)%Z then (y - 1)%Z else y in
  let era := (y' / 400)%Z in
  let yoe := (y' - era * 400)%Z in
  let mp := ((m + 9) mod 12)%Z in
  let doy := ((153 * mp + 2) / 5 + d - 1)%Z in
  let doe := (yoe * 365 + yoe / 4 - yoe / 100 + doy)%Z in
  (era * 146097 + doe - 719468)%Z.

(** A date parser for the [MM/DD/YYYY] dates of the service, read at
    midnight UTC; any other text is an invalid date. *)
Definition parseMDY (s : string) : option Z :=
  match Num.span JS.isDigit s with
  | (String a m, String "/" r1) =>
      match Num.span JS.isDigit r1 with
      | (String b d, String "/" r2) =>
          match Num.span JS.isDigit r2 with
          | (String c y, EmptyString) =>
              let mv := Num.digitsVal 10 0 (String a m) in
              let dv := Num.digitsVal 10 0 (String b d) in
              let yv := Num.digitsVal 10 0 (String c y) in
              if (1 <=? mv)%Z && (mv <=? 12)%Z && (1 <=? dv)%Z && (dv <=? 31)%Z
              then Some (daysFromCivil yv mv dv * msPerDay)%Z
              else None
          | _ => None
          end
      | _ => None
      end
  | _ => None
  end.

Definition origin : string := "https://safer.fmcsa.dot.gov".

(** The host and port of an absolute [http(s)] link: a port must be a
    number up to 65535. *)
Definition portOk (authority : string) : bool :=
  match JS.split ":" authority with
  | [_] => true
  | [_; port] =>
      match Num.span JS.isDigit port with
      | (ds, EmptyString) => (Num.digitsVal 10 0 ds <=? 65535)%Z
      | _ => false
      end
  | _ => false
  end.

(** A resolver for the links of the service: an absolute link stands for
    itself when its authority is well formed, any other link is taken
    from the root of the base. *)
Definition resolve (href base : string) : option string :=
  let absolute rest :=
    if portOk (nth 0 (JS.split "/" rest) EmptyString) then Some href
    else None in
  if JS.startsWith "https://" href
  then absolute (substring 8 (String.length href) href)
  else if JS.startsWith "http://" href
  then absolute (substring 7 (String.length href) href)
  else if JS.startsWith "/" href then Some (origin ++ href)
  else Some (origin ++ "/" ++ href).

(** A page fragment the way the service lays a field out. *)
Definition th (label value : string) : string :=
  "<tr><th><a href='x'>" ++ label ++ "</a></th><td class='queryfield' valign=top>"
  ++ value ++ "</td></tr>".

(** A marker table after a section anchor. *)
Definition marked (label : string) : string :=
  "<td class=" ++ dq ++ "queryfield" ++ dq ++ " width=5>X</td><td><font size=2>"
  ++ label ++ "</font></td>".

Definition section (header : string) (rows : list string) : string :=
  "<td><a href='y'>" ++ header ++ "</a></td><td><table summary='s'><tr>"
  ++ JS.join "</tr><tr>" rows ++ "</tr></table></td>".

(** A snapshot page, given its authority status, form date, fleet size,
    driver count and whatever else stands on it. *)
Definition page (status date units drivers extra : string) : string :=
  "<html><body><table>"
  ++ th "Entity Type:" "CARRIER"
  ++ th "USDOT Status:" "ACTIVE"
  ++ th "USDOT Number:" "1234567"
  ++ th "Operating Authority Status:" status
  ++ th "MCS-150 Form Date:" date
  ++ th "Legal Name:" "ACME FREIGHT &amp; SONS"
  ++ th "Physical Address:" "12 MAIN ST<br> SPRINGFIELD, IL &nbsp; 62704"
  ++ th "Phone:" "(555) 010-0000"
  ++ th "Power Units:" units
  ++ th "Drivers:" drivers
  ++ "</table>MC-123456 "
  ++ section "Carrier Operation:" [marked "Interstate"]
  ++ section "Cargo Carried:"
       [marked "General Freight"; marked "Household Goods";
        marked "General Freight"]
  ++ extra ++ "</body></html>".

Definition crossLink : string := "<a href='/SMS/Carrier/1234567/'>SMS</a>".

Definition smsPage : string :=
  "<a href='/SMS/Carrier/1234567/CarrierRegistration.aspx'>Registration</a>".

Definition regPage : string :=
  "<span>Email:</span> <span>dispatch@acme-freight.example.com</span>".

(** 2024-07-01 00:00 UTC. *)
Definition now : Z := (daysFromCivil 2024 7 1 * msPerDay)%Z.

(** A network that serves [snapshot] for a query and the two further
    pages of the service, and refuses an address that does not parse. *)
Definition serve (snapshot : string) (n : nat) (url : string) : response :=
  if negb (JS.truthy (orEmpty (resolve url origin)))
  then Rejects (Error "Invalid URL")
  else if JS.includes url "query.asp" then Responds 200 snapshot
  else if JS.includes url "CarrierRegistration.aspx" then Responds 200 regPage
  else if JS.includes url "/SMS/" then Responds 200 smsPage
  else Responds 404 EmptyString.

(** The same, with the service refusing the pages behind the snapshot. *)
Definition serveSnapshotOnly (snapshot : string) (n : nat) (url : string)
  : response :=
  if JS.includes url "query.asp" then Responds 200 snapshot
  else Rejects (Error "socket hang up").

Definition env (snapshot : string) : Env :=
  mkEnv (serve snapshot) parseMDY now resolve.

Definition envSnapshotOnly (snapshot : string) : Env :=
  mkEnv (serveSnapshotOnly snapshot) parseMDY now resolve.

Definition good : string :=
  page "AUTHORIZED FOR Property" "01/15/2020" "5" "3" crossLink.

End Sample.

(* ================================================================== *)
(** ** Vocabulary of the statements *)
(* ================================================================== *)

(** What [n] failed attempts from loop index [i] leave in the trace: a
    request and the pause that follows it, each time. *)
Definition failures (url : string) (i n : nat) : list event :=
  flat_map (fun k => [Fetched url; Slept (BACKOFF_BASE_MS * 2 ^ Z.of_nat k)])
           (seq i n).

Definition genericError (label : string) (tries : nat) : error :=
  Error (label ++ " failed after " ++ showZ (Z.of_nat tries) ++ " attempts").

(** The requests recorded in a trace. *)
Definition attemptsIn (t : list event) : nat :=
  length (filter (fun e => match e with Fetched _ => true | _ => false end) t).

(** All five tests let the page through. *)
Definition passes (E : Env) (html : string) : bool :=
  negb (recordMissing html) && negb (notAuthorized html)
  && negb (tooNew E html) && negb (tooFewPowerUnits html)
  && negb (tooFewDrivers html).

(** The snapshot request of [handleMC]. *)
Definition snapshot (E : Env) (mc : string) : M string :=
  fetchRetry E (mcToSnapshotUrl mc) MAX_RETRIES FETCH_TIMEOUT_MS "snapshot".

(** The verdict and the record in what a run of [handleMC] comes to. *)
Definition acceptedE (o : outcome Extractor.Result) : bool :=
  match o with Returns r => Extractor.valid r | Throws _ => false end.

Definition recordE (o : outcome Extractor.Result) : option Extractor.Row :=
  match o with Returns r => Extractor.row r | Throws _ => None end.

Definition acceptedP (o : outcome Part000.Result) : bool :=
  match o with Returns r => Part000.valid r | Throws _ => false end.

Definition recordP (o : outcome Part000.Result) : option Part000.Row :=
  match o with Returns r => Part000.row r | Throws _ => None end.

(** A service that is down, and one that answers the second request. *)
Definition downEnv : Env :=
  mkEnv (fun _ _ => Rejects (Error "ECONNRESET")) (fun _ => None) 0
        (fun _ _ => None).

Definition flakyEnv : Env :=
  mkEnv (fun n _ => match n with
                    | O => Responds 503 "busy"
                    | _ => Responds 200 "<html>ok</html>"
                    end)
        (fun _ => None) 0 (fun _ _ => None).


(** Every character of [s], or some character of [s], satisfies [p]. *)
Fixpoint allOf (p : ascii -> bool) (s : string) : bool :=
  match s with
  | EmptyString => true
  | String c s' => p c && allOf p s'
  end.

Fixpoint anyOf (p : ascii -> bool) (s : string) : bool :=
  match s with
  | EmptyString => false
  | String c s' => p c || anyOf p s'
  end.

(** The characters of a count as the service prints it: decimal digits
    and the comma between thousands. *)
Definition countChar (c : ascii) : bool := JS.isDigit c || Ascii.eqb "," c.

(** The number such a count stands for, the commas skipped. *)
Fixpoint decimalValue (acc : Z) (text : string) : Z :=
  match text with
  | EmptyString => acc
  | String c s' =>
      if Ascii.eqb "," c then decimalValue acc s'
      else decimalValue (acc * 10 + Z.of_nat (JS.code c - 48)) s'
  end.

(** A number that is at least 1. *)
Definition atLeastOne (n : Num.number) : Prop :=
  match n with
  | Num.Fin q => (1 <= q)%Q
  | Num.Inf negative => negative = false
  | Num.NaN => False
  end.

(** A record of [extractor.js] with its email blanked. *)
Definition clearEmailE (r : Extractor.Row) : Extractor.Row :=
  {| Extractor.MC_Number := Extractor.MC_Number r;
     Extractor.USDOT_Number := Extractor.USDOT_Number r;
     Extractor.Legal_Name := Extractor.Legal_Name r;
     Extractor.City := Extractor.City r;
     Extractor.State := Extractor.State r;
     Extractor.Status := Extractor.Status r;
     Extractor.Authority_Type := Extractor.Authority_Type r;
     Extractor.Power_Units := Extractor.Power_Units r;
     Extractor.Drivers := Extractor.Drivers r;
     Extractor.Cargo_Carried := Extractor.Cargo_Carried r;
     Extractor.Phone := Extractor.Phone r;
     Extractor.Email := EmptyString;
     Extractor.Operation_Type := Extractor.Operation_Type r;
     Extractor.Entity_Type := Extractor.Entity_Type r;
     Extractor.Script_Output := Extractor.Script_Output r |}.

(** A record of [part_000] with its email blanked. *)
Definition clearEmailP (r : Part000.Row) : Part000.Row :=
  {| Part000.entityType := Part000.entityType r;
     Part000.legalName := Part000.legalName r;
     Part000.dbaName := Part000.dbaName r;
     Part000.mcNumber := Part000.mcNumber r;
     Part000.phone := Part000.phone r;
     Part000.email := EmptyString;
     Part000.physicalAddress := Part000.physicalAddress r;
     Part000.mailingAddress := Part000.mailingAddress r;
     Part000.city_ := Part000.city_ r;
     Part000.state_ := Part000.state_ r;
     Part000.zip_ := Part000.zip_ r;
     Part000.operationType := Part000.operationType r;
     Part000.url_ := Part000.url_ r |}.

(** [s] with every [c] replaced by [rep]. *)
Fixpoint substitute (c : ascii) (rep s : string) : string :=
  match s with
  | EmptyString => EmptyString
  | String x s' =>
      if Ascii.eqb c x then rep ++ substitute c rep s'
      else String x (substitute c rep s')
  end.

(** The text before and after the first [c] of [s]. *)
Fixpoint firstAt (c : ascii) (s : string) : option (string * string) :=
  match s with
  | EmptyString => None
  | String x s' =>
      if Ascii.eqb c x then Some (EmptyString, s')
      else match firstAt c s' with
           | Some (a, b) => Some (String x a, b)
           | None => None
           end
  end.

Module Csv.

(** Where the reader stands: before a cell, inside one, or just after a
    double quote met inside one. *)
Inductive state : Type := CellStart | InCell | QuoteSeen.

Definition isQuote (c : ascii) : bool := Ascii.eqb (ascii_of_nat 34) c.

(** Modelled from the spec: the repository writes the CSV file and has no
    reader for it.  This is the reader the round trip of the spec speaks
    of, for a row that is "comma-delimited", with "double-quote field
    escaping via doubling embedded quotes" and every field between
    double quotes: inside a field a doubled quote stands for one quote,
    a single quote ends the field, and a comma or the end of the row
    must follow. *)
Fixpoint read (st : state) (cur : string) (done : list string) (s : string)
  : option (list string) :=
  match s with
  | EmptyString =>
      match st with
      | QuoteSeen => Some (List.rev (JS.rev cur :: done))
      | _ => None
      end
  | String c s' =>
      match st with
      | CellStart =>
          if isQuote c then read InCell EmptyString done s' else None
      | InCell =>
          if isQuote c then read QuoteSeen cur done s'
          else read InCell (String c cur) done s'
      | QuoteSeen =>
          if isQuote c then read InCell (String c cur) done s'
          else if Ascii.eqb c "," then
                 read CellStart EmptyString (JS.rev cur :: done) s'
               else None
      end
  end.

(** Modelled from the spec: a row "parsed back field-by-field
    (respecting quote-doubling)". *)
Definition parseRow (line : string) : option (list string) :=
  read CellStart EmptyString [] line.

End Csv.

Module Pages.
Import Sample.



(** The service prints [None] for a carrier that never filed the form. *)
Definition neverFiled : string :=
  page "AUTHORIZED FOR Property" "None" "5" "3" EmptyString.

(** A cross-reference link whose port is out of range. *)
Definition badLink : string :=
  page "AUTHORIZED FOR Property" "01/15/2020" "5" "3"
       "<a href='http://ai.fmcsa.dot.gov:99999/SMS/Carrier/1234567/'>SMS</a>".

(** Marked rows in a table that no section anchor introduces. *)
Definition bareTable : string :=
  "<table><tr>" ++ marked "General Freight" ++ "</tr></table>".

End Pages.

(* ================================================================== *)
(** ** What a pattern matches *)
(* ================================================================== *)

(** [Matches ci r m c c']: the pattern [r] matches the whole of [m] and
    takes the captures from [c] to [c'], whatever the order in which a
    matcher tries things. *)
Inductive Matches (ci : bool) : regex -> string -> caps -> caps -> Prop :=
| MEmp c : Matches ci Emp EmptyString c c
| MLit a x c :
    litMatches ci a x = true -> Matches ci (Lit a) (String x EmptyString) c c
| MCls (p : ascii -> bool) x c :
    p x = true -> Matches ci (Cls p) (String x EmptyString) c c
| MCat r1 r2 m1 m2 c c1 c2 :
    Matches ci r1 m1 c c1 -> Matches ci r2 m2 c1 c2 ->
    Matches ci (Cat r1 r2) (m1 ++ m2) c c2
| MAltL r1 r2 m c c' : Matches ci r1 m c c' -> Matches ci (Alt r1 r2) m c c'
| MAltR r1 r2 m c c' : Matches ci r2 m c c' -> Matches ci (Alt r1 r2) m c c'
| MStar0 g r c : Matches ci (Star g r) EmptyString c c
| MStarS g r m1 m2 c c1 c2 :
    Matches ci r m1 c c1 -> Matches ci (Star g r) m2 c1 c2 ->
    Matches ci (Star g r) (m1 ++ m2) c c2
| MGrp n r m c c' :
    Matches ci r m c c' -> Matches ci (Grp n r) m c ((n, m) :: c').

(* ================================================================== *)
(** ** Shapes of the extracted values *)
(* ================================================================== *)

(** Exactly [n] decimal digits. *)
Definition digitsOf (n : nat) (s : string) : Prop :=
  allOf JS.isDigit s = true /\ String.length s = n.

(** A five-digit postal code, or one with a four-digit extension. *)
Definition zipShaped (z : string) : Prop :=
  digitsOf 5 z
  \/ exists a b, z = a ++ "-" ++ b /\ digitsOf 5 a /\ digitsOf 4 b.

(** Two capital letters. *)
Definition twoCapitals (s : string) : Prop :=
  allOf JS.isUpper s = true /\ String.length s = 2%nat.

(** No comma, and no white space at either end. *)
Definition citySegment (s : string) : Prop :=
  allOf (notChar ",") s = true /\ JS.trim s = s.

(** [local@domain.tld], each part in its alphabet, the last letters
    only and two at least. *)
Definition emailShaped (e : string) : Prop :=
  exists l d t,
    e = l ++ "@" ++ d ++ "." ++ t
    /\ l <> EmptyString /\ allOf emailLocal l = true
    /\ d <> EmptyString /\ allOf emailDomain d = true
    /\ allOf JS.isAlpha t = true /\ (2 <= String.length t)%nat.

(** The email a [try] block of [extractAllData] can come to: nothing, or
    the first capture of the email pattern on some page. *)
Definition emailFound (email : string) : Prop :=
  email = EmptyString
  \/ exists regHtml m,
      exec false emailRegex regHtml = Some m
      /\ email = orEmpty (group 1 m).

(** Between [lo] and [hi] decimal digits. *)
Definition digitRun (lo hi : nat) (s : string) : Prop :=
  allOf JS.isDigit s = true /\ (lo <= String.length s <= hi)%nat.

(** One of the three kinds of authority, in any mix of cases. *)
Definition authorityWord (s : string) : Prop :=
  In (JS.toUpperCase s) ["PROPERTY"; "PASSENGER"; "HHG"].

(* ================================================================== *)
(** ** What a run costs *)
(* ================================================================== *)

(** The milliseconds slept in a trace. *)
Fixpoint pausedIn (t : list event) : Z :=
  match t with
  | [] => 0
  | Slept ms :: t' => ms + pausedIn t'
  | Fetched _ :: t' => pausedIn t'
  end.

(** From [w] to [w'] the trace only grew, by at most [n] requests, each
    counted, and by pauses of at most [ms] milliseconds in all. *)
Definition spent (w w' : world) (n : nat) (ms : Z) : Prop :=
  exists t,
    trace w' = (trace w ++ t)%list
    /\ requests w' = (requests w + attemptsIn t)%nat
    /\ (attemptsIn t <= n)%nat
    /\ (0 <= pausedIn t <= ms)%Z.

(** [m] spends at most [n] requests and [ms] milliseconds when it
    returns, and at most [n'] and [ms'] when it throws. *)
Definition costs {A} (m : M A) (n : nat) (ms : Z) (n' : nat) (ms' : Z)
  : Prop :=
  forall w,
    match m w with
    | (Returns _, w') => spent w w' n ms
    | (Throws _, w') => spent w w' n' ms'
    end.

(** A network on which only the third and the sixth request are
    answered. *)
Definition stubbornEnv : Env :=
  mkEnv (fun n url =>
           if (n =? 2)%nat || (n =? 5)%nat
           then Sample.serve Sample.good n url
           else Rejects (Error "ETIMEDOUT"))
        Sample.parseMDY Sample.now Sample.resolve.

(** The no-break space U+00A0, which is white space to [\s], [trim] and
    [Number]. *)
Definition NBSP : ascii := ascii_of_nat 160.

(* ================================================================== *)
(** ** Labels that stand for themselves *)
(* ================================================================== *)

(** The characters that are operators in a pattern. *)
Definition patternOperator (c : ascii) : bool :=
  existsb (Ascii.eqb c)
          ["^"; "$"; "\"; "."; "*"; "+"; "?"; "("; ")"; "["; "]"; "{"; "}";
           "|"]%char.

(** A label that [new RegExp] reads as the text it is: ASCII, and free
    of pattern operators.  The labels the programs pass are of this
    kind. *)
Definition plainLabel (headerText : string) : bool :=
  allOf (fun c => (JS.code c <? 128)%nat && negb (patternOperator c))
        headerText.

(* ================================================================== *)
(** ** Text in normal form *)
(* ================================================================== *)

(** [s] does not begin with white space. *)
Definition headOk (s : string) : bool :=
  match s with
  | String x _ => negb (JS.isSpace x)
  | EmptyString => true
  end.

(** Every white-space character of [s] is a plain space, and none is
    followed by another. *)
Fixpoint singleSpaced (s : string) : bool :=
  match s with
  | EmptyString => true
  | String x s' =>
      (negb (JS.isSpace x) || (Ascii.eqb x " " && headOk s'))
      && singleSpaced s'
  end.

(* ================================================================== *)
(** ** Identifiers and their addresses *)
(* ================================================================== *)

(** [s] without its white space. *)
Fixpoint squash (s : string) : string :=
  match s with
  | EmptyString => EmptyString
  | String x s' =>
      if JS.isSpace x then squash s' else String x (squash s')
  end.

(** All the code units there are. *)
Definition codeUnits : list ascii := map ascii_of_nat (seq 0 256).

(** What [encodeURIComponent] writes for one code unit. *)
Definition escapeOf (c : ascii) : string :=
  if unreserved c then String c EmptyString
  else if (JS.code c <? 128)%nat then percent (JS.code c)
  else percent (192 + JS.code c / 64) ++ percent (128 + JS.code c mod 64).

(* ================================================================== *)
(** ** [run]: the identifiers of the input file *)
(* ================================================================== *)

Definition CR : ascii := ascii_of_nat 13.
Definition LF : ascii := ascii_of_nat 10.

(** [/\r?\n/] *)
Definition lineEnd : regex := opt (Lit CR) +++ Lit LF.

(** [raw.split(/\r?\n/).map(s => s.trim()).filter(Boolean)], the same in
    both files. *)
Definition readIdentifiers (raw : string) : list string :=
  filter JS.truthy (map JS.trim (Regex.split false lineEnd raw)).

(** The texts between the line ends of [s], a line end being a line feed
    or a carriage return and a line feed; [acc] is the text read since
    the last one, backwards. *)
Fixpoint linesFrom (acc s : string) : list string :=
  match s with
  | EmptyString => [JS.rev acc]
  | String x s' =>
      if Ascii.eqb LF x then JS.rev acc :: linesFrom EmptyString s'
      else
        match s' with
        | String y s'' =>
            if Ascii.eqb CR x && Ascii.eqb LF y
            then JS.rev acc :: linesFrom EmptyString s''
            else linesFrom (String x acc) s'
        | EmptyString => linesFrom (String x acc) s'
        end
  end.

(* ================================================================== *)
(** ** [run]: the slices *)
(* ================================================================== *)

(** An index of [slice] brought into [0 .. len]: a negative one counts
    from the end. *)
Definition relIndex (k len : Z) : Z :=
  if (k <? 0)%Z then Z.max (len + k) 0 else Z.min k len.

(** [a.slice(from, to)] for integers [from] and [to] *)
Definition slice {A} (a : list A) (from to : Z) : list A :=
  let len := Z.of_nat (length a) in
  let k := relIndex from len in
  let final := relIndex to len in
  firstn (Z.to_nat (final - k)) (skipn (Z.to_nat k) a).

(** The slices that the loop
    [for (let i = 0; i < allMCs.length; i += CONCURRENCY)] of [run] hands
    to [handleMC], for an integer [CONCURRENCY], from index [i] on;
    [None] when [fuel] rounds do not end the loop. *)
Fixpoint slicesFrom (fuel : nat) (CONCURRENCY i : Z) (allMCs : list string)
  : option (list (list string)) :=
  match fuel with
  | O =>
      if (i <? Z.of_nat (length allMCs))%Z then None else Some []
  | S fuel' =>
      if (i <? Z.of_nat (length allMCs))%Z then
        option_map (cons (slice allMCs i (i + CONCURRENCY)))
                   (slicesFrom fuel' CONCURRENCY (i + CONCURRENCY) allMCs)
      else Some []
  end.

Definition slices (fuel : nat) (CONCURRENCY : Z) (allMCs : list string)
  : option (list (list string)) :=
  slicesFrom fuel CONCURRENCY 0 allMCs.

(** A service that answers every request with the status 503. *)
Definition unavailableEnv : Env :=
  mkEnv (fun _ _ => Responds 503 "Service Unavailable")
        Sample.parseMDY Sample.now Sample.resolve.

(** A snapshot page of a carrier whose USDOT status is INACTIVE. *)
Definition dormant : string :=
  "<html><body><table>"
  ++ Sample.th "USDOT Status:" "INACTIVE"
  ++ Sample.th "Operating Authority Status:" "AUTHORIZED FOR Property"
  ++ Sample.th "MCS-150 Form Date:" "01/15/2020"
  ++ Sample.th "Power Units:" "5"
  ++ Sample.th "Drivers:" "3"
  ++ "</table></body></html>".

(* ================================================================== *)
(** ** Strings, and patterns of one character *)
(* ================================================================== *)

Lemma append_nil_r (s : string) : s ++ EmptyString = s.
Proof. induction s as [|c s IH]; cbn; [|rewrite IH]; reflexivity. Qed.

Lemma append_assoc (a b c : string) : (a ++ b) ++ c = a ++ (b ++ c).
Proof. induction a as [|x a IH]; cbn; [|rewrite IH]; reflexivity. Qed.

Lemma length_append (a b : string) :
  String.length (a ++ b) = (String.length a + String.length b)%nat.
Proof. induction a as [|x a IH]; cbn; [|rewrite IH]; reflexivity. Qed.

Lemma rev_onto_append (s acc : string) :
  JS.rev_onto s acc = JS.rev s ++ acc.
Proof.
  unfold JS.rev. revert acc.
  induction s as [|c s IH]; intro acc; [reflexivity|].
  cbn [JS.rev_onto]. rewrite IH, (IH (String c EmptyString)).
  rewrite append_assoc. reflexivity.
Qed.

Lemma rev_append (a b : string) : JS.rev (a ++ b) = JS.rev b ++ JS.rev a.
Proof.
  induction a as [|x a IH]; cbn [append].
  - cbn. rewrite append_nil_r. reflexivity.
  - unfold JS.rev at 1 3. cbn [JS.rev_onto].
    rewrite !rev_onto_append, IH, append_assoc. reflexivity.
Qed.

Lemma rev_involutive (s : string) : JS.rev (JS.rev s) = s.
Proof.
  induction s as [|c s IH]; [reflexivity|].
  unfold JS.rev at 2. cbn [JS.rev_onto].
  rewrite rev_onto_append, rev_append, IH. reflexivity.
Qed.

Section OneCharacter.
Variable c : ascii.
Let r : regex := str (String c EmptyString).

Lemma matchHere_char (s : string) :
  matchHere false r s
  = match s with
    | String x s' => if Ascii.eqb c x then Some (s', []) else None
    | EmptyString => None
    end.
Proof. destruct s; reflexivity. Qed.

Lemma firstAt_split (s a b : string) :
  firstAt c s = Some (a, b) -> s = a ++ String c b.
Proof.
  revert a. induction s as [|x s IH]; intros a; cbn; [discriminate|].
  destruct (Ascii.eqb_spec c x) as [->|Hne].
  - intros [= <- <-]. reflexivity.
  - destruct (firstAt c s) as [[a' b']|]; [|discriminate].
    intros [= <- <-]. cbn. rewrite (IH a' eq_refl). reflexivity.
Qed.

Lemma search_char (s : string) :
  forall pre,
    search false r pre s
    = match firstAt c s with
      | Some (a, b) =>
          Some (Regex.mkResult (JS.rev pre ++ a) (String c EmptyString) [] b)
      | None => None
      end.
Proof.
  induction s as [|x s IH]; intro pre; [reflexivity|].
  cbn [search firstAt]. rewrite matchHere_char.
  destruct (Ascii.eqb_spec c x) as [->|Hne].
  - cbn [String.length].
    replace (S (String.length s) - String.length s)%nat with 1%nat by lia.
    cbn [JS.take]. rewrite append_nil_r. reflexivity.
  - rewrite IH. destruct (firstAt c s) as [[a b]|]; [|reflexivity].
    unfold JS.rev. cbn [JS.rev_onto].
    rewrite (rev_onto_append pre (String x EmptyString)).
    fold (JS.rev pre). rewrite append_assoc. reflexivity.
Qed.

Lemma substitute_firstAt (rep s : string) :
  substitute c rep s
  = match firstAt c s with
    | Some (a, b) => a ++ rep ++ substitute c rep b
    | None => s
    end.
Proof.
  induction s as [|x s IH]; [reflexivity|].
  cbn [substitute firstAt]. destruct (Ascii.eqb c x); [reflexivity|].
  rewrite IH. destruct (firstAt c s) as [[a b]|]; reflexivity.
Qed.

Lemma replaceLoop_char (rep : string) :
  forall fuel s,
    (String.length s < fuel)%nat ->
    replaceLoop fuel false r rep s = substitute c rep s.
Proof.
  induction fuel as [|fuel IH]; intros s Hlen; [lia|].
  cbn [replaceLoop]. unfold exec. rewrite search_char, substitute_firstAt.
  destruct (firstAt c s) as [[a b]|] eqn:Hf; [|reflexivity].
  cbn [matched after before].
  rewrite IH; [reflexivity|].
  apply firstAt_split in Hf. subst s.
  rewrite length_append in Hlen. cbn [String.length] in Hlen. lia.
Qed.

(** [s.replace(/c/g, rep)] replaces every [c]. *)
Lemma replaceAll_char (rep s : string) :
  replaceAll false r rep s = substitute c rep s.
Proof. apply replaceLoop_char. lia. Qed.
End OneCharacter.

(* ================================================================== *)
(** ** The resilient fetcher *)
(* ================================================================== *)

Section FetcherFacts.
Variable E : Env.
Variables (url label : string) (tries : nat) (timeout : Z).

Lemma failures_S i n :
  failures url i (S n) =
  Fetched url :: Slept (BACKOFF_BASE_MS * 2 ^ Z.of_nat i)
    :: failures url (S i) n.
Proof. reflexivity. Qed.

Lemma fetchRetryLoop_fails (errs : nat -> error) :
  forall n i lastErr w,
    (forall k, (k < n)%nat ->
               attempt E (requests w + k) url = Throws (errs (i + k)%nat)) ->
    fetchRetryLoop E url tries timeout label n i lastErr w =
    (Throws (match n with
             | O => match lastErr with
                    | Some e => e
                    | None => genericError label tries
                    end
             | S m => errs (i + m)%nat
             end),
     mkWorld (requests w + n) (trace w ++ failures url i n)).
Proof.
  induction n as [|n IH]; intros i lastErr w H.
  - simpl. unfold throw, failures. simpl.
    rewrite Nat.add_0_r, app_nil_r. destruct w; reflexivity.
  - cbn [fetchRetryLoop]. unfold tryCatch, fetchWithTimeout.
    pose proof (H 0%nat (Nat.lt_0_succ n)) as H0.
    rewrite !Nat.add_0_r in H0. rewrite H0.
    unfold bind, sleep. cbn [requests trace].
    rewrite IH.
    + cbn [requests trace]. rewrite failures_S.
      rewrite <- !app_assoc. cbn [app].
      replace (S (requests w) + n)%nat with (requests w + S n)%nat by lia.
      destruct n as [|m].
      * rewrite Nat.add_0_r. reflexivity.
      * replace (S i + m)%nat with (i + S m)%nat by lia. reflexivity.
    + intros k Hk. cbn [requests].
      replace (S (requests w) + k)%nat with (requests w + S k)%nat by lia.
      replace (S i + k)%nat with (i + S k)%nat by lia.
      apply H. lia.
Qed.

Lemma fetchRetryLoop_succeeds (errs : nat -> error) (body : string) :
  forall j n i lastErr w,
    (j < n)%nat ->
    (forall k, (k < j)%nat ->
               attempt E (requests w + k) url = Throws (errs (i + k)%nat)) ->
    attempt E (requests w + j) url = Returns body ->
    fetchRetryLoop E url tries timeout label n i lastErr w =
    (Returns body,
     mkWorld (requests w + j + 1)
             (trace w ++ failures url i j ++ [Fetched url])).
Proof.
  induction j as [|j IH]; intros n i lastErr w Hlt Hfail Hok.
  - destruct n as [|n]; [lia|].
    cbn [fetchRetryLoop]. unfold tryCatch, fetchWithTimeout.
    rewrite Nat.add_0_r in Hok. rewrite Hok.
    rewrite Nat.add_0_r. replace (requests w + 1)%nat with (S (requests w)) by lia.
    reflexivity.
  - destruct n as [|n]; [lia|].
    cbn [fetchRetryLoop]. unfold tryCatch, fetchWithTimeout.
    pose proof (Hfail 0%nat (Nat.lt_0_succ j)) as H0.
    rewrite !Nat.add_0_r in H0. rewrite H0.
    unfold bind, sleep. cbn [requests trace].
    rewrite (IH n (S i)).
    + cbn [requests trace]. rewrite failures_S.
      rewrite <- !app_assoc. cbn [app].
      replace (S (requests w) + j + 1)%nat with (requests w + S j + 1)%nat
        by lia.
      reflexivity.
    + lia.
    + intros k Hk. cbn [requests].
      replace (S (requests w) + k)%nat with (requests w + S k)%nat by lia.
      replace (S i + k)%nat with (i + S k)%nat by lia.
      apply Hfail. lia.
    + cbn [requests].
      replace (S (requests w) + j)%nat with (requests w + S j)%nat by lia.
      exact Hok.
Qed.
End FetcherFacts.

Lemma attemptsIn_app t1 t2 :
  attemptsIn (t1 ++ t2) = (attemptsIn t1 + attemptsIn t2)%nat.
Proof. unfold attemptsIn. rewrite filter_app, length_app. reflexivity. Qed.

Lemma attemptsIn_failures url n : forall i, attemptsIn (failures url i n) = n.
Proof.
  induction n as [|n IH]; intro i; [reflexivity|].
  rewrite failures_S. unfold attemptsIn in *. cbn [filter length].
  rewrite IH. reflexivity.
Qed.

(** C3.  Sustained failure: [fetchRetry] makes exactly [tries] attempts,
    pauses [BACKOFF_BASE_MS * 2^i] after the failure of attempt [i]
    (counted from 0), and throws the error of the last attempt.  As soon
    as an attempt succeeds its body is returned and nothing more is
    requested. *)
Theorem fetchRetry_backoff (E : Env) (url label : string) (timeout : Z)
        (tries : nat) (w : world) (errs : nat -> error) :
  ((0 < tries)%nat ->
   (forall i, (i < tries)%nat ->
              attempt E (requests w + i) url = Throws (errs i)) ->
   fst (fetchRetry E url tries timeout label w) = Throws (errs (tries - 1)%nat)
   /\ trace (snd (fetchRetry E url tries timeout label w))
      = (trace w ++ failures url 0 tries)%list
   /\ attemptsIn (trace (snd (fetchRetry E url tries timeout label w)))
      = (attemptsIn (trace w) + tries)%nat)
  /\
  (forall j body,
      (j < tries)%nat ->
      (forall i, (i < j)%nat ->
                 attempt E (requests w + i) url = Throws (errs i)) ->
      attempt E (requests w + j) url = Returns body ->
      fst (fetchRetry E url tries timeout label w) = Returns body
      /\ trace (snd (fetchRetry E url tries timeout label w))
         = (trace w ++ failures url 0 j ++ [Fetched url])%list
      /\ attemptsIn (trace (snd (fetchRetry E url tries timeout label w)))
         = (attemptsIn (trace w) + j + 1)%nat).
Proof.
  split.
  - intros Hpos H. unfold fetchRetry.
    rewrite (fetchRetryLoop_fails E url label tries timeout errs
               tries 0 None w H).
    cbn [fst snd trace]. destruct tries as [|n]; [lia|].
    rewrite attemptsIn_app, attemptsIn_failures.
    replace (S n - 1)%nat with n by lia. repeat split.
  - intros j body Hj Hfail Hok. unfold fetchRetry.
    rewrite (fetchRetryLoop_succeeds E url label tries timeout errs body
               j tries 0 None w Hj Hfail Hok).
    cbn [fst snd trace]. repeat split.
    rewrite !attemptsIn_app, attemptsIn_failures. cbn. lia.
Qed.

Lemma fetchRetry_backoff_witness :
  (fst (fetchRetry downEnv "u" 3 FETCH_TIMEOUT_MS "snapshot" start)
   = Throws (Error "ECONNRESET")
   /\ trace (snd (fetchRetry downEnv "u" 3 FETCH_TIMEOUT_MS "snapshot" start))
      = [Fetched "u"; Slept 2000; Fetched "u"; Slept 4000;
         Fetched "u"; Slept 8000])
  /\
  (fst (fetchRetry flakyEnv "u" 3 FETCH_TIMEOUT_MS "snapshot" start)
   = Returns "<html>ok</html>"
   /\ trace (snd (fetchRetry flakyEnv "u" 3 FETCH_TIMEOUT_MS "snapshot" start))
      = [Fetched "u"; Slept 2000; Fetched "u"]).
Proof.
  split.
  - destruct (proj1 (fetchRetry_backoff downEnv "u" "snapshot"
                       FETCH_TIMEOUT_MS 3 start
                       (fun _ => Error "ECONNRESET")))
      as (H1 & H2 & _).
    + lia.
    + intros i _. reflexivity.
    + split; [exact H1 | exact H2].
  - destruct (proj2 (fetchRetry_backoff flakyEnv "u" "snapshot"
                       FETCH_TIMEOUT_MS 3 start
                       (fun _ => Error "HTTP 503"))
                    1%nat "<html>ok</html>")
      as (H1 & H2 & _).
    + lia.
    + intros i Hi. destruct i; [reflexivity | lia].
    + reflexivity.
    + split; [exact H1 | exact H2].
Defined.

(* ================================================================== *)
(** ** The shape of a run of [handleMC] *)
(* ================================================================== *)

Lemma passes_true E html :
  passes E html = true <->
  recordMissing html = false /\ notAuthorized html = false
  /\ tooNew E html = false /\ tooFewPowerUnits html = false
  /\ tooFewDrivers html = false.
Proof.
  unfold passes. rewrite !andb_true_iff, !negb_true_iff. tauto.
Qed.


(** [handleMC] of [src/extractor.js], stage by stage. *)
Lemma handleMC_E_eq E mc w :
  Extractor.handleMC E mc w =
  match snapshot E mc w with
  | (Throws _, w1) => (Returns Extractor.rejected, w1)
  | (Returns html, w1) =>
      if passes E html then
        match Extractor.extractAllData E (mcToSnapshotUrl mc) html w1 with
        | (Returns row, w2) => (Returns (Extractor.mkResult true (Some row)), w2)
        | (Throws _, w2) => (Returns Extractor.rejected, w2)
        end
      else (Returns Extractor.rejected, w1)
  end.
Proof.
  unfold Extractor.handleMC, snapshot, tryCatch, bind, passes.
  destruct (fetchRetry E (mcToSnapshotUrl mc) MAX_RETRIES FETCH_TIMEOUT_MS
              "snapshot" w) as [[html|e] w1]; [|reflexivity].
  destruct (recordMissing html); [reflexivity|].
  destruct (notAuthorized html); [reflexivity|].
  destruct (tooNew E html); [reflexivity|].
  destruct (tooFewPowerUnits html); [reflexivity|].
  destruct (tooFewDrivers html); [reflexivity|].
  cbn [negb andb].
  destruct (Extractor.extractAllData E (mcToSnapshotUrl mc) html w1)
    as [[row|e] w2]; reflexivity.
Qed.

(** [handleMC] of [src/unnamed/part_000], stage by stage. *)
Lemma handleMC_P_eq E MODE mc w :
  Part000.handleMC E MODE mc w =
  match snapshot E mc w with
  | (Throws _, w1) => (Returns Part000.rejected, w1)
  | (Returns html, w1) =>
      if passes E html then
        if String.eqb MODE "urls"
        then (Returns (Part000.mkResult true (Some (mcToSnapshotUrl mc)) None),
              w1)
        else
          match Part000.extractAllData E (mcToSnapshotUrl mc) html w1 with
          | (Returns row, w2) =>
              (Returns (Part000.mkResult true (Some (mcToSnapshotUrl mc))
                                         (Some row)), w2)
          | (Throws _, w2) => (Returns Part000.rejected, w2)
          end
      else (Returns Part000.rejected, w1)
  end.
Proof.
  unfold Part000.handleMC, snapshot, tryCatch, bind, passes.
  destruct (fetchRetry E (mcToSnapshotUrl mc) MAX_RETRIES FETCH_TIMEOUT_MS
              "snapshot" w) as [[html|e] w1]; [|reflexivity].
  destruct (recordMissing html); [reflexivity|].
  destruct (notAuthorized html); [reflexivity|].
  destruct (tooNew E html); [reflexivity|].
  destruct (tooFewPowerUnits html); [reflexivity|].
  destruct (tooFewDrivers html); [reflexivity|].
  cbn [negb andb].
  destruct (String.eqb MODE "urls"); [reflexivity|].
  destruct (Part000.extractAllData E (mcToSnapshotUrl mc) html w1)
    as [[row|e] w2]; reflexivity.
Qed.

(** Neither [handleMC] ever throws: whatever happens inside, the run comes
    to a result. *)
Lemma handleMC_never_throws E MODE mc w :
  (exists r w', Extractor.handleMC E mc w = (Returns r, w'))
  /\ (exists r w', Part000.handleMC E MODE mc w = (Returns r, w')).
Proof.
  rewrite handleMC_E_eq, handleMC_P_eq.
  destruct (snapshot E mc w) as [[html|e] w1]; [|split; eauto].
  destruct (passes E html); [|split; eauto].
  split.
  - destruct (Extractor.extractAllData E (mcToSnapshotUrl mc) html w1)
      as [[row|e] w2]; eauto.
  - destruct (String.eqb MODE "urls"); [eauto|].
    destruct (Part000.extractAllData E (mcToSnapshotUrl mc) html w1)
      as [[row|e] w2]; eauto.
Qed.

(** A [try] whose handler returns never throws. *)
Lemma tryCatch_returns {A} (m : M A) (a : A) w :
  exists x w', tryCatch m (fun _ => ret a) w = (Returns x, w').
Proof.
  unfold tryCatch, ret. destruct (m w) as [[x|e] w']; eauto.
Qed.

(** In [part_000] the extraction always returns a record. *)
Lemma extractAllData_P_returns E url html w :
  exists row w', Part000.extractAllData E url html w = (Returns row, w').
Proof.
  unfold Part000.extractAllData.
  destruct (groupText 1 (exec true smsLinkRegex html)) as [href|].
  - unfold bind at 1. unfold bind at 1. unfold sleep at 1.
    match goal with
    | |- context [tryCatch ?m (fun _ => ret ?a) ?w0] =>
        destruct (tryCatch_returns m a w0) as (x & w' & ->)
    end.
    unfold ret. eauto.
  - unfold bind, ret. eauto.
Qed.

(** In [extractor.js] it does so when the page has no cross-reference
    link, or has one that [new URL] accepts. *)
Lemma extractAllData_E_returns E url html w :
  match groupText 1 (exec true smsLinkRegex html) with
  | Some href => URL_href E href url <> None
  | None => True
  end ->
  exists row w', Extractor.extractAllData E url html w = (Returns row, w').
Proof.
  unfold Extractor.extractAllData.
  destruct (groupText 1 (exec true smsLinkRegex html)) as [href|].
  - intro H. unfold Extractor.newURL at 1.
    destruct (URL_href E href url) as [u|]; [|congruence].
    unfold bind at 1. unfold bind at 1. unfold ret at 1.
    unfold bind at 1. unfold sleep at 1.
    match goal with
    | |- context [tryCatch ?m (fun _ => ret ?a) ?w0] =>
        destruct (tryCatch_returns m a w0) as (x & w' & ->)
    end.
    unfold ret. eauto.
  - intros _. unfold bind, ret. eauto.
Qed.

(** And throws when [new URL] refuses the link. *)
Lemma extractAllData_E_throws E url html w href :
  groupText 1 (exec true smsLinkRegex html) = Some href ->
  URL_href E href url = None ->
  Extractor.extractAllData E url html w = (Throws (Error "Invalid URL"), w).
Proof.
  intros Hl Hu. unfold Extractor.extractAllData. rewrite Hl.
  unfold Extractor.newURL. rewrite Hu. reflexivity.
Qed.

(* ================================================================== *)
(** ** Who gets a record *)
(* ================================================================== *)

(** The sample page, run through both files. *)
Example sample_run :
  option_map Extractor.entries
    (recordE (fst (Extractor.handleMC (Sample.env Sample.good) "123456"
                     start)))
  = Some [("MC_Number", "123456"); ("USDOT_Number", "1234567");
          ("Legal_Name", "ACME FREIGHT & SONS"); ("City", "SPRINGFIELD");
          ("State", "IL"); ("Status", "Active");
          ("Authority_Type", "Property"); ("Power_Units", "5");
          ("Drivers", "3");
          ("Cargo_Carried", "General Freight, Household Goods");
          ("Phone", "(555) 010-0000");
          ("Email", "dispatch@acme-freight.example.com");
          ("Operation_Type", "Interstate"); ("Entity_Type", "CARRIER");
          ("Script_Output", EmptyString)]
  /\ option_map Part000.entries
       (recordP (fst (Part000.handleMC (Sample.env Sample.good) "both"
                        "123456" start)))
     = Some [("entityType", "CARRIER");
             ("legalName", "ACME FREIGHT & SONS");
             ("dbaName", EmptyString); ("mcNumber", "MC-123456");
             ("phone", "(555) 010-0000");
             ("email", "dispatch@acme-freight.example.com");
             ("physicalAddress", "12 MAIN ST, SPRINGFIELD, IL 62704");
             ("mailingAddress", EmptyString); ("city", "SPRINGFIELD");
             ("state", "IL"); ("zip", "62704");
             ("operationType", EmptyString);
             ("url", mcToSnapshotUrl "123456")].
Proof. split; vm_compute; reflexivity. Qed.




(* ================================================================== *)
(** ** The minimum-age test *)
(* ================================================================== *)

Lemma ceilDiv_lt (a b n : Z) :
  (0 < b)%Z -> ((ceilDiv a b <? n)%Z = true <-> (a <= (n - 1) * b)%Z).
Proof.
  intro Hb. unfold ceilDiv. rewrite Z.ltb_lt.
  pose proof (Z.div_mod (- a) b ltac:(lia)) as Hdm.
  pose proof (Z.mod_pos_bound (- a) b Hb) as Hm.
  split; intro H; nia.
Qed.

Section AgeFacts.
Variable E : Env.
Variable html : string.
Let dateStr := extractDataByHeader html "MCS-150 Form Date:".

(** A page without the date is rejected. *)
Lemma tooNew_missing : dateStr = EmptyString -> tooNew E html = true.
Proof. unfold tooNew. fold dateStr. intros ->. reflexivity. Qed.

(** With a date that parses, the test lets through exactly the dates more
    than 179 days away from now, that is, those whose distance rounded up
    to whole days is at least [MIN_AGE_DAYS]. *)
Lemma tooNew_parsed (t : Z) :
  JS.truthy dateStr = true ->
  Date_parse E dateStr = Some t ->
  (tooNew E html = false
   <-> (MIN_AGE_DAYS <= ceilDiv (Z.abs (Date_now E - t)) msPerDay)%Z)
  /\ (tooNew E html = false
      <-> ((MIN_AGE_DAYS - 1) * msPerDay < Z.abs (Date_now E - t))%Z).
Proof.
  intros Ht Hp. unfold tooNew. fold dateStr. rewrite Ht.
  unfold diffDays. rewrite Hp. cbn [option_map ltNaN].
  pose proof (ceilDiv_lt (Z.abs (Date_now E - t)) msPerDay MIN_AGE_DAYS
                ltac:(reflexivity)) as H.
  destruct (ceilDiv (Z.abs (Date_now E - t)) msPerDay <? MIN_AGE_DAYS)%Z eqn:Hc.
  - pose proof (proj1 (Z.ltb_lt _ _) Hc). pose proof (proj1 H eq_refl).
    split; split; intro; try discriminate; lia.
  - pose proof (proj1 (Z.ltb_ge _ _) Hc).
    split; split; intro; try reflexivity; try assumption.
    destruct (Z_le_gt_dec (Z.abs (Date_now E - t))
                          ((MIN_AGE_DAYS - 1) * msPerDay)) as [Hle|Hgt];
      [|lia].
    apply H in Hle. discriminate.
Qed.

(** At 180 days to the millisecond the page gets through, at 179 it does
    not. *)
Lemma tooNew_boundary (t : Z) :
  JS.truthy dateStr = true ->
  Date_parse E dateStr = Some t ->
  (Z.abs (Date_now E - t) = (MIN_AGE_DAYS * msPerDay)%Z ->
   tooNew E html = false)
  /\ (Z.abs (Date_now E - t) = ((MIN_AGE_DAYS - 1) * msPerDay)%Z ->
      tooNew E html = true).
Proof.
  intros Ht Hp. destruct (tooNew_parsed t Ht Hp) as [_ H]. split; intro Ha.
  - apply H. rewrite Ha. unfold MIN_AGE_DAYS, msPerDay. lia.
  - destruct (tooNew E html) eqn:Hn; [reflexivity|].
    pose proof (proj1 H eq_refl) as Hlt. rewrite Ha in Hlt. lia.
Qed.

(** A date that is there but does not parse also gets through: its
    distance in days is [NaN], and [NaN < MIN_AGE_DAYS] is false. *)
Lemma tooNew_unparsed :
  JS.truthy dateStr = true ->
  Date_parse E dateStr = None ->
  tooNew E html = false.
Proof.
  intros Ht Hp. unfold tooNew. fold dateStr. rewrite Ht.
  unfold diffDays. rewrite Hp. reflexivity.
Qed.
End AgeFacts.

(** C2, at the failing input.  The page of a carrier that never filed the
    form shows [None] for its date; the text does not parse as a date,
    and the carrier is accepted by both files, record and all. *)
Theorem never_filed_is_accepted :
  extractDataByHeader Pages.neverFiled "MCS-150 Form Date:" = "None"
  /\ Date_parse (Sample.env Pages.neverFiled) "None" = None
  /\ tooNew (Sample.env Pages.neverFiled) Pages.neverFiled = false
  /\ belowOne "5" = false /\ belowOne "3" = false
  /\ acceptedE (fst (Extractor.handleMC (Sample.env Pages.neverFiled)
                       "123456" start)) = true
  /\ recordE (fst (Extractor.handleMC (Sample.env Pages.neverFiled)
                     "123456" start)) <> None
  /\ acceptedP (fst (Part000.handleMC (Sample.env Pages.neverFiled) "both"
                       "123456" start)) = true
  /\ recordP (fst (Part000.handleMC (Sample.env Pages.neverFiled) "both"
                     "123456" start)) <> None.
Proof.
  split; [vm_compute; reflexivity|].
  split; [vm_compute; reflexivity|].
  split; [vm_compute; reflexivity|].
  split; [vm_compute; reflexivity|].
  split; [vm_compute; reflexivity|].
  split; [vm_compute; reflexivity|].
  split; [vm_compute; discriminate|].
  split; [vm_compute; reflexivity|].
  vm_compute; discriminate.
Qed.

(* ================================================================== *)
(** ** The search for an email *)
(* ================================================================== *)

(** In [part_000] nothing that happens behind the snapshot page changes
    a field of the record other than the email: the records built from
    one page in two worlds agree once their emails are blanked. *)
Lemma extractAllData_P_email_only E1 E2 url html w1 w2 :
  exists r1 r2 w1' w2',
    Part000.extractAllData E1 url html w1 = (Returns r1, w1')
    /\ Part000.extractAllData E2 url html w2 = (Returns r2, w2')
    /\ clearEmailP r1 = clearEmailP r2.
Proof.
  unfold Part000.extractAllData.
  destruct (groupText 1 (exec true smsLinkRegex html)) as [href|].
  - unfold bind at 1. unfold bind at 1. unfold sleep at 1.
    match goal with
    | |- context [tryCatch ?m (fun _ => ret ?a) ?w0] =>
        destruct (tryCatch_returns m a w0) as (x & w1' & ->)
    end.
    unfold bind at 1. unfold bind at 1. unfold sleep at 1.
    match goal with
    | |- context [tryCatch ?m (fun _ => ret ?a) ?w0] =>
        destruct (tryCatch_returns m a w0) as (y & w2' & ->)
    end.
    unfold ret. do 4 eexists. repeat split.
  - unfold bind, ret. do 4 eexists. repeat split.
Qed.

(** The same holds in [extractor.js] between two worlds in which
    [new URL] accepts the cross-reference link of the page. *)
Lemma extractAllData_E_email_only E1 E2 url html w1 w2 :
  match groupText 1 (exec true smsLinkRegex html) with
  | Some href => URL_href E1 href url <> None /\ URL_href E2 href url <> None
  | None => True
  end ->
  exists r1 r2 w1' w2',
    Extractor.extractAllData E1 url html w1 = (Returns r1, w1')
    /\ Extractor.extractAllData E2 url html w2 = (Returns r2, w2')
    /\ clearEmailE r1 = clearEmailE r2.
Proof.
  unfold Extractor.extractAllData.
  destruct (groupText 1 (exec true smsLinkRegex html)) as [href|].
  - intros [H1 H2]. unfold Extractor.newURL at 1.
    destruct (URL_href E1 href url) as [u1|]; [|congruence].
    unfold bind at 1. unfold bind at 1. unfold ret at 1.
    unfold bind at 1. unfold sleep at 1.
    match goal with
    | |- context [tryCatch ?m (fun _ => ret ?a) ?w0] =>
        destruct (tryCatch_returns m a w0) as (x & w1' & ->)
    end.
    unfold Extractor.newURL at 1.
    destruct (URL_href E2 href url) as [u2|]; [|congruence].
    unfold bind at 1. unfold bind at 1. unfold ret at 2.
    unfold bind at 1. unfold sleep at 1.
    match goal with
    | |- context [tryCatch ?m (fun _ => ret ?a) ?w0] =>
        destruct (tryCatch_returns m a w0) as (y & w2' & ->)
    end.
    unfold ret. do 4 eexists. repeat split.
  - intros _. unfold bind, ret. do 4 eexists. repeat split.
Qed.

(** A network that fails behind the snapshot page leaves the record of
    either file in place, with an empty email. *)
Example failed_hops_keep_the_record :
  option_map Extractor.Email
    (recordE (fst (Extractor.handleMC (Sample.envSnapshotOnly Sample.good)
                     "123456" start))) = Some EmptyString
  /\ option_map Part000.email
       (recordP (fst (Part000.handleMC (Sample.envSnapshotOnly Sample.good)
                        "both" "123456" start))) = Some EmptyString
  /\ trace (snd (Extractor.handleMC (Sample.envSnapshotOnly Sample.good)
                   "123456" start))
     = [Fetched (mcToSnapshotUrl "123456"); Slept 300;
        Fetched "https://safer.fmcsa.dot.gov/SMS/Carrier/1234567/";
        Slept 2000;
        Fetched "https://safer.fmcsa.dot.gov/SMS/Carrier/1234567/";
        Slept 4000;
        Fetched "https://safer.fmcsa.dot.gov/SMS/Carrier/1234567/";
        Slept 8000].
Proof.
  split; [vm_compute; reflexivity|].
  split; [vm_compute; reflexivity|].
  vm_compute; reflexivity.
Qed.

(** In [part_000] a page that passes the tests is accepted, whatever the
    network and the resolver do afterwards. *)
Lemma handleMC_P_accepts E MODE mc w html w1 :
  snapshot E mc w = (Returns html, w1) ->
  passes E html = true ->
  acceptedP (fst (Part000.handleMC E MODE mc w)) = true.
Proof.
  intros Hs Hp. rewrite handleMC_P_eq, Hs, Hp.
  destruct (String.eqb MODE "urls"); [reflexivity|].
  destruct (extractAllData_P_returns E (mcToSnapshotUrl mc) html w1)
    as (row & w2 & ->).
  reflexivity.
Qed.

(** In [extractor.js] it is accepted when the page has no cross-reference
    link or [new URL] accepts the link. *)
Lemma handleMC_E_accepts E mc w html w1 :
  snapshot E mc w = (Returns html, w1) ->
  passes E html = true ->
  match groupText 1 (exec true smsLinkRegex html) with
  | Some href => URL_href E href (mcToSnapshotUrl mc) <> None
  | None => True
  end ->
  acceptedE (fst (Extractor.handleMC E mc w)) = true.
Proof.
  intros Hs Hp Hl. rewrite handleMC_E_eq, Hs, Hp.
  destruct (extractAllData_E_returns E (mcToSnapshotUrl mc) html w1 Hl)
    as (row & w2 & ->).
  reflexivity.
Qed.

(** C4, at the failing input.  The page passes the five tests and carries
    a cross-reference link that [new URL] refuses.  In [extractor.js] the
    refusal is thrown outside the [try] of the deep fetch and the carrier
    ends up rejected, with no record; in [part_000] the same page is
    accepted with an empty email. *)
Theorem unresolvable_link_rejects_record :
  passes (Sample.env Pages.badLink) Pages.badLink = true
  /\ groupText 1 (exec true smsLinkRegex Pages.badLink)
     = Some "http://ai.fmcsa.dot.gov:99999/SMS/Carrier/1234567/"
  /\ URL_href (Sample.env Pages.badLink)
       "http://ai.fmcsa.dot.gov:99999/SMS/Carrier/1234567/"
       (mcToSnapshotUrl "123456") = None
  /\ fst (Extractor.handleMC (Sample.env Pages.badLink) "123456" start)
     = Returns Extractor.rejected
  /\ acceptedP (fst (Part000.handleMC (Sample.env Pages.badLink) "both"
                       "123456" start)) = true
  /\ option_map Part000.email
       (recordP (fst (Part000.handleMC (Sample.env Pages.badLink) "both"
                        "123456" start))) = Some EmptyString.
Proof.
  split; [vm_compute; reflexivity|].
  split; [vm_compute; reflexivity|].
  split; [vm_compute; reflexivity|].
  split; [vm_compute; reflexivity|].
  split; [vm_compute; reflexivity|].
  vm_compute; reflexivity.
Qed.

(* ================================================================== *)
(** ** The two files side by side *)
(* ================================================================== *)

(** The verdicts of the two files agree, in every mode, on a page without
    a cross-reference link and on one whose link [new URL] accepts. *)
Lemma verdicts_agree_when_link_resolves E MODE mc w :
  (forall html w1,
      snapshot E mc w = (Returns html, w1) ->
      match groupText 1 (exec true smsLinkRegex html) with
      | Some href => URL_href E href (mcToSnapshotUrl mc) <> None
      | None => True
      end) ->
  acceptedE (fst (Extractor.handleMC E mc w))
  = acceptedP (fst (Part000.handleMC E MODE mc w)).
Proof.
  intro Hl. rewrite handleMC_E_eq, handleMC_P_eq.
  destruct (snapshot E mc w) as [[html|e] w1] eqn:Hs; [|reflexivity].
  destruct (passes E html); [|reflexivity].
  destruct (extractAllData_E_returns E (mcToSnapshotUrl mc) html w1
              (Hl html w1 eq_refl)) as (row & w2 & ->).
  destruct (String.eqb MODE "urls"); [reflexivity|].
  destruct (extractAllData_P_returns E (mcToSnapshotUrl mc) html w1)
    as (row' & w2' & ->).
  reflexivity.
Qed.

(** C10, where it fails.  On a page that passes the five tests and whose
    cross-reference link [new URL] refuses, [extractor.js] rejects the
    carrier and [part_000] accepts it. *)
Theorem verdicts_differ_on_unresolvable_link
        (E : Env) (MODE mc : string) (w w1 : world) (html href : string) :
  snapshot E mc w = (Returns html, w1) ->
  passes E html = true ->
  groupText 1 (exec true smsLinkRegex html) = Some href ->
  URL_href E href (mcToSnapshotUrl mc) = None ->
  acceptedE (fst (Extractor.handleMC E mc w)) = false
  /\ acceptedP (fst (Part000.handleMC E MODE mc w)) = true.
Proof.
  intros Hs Hp Hl Hu. split.
  - rewrite handleMC_E_eq, Hs, Hp.
    rewrite (extractAllData_E_throws E _ html w1 href Hl Hu). reflexivity.
  - exact (handleMC_P_accepts E MODE mc w html w1 Hs Hp).
Qed.

Lemma verdicts_differ_on_unresolvable_link_witness :
  acceptedE (fst (Extractor.handleMC (Sample.env Pages.badLink) "123456"
                    start)) = false
  /\ acceptedP (fst (Part000.handleMC (Sample.env Pages.badLink) "both"
                       "123456" start)) = true.
Proof.
  eapply (verdicts_differ_on_unresolvable_link
            (Sample.env Pages.badLink) "both" "123456" start
            (mkWorld 1 [Fetched (mcToSnapshotUrl "123456")])
            Pages.badLink
            "http://ai.fmcsa.dot.gov:99999/SMS/Carrier/1234567/").
  - vm_compute. reflexivity.
  - vm_compute. reflexivity.
  - vm_compute. reflexivity.
  - vm_compute. reflexivity.
Defined.

(* ================================================================== *)
(** ** The fleet-size and driver-count tests *)
(* ================================================================== *)

Lemma belowOne_spec (text : string) :
  belowOne text = false <-> atLeastOne (Num.Number (stripCommas text)).
Proof.
  unfold belowOne, atLeastOne.
  destruct (Num.Number (stripCommas text)) as [|negative|q]; cbn.
  - split; [discriminate | tauto].
  - tauto.
  - rewrite negb_false_iff. apply Qle_bool_iff.
Qed.

Lemma belowOne_small (text : string) (q : Q) :
  Num.Number (stripCommas text) = Num.Fin q -> (q < 1)%Q ->
  belowOne text = true.
Proof.
  intros Hn Hq. destruct (belowOne text) eqn:Hb; [reflexivity|].
  apply belowOne_spec in Hb. rewrite Hn in Hb. cbn in Hb.
  exfalso. exact (Qlt_not_le _ _ Hq Hb).
Qed.

Lemma belowOne_NaN (text : string) :
  Num.Number (stripCommas text) = Num.NaN -> belowOne text = true.
Proof. intro Hn. unfold belowOne. rewrite Hn. reflexivity. Qed.

Lemma digit_not_space c : JS.isDigit c = true -> JS.isSpace c = false.
Proof.
  unfold JS.isDigit, JS.isSpace, JS.between.
  rewrite !andb_true_iff, !Nat.leb_le. intros [H1 H2].
  rewrite !orb_false_iff. repeat split.
  - apply andb_false_iff. right. apply Nat.leb_gt. lia.
  - apply Nat.eqb_neq. lia.
  - apply Nat.eqb_neq. lia.
Qed.

Lemma digit_code c : JS.isDigit c = true -> (48 <= JS.code c <= 57)%nat.
Proof.
  unfold JS.isDigit, JS.between. rewrite andb_true_iff, !Nat.leb_le. tauto.
Qed.

Lemma digit_neq c d :
  JS.isDigit c = true -> (JS.code d < 48 \/ 57 < JS.code d)%nat ->
  Ascii.eqb c d = false.
Proof.
  intros Hc Hd. destruct (Ascii.eqb c d) eqn:He; [|reflexivity].
  apply Ascii.eqb_eq in He. subst. apply digit_code in Hc. lia.
Qed.

Lemma span_all p s :
  forall acc, allOf p s = true ->
              Num.spanWhile p acc s = (JS.rev acc ++ s, EmptyString).
Proof.
  induction s as [|c s IH]; intros acc H; cbn in *.
  - rewrite append_nil_r. reflexivity.
  - apply andb_true_iff in H as [Hc Hs]. rewrite Hc, IH by assumption.
    unfold JS.rev. cbn [JS.rev_onto]. rewrite rev_onto_append.
    fold (JS.rev acc). rewrite append_assoc. reflexivity.
Qed.

Lemma allOf_append p a b : allOf p (a ++ b) = allOf p a && allOf p b.
Proof.
  induction a as [|c a IH]; cbn; [reflexivity|].
  rewrite IH, andb_assoc. reflexivity.
Qed.

Lemma allOf_rev p s : allOf p (JS.rev s) = allOf p s.
Proof.
  induction s as [|c s IH]; [reflexivity|].
  unfold JS.rev. cbn [JS.rev_onto]. rewrite rev_onto_append.
  rewrite allOf_append, IH. cbn. rewrite andb_true_r, andb_comm. reflexivity.
Qed.

Lemma trimStart_digits s :
  allOf JS.isDigit s = true -> JS.trimStart s = s.
Proof.
  destruct s as [|c s]; [reflexivity|]. cbn.
  intro H. apply andb_true_iff in H as [Hc _].
  rewrite (digit_not_space c Hc). reflexivity.
Qed.

Lemma trim_digits s : allOf JS.isDigit s = true -> JS.trim s = s.
Proof.
  intro H. unfold JS.trim, JS.trimEnd.
  rewrite (trimStart_digits s H).
  rewrite trimStart_digits by (rewrite allOf_rev; exact H).
  apply rev_involutive.
Qed.

Lemma digitsVal_decimal s :
  forall acc, allOf JS.isDigit s = true ->
              Num.digitsVal 10 acc s = decimalValue acc s.
Proof.
  induction s as [|c s IH]; intros acc H; [reflexivity|].
  cbn in H. apply andb_true_iff in H as [Hc Hs].
  cbn [Num.digitsVal decimalValue].
  rewrite (Ascii.eqb_sym "," c), (digit_neq c "," Hc) by (cbn; lia).
  unfold Num.digitVal. rewrite Hc. apply IH, Hs.
Qed.

Lemma unsignedDecimal_digits c s :
  allOf JS.isDigit (String c s) = true ->
  Num.unsignedDecimal (String c s)
  = Num.ofDecimal (decimalValue 0 (String c s)) 0
                  (String.length (String c s)).
Proof.
  intro H. unfold Num.unsignedDecimal.
  assert (Hc : JS.isDigit c = true)
    by (cbn in H; apply andb_true_iff in H; tauto).
  assert (Hi : String.eqb (String c s) "Infinity" = false).
  { cbn [String.eqb]. rewrite (digit_neq c "I" Hc) by (cbn; lia).
    reflexivity. }
  rewrite Hi. unfold Num.span. rewrite (span_all _ _ _ H).
  cbn [JS.rev JS.rev_onto append]. cbn [Num.exponent].
  rewrite append_nil_r. cbn [String.length Z.of_nat Z.sub].
  rewrite (digitsVal_decimal _ 0 H). reflexivity.
Qed.

(** [Number] of a run of decimal digits is the binary64 nearest to the
    integer the digits write. *)
Lemma Number_digits c s :
  allOf JS.isDigit (String c s) = true ->
  Num.Number (String c s)
  = Num.ofDecimal (decimalValue 0 (String c s)) 0
                  (String.length (String c s)).
Proof.
  intro H. unfold Num.Number. rewrite (trim_digits _ H).
  rewrite <- (unsignedDecimal_digits c s H).
  assert (Hc : JS.isDigit c = true)
    by (cbn in H; apply andb_true_iff in H; tauto).
  destruct s as [|x s'].
  - destruct c as [[] [] [] [] [] [] [] []]; try discriminate; reflexivity.
  - assert (Hx : JS.isDigit x = true).
    { cbn in H. apply andb_true_iff in H as [_ H].
      apply andb_true_iff in H. tauto. }
    assert (H1 : Ascii.eqb x "x" || Ascii.eqb x "X" = false).
    { rewrite !(digit_neq x) by (try exact Hx; cbn; lia). reflexivity. }
    assert (H2 : Ascii.eqb x "o" || Ascii.eqb x "O" = false).
    { rewrite !(digit_neq x) by (try exact Hx; cbn; lia). reflexivity. }
    assert (H3 : Ascii.eqb x "b" || Ascii.eqb x "B" = false).
    { rewrite !(digit_neq x) by (try exact Hx; cbn; lia). reflexivity. }
    destruct c as [[] [] [] [] [] [] [] []]; try discriminate;
      try reflexivity.
    rewrite H1, H2, H3. reflexivity.
Qed.

Lemma Qle_1_inject (z : Z) : (1 <= inject_Z z)%Q <-> (1 <= z)%Z.
Proof. unfold Qle, inject_Z. cbn. lia. Qed.

(** Rounding to binary64 never takes an integer from 1 upwards below 1. *)
Lemma roundDouble_atLeastOne (n : Z) :
  (1 <= n)%Z -> atLeastOne (Num.roundDouble n 1).
Proof.
  intro Hn. unfold Num.roundDouble.
  pose proof (Z.log2_spec n ltac:(lia)) as [Hlo Hhi].
  pose proof (Z.log2_nonneg n) as Hnn.
  change (Z.log2 1) with 0%Z. rewrite Z.sub_0_r.
  set (e := Z.log2 n) in *.
  assert (He : (0 <=? e)%Z = true) by (apply Z.leb_le; lia).
  rewrite He.
  assert (Hr : (1 * 2 ^ e <=? n)%Z = true) by (apply Z.leb_le; lia).
  rewrite Hr. rewrite (Z.max_l e (-1022)) by lia.
  destruct (0 <=? 52 - e)%Z eqn:Hsh.
  - apply Z.leb_le in Hsh.
    rewrite Z.div_1_r, Z.mod_1_r.
    change (1 <? 2 * 0)%Z with false. change (1 =? 2 * 0)%Z with false.
    cbn [orb andb].
    assert (H1 : (1024 <=? e)%Z = false) by (apply Z.leb_gt; lia).
    assert (H2 : (1023 <=? e)%Z = false) by (apply Z.leb_gt; lia).
    rewrite H1, H2. cbn [orb andb atLeastOne].
    rewrite Qred_correct. unfold Qle. cbn [Qnum Qden].
    assert (Hp : (0 < 2 ^ (52 - e))%Z) by (apply Z.pow_pos_nonneg; lia).
    rewrite Z2Pos.id by exact Hp. nia.
  - apply Z.leb_gt in Hsh.
    set (D := (1 * 2 ^ (- (52 - e)))%Z).
    assert (HD : (0 < D)%Z)
      by (unfold D; rewrite Z.mul_1_l; apply Z.pow_pos_nonneg; lia).
    assert (Hm : (1 <= n / D)%Z).
    { apply Z.div_le_lower_bound; [exact HD|].
      unfold D. rewrite Z.mul_1_l, Z.mul_1_r.
      apply Z.le_trans with (2 ^ e)%Z; [|exact Hlo].
      apply Z.pow_le_mono_r; lia. }
    set (up := ((D <? 2 * (n mod D))%Z
                || (D =? 2 * (n mod D))%Z && Z.odd (n / D))).
    set (m := if up then (n / D + 1)%Z else (n / D)%Z).
    assert (Hm' : (1 <= m)%Z) by (unfold m; destruct up; lia).
    destruct ((1024 <=? e)%Z || (1023 <=? e)%Z && (2 ^ 53 <=? m)%Z);
      [reflexivity|].
    cbn [atLeastOne]. apply Qle_1_inject.
    assert (Hp : (1 <= 2 ^ (- (52 - e)))%Z).
    { change 1%Z with (2 ^ 0)%Z at 1. apply Z.pow_le_mono_r; lia. }
    nia.
Qed.

Lemma decimalValue_nonneg s :
  forall acc, (0 <= acc)%Z -> (0 <= decimalValue acc s)%Z.
Proof.
  induction s as [|c s IH]; intros acc H; cbn [decimalValue]; [exact H|].
  destruct (Ascii.eqb "," c); apply IH; lia.
Qed.

Lemma ofDecimal_atLeastOne (n : Z) (len : nat) :
  (0 <= n)%Z -> (atLeastOne (Num.ofDecimal n 0 len) <-> (1 <= n)%Z).
Proof.
  intro Hn. unfold Num.ofDecimal.
  destruct (n =? 0)%Z eqn:H0.
  - apply Z.eqb_eq in H0. subst. cbn. unfold Qle. cbn. lia.
  - apply Z.eqb_neq in H0.
    change (400 <? 0)%Z with false.
    assert (H1 : (0 <? - (400 + Z.of_nat len))%Z = false)
      by (apply Z.ltb_ge; lia).
    rewrite H1. change (0 <=? 0)%Z with true. cbn iota.
    change (10 ^ 0)%Z with 1%Z. rewrite Z.mul_1_r.
    split; [lia|]. apply roundDouble_atLeastOne.
Qed.

Lemma strip_count (text : string) :
  allOf countChar text = true ->
  allOf JS.isDigit (substitute "," EmptyString text) = true
  /\ (forall acc, decimalValue acc (substitute "," EmptyString text)
                  = decimalValue acc text)
  /\ (anyOf JS.isDigit text = true ->
      substitute "," EmptyString text <> EmptyString).
Proof.
  induction text as [|c s IH]; intro H.
  - repeat split. discriminate.
  - cbn in H. apply andb_true_iff in H as [Hc Hs].
    destruct (IH Hs) as (IH1 & IH2 & IH3).
    cbn [substitute decimalValue anyOf].
    destruct (Ascii.eqb "," c) eqn:Hcomma.
    + cbn [append]. repeat split; [exact IH1 | exact IH2 |].
      apply Ascii.eqb_eq in Hcomma. subst c. cbn. exact IH3.
    + unfold countChar in Hc. rewrite Hcomma, orb_false_r in Hc.
      repeat split.
      * cbn. rewrite Hc, IH1. reflexivity.
      * intro acc. cbn [decimalValue]. rewrite Hcomma. apply IH2.
      * discriminate.
Qed.

(** What [Number] makes of some field values: other literals than plain
    integers are numbers too, and a decimal within half a unit in the
    last place of 1 is 1. *)
Example belowOne_examples :
  belowOne "1,234" = false /\ belowOne "1.5" = false
  /\ belowOne "0x10" = false /\ belowOne " 7 " = false
  /\ belowOne "0.99999999999999999" = false
  /\ belowOne "0.9999999999999999" = true /\ belowOne "-3" = true
  /\ belowOne "12 trucks" = true /\ belowOne "N/A" = true
  /\ belowOne "0" = true /\ belowOne EmptyString = true.
Proof. vm_compute. repeat split. Qed.

(** A count in digits and commas gets through exactly when it is at
    least 1. *)
Lemma belowOne_count (text : string) :
  allOf countChar text = true ->
  anyOf JS.isDigit text = true ->
  (belowOne text = false <-> (1 <= decimalValue 0 text)%Z).
Proof.
  intros Hall Hany. rewrite belowOne_spec.
  unfold stripCommas. rewrite (replaceAll_char ",").
  destruct (strip_count text Hall) as (H1 & H2 & H3).
  specialize (H3 Hany).
  destruct (substitute "," EmptyString text) as [|c s] eqn:Hs; [congruence|].
  rewrite (Number_digits c s H1), H2.
  apply ofDecimal_atLeastOne. apply decimalValue_nonneg. lia.
Qed.

Lemma trimStart_append_nonspace a x b :
  JS.isSpace x = false ->
  JS.trimStart (a ++ String x b) = JS.trimStart a ++ String x b.
Proof.
  intro Hx. induction a as [|y a IH]; cbn [append JS.trimStart].
  - rewrite Hx. reflexivity.
  - destruct (JS.isSpace y); [exact IH | reflexivity].
Qed.

Lemma rev_cons x s : JS.rev (String x s) = JS.rev s ++ String x EmptyString.
Proof. unfold JS.rev. cbn [JS.rev_onto]. apply rev_onto_append. Qed.

(** Trimming the end of a text that begins with a character other than
    white space leaves that beginning in place. *)
Lemma trimEnd_head x s :
  JS.isSpace x = false ->
  exists t, JS.trimEnd (String x s) = String x t.
Proof.
  intro Hx. unfold JS.trimEnd.
  rewrite rev_cons, (trimStart_append_nonspace _ x EmptyString Hx).
  rewrite rev_append. cbn. eauto.
Qed.

(** A text without white space is its own trimming. *)
Lemma trim_nospace s :
  allOf (fun c => negb (JS.isSpace c)) s = true -> JS.trim s = s.
Proof.
  intro H.
  assert (Hs : forall u, allOf (fun c => negb (JS.isSpace c)) u = true ->
                         JS.trimStart u = u).
  { intros [|x u] Hu; [reflexivity|]. cbn in *.
    apply andb_true_iff in Hu as [Hx _]. apply negb_true_iff in Hx.
    rewrite Hx. reflexivity. }
  unfold JS.trim, JS.trimEnd. rewrite (Hs s H).
  rewrite Hs by (rewrite allOf_rev; exact H). apply rev_involutive.
Qed.

Lemma allOf_weaken (p q : ascii -> bool) s :
  (forall c, p c = true -> q c = true) ->
  allOf p s = true -> allOf q s = true.
Proof.
  intro Hpq. induction s as [|x s IH]; [reflexivity|]. cbn.
  rewrite !andb_true_iff. intros [Hx Hs]. split; [apply Hpq, Hx | apply IH, Hs].
Qed.

(** The negative of a number that is at least 1, or of zero, is below
    1. *)
Lemma neg_below_one (x : Num.number) :
  atLeastOne x \/ x = Num.Fin 0 ->
  Num.isNaN (Num.neg x) || Num.lt (Num.neg x) 1 = true.
Proof.
  intros [H | ->]; [|reflexivity].
  destruct x as [|negative|q]; cbn in *.
  - destruct H.
  - subst negative. reflexivity.
  - destruct (Qle_bool 1 (- q)) eqn:Hq; [|reflexivity].
    apply Qle_bool_iff in Hq. exfalso.
    destruct q as [a b]. unfold Qle in *. cbn in *. lia.
Qed.

(** A minus sign before a count in digits and commas: the field is a
    negative number or minus zero, and the test rejects it. *)
Lemma belowOne_negative (count : string) :
  allOf countChar count = true ->
  anyOf JS.isDigit count = true ->
  belowOne ("-" ++ count) = true.
Proof.
  intros Hall Hany. unfold belowOne, stripCommas. cbv zeta.
  rewrite (replaceAll_char ","). cbn [append substitute].
  change (Ascii.eqb "," "-") with false. cbn iota.
  destruct (strip_count count Hall) as (H1 & _ & H3).
  specialize (H3 Hany).
  destruct (substitute "," EmptyString count) as [|c s] eqn:Hs; [congruence|].
  assert (Ht : JS.trim (String "-" (String c s)) = String "-" (String c s)).
  { apply trim_nospace.
    change (String "-" (String c s)) with ("-" ++ String c s).
    rewrite allOf_append. apply andb_true_iff. split; [reflexivity|].
    apply (allOf_weaken JS.isDigit); [|exact H1].
    intros d Hd. rewrite (digit_not_space d Hd). reflexivity. }
  unfold Num.Number. rewrite Ht.
  rewrite (unsignedDecimal_digits c s H1).
  apply neg_below_one.
  pose proof (decimalValue_nonneg (String c s) 0 ltac:(lia)) as Hn.
  destruct (Z.eq_dec (decimalValue 0 (String c s)) 0) as [-> | Hne].
  - right. reflexivity.
  - left. apply ofDecimal_atLeastOne; lia.
Qed.

Lemma alpha_not_space c : JS.isAlpha c = true -> JS.isSpace c = false.
Proof.
  destruct c as [[] [] [] [] [] [] [] []]; vm_compute; congruence.
Qed.

(** A text that begins with a letter, other than the [I] of [Infinity],
    is no number. *)
Lemma Number_letter (c : ascii) (rest : string) :
  JS.isAlpha c = true -> c <> "I"%char ->
  Num.Number (String c rest) = Num.NaN.
Proof.
  intros Hc HI. unfold Num.Number, JS.trim. cbn [JS.trimStart].
  rewrite (alpha_not_space c Hc).
  destruct (trimEnd_head c rest (alpha_not_space c Hc)) as [t ->].
  destruct c as [[] [] [] [] [] [] [] []];
    try discriminate Hc; try (exfalso; apply HI; reflexivity); reflexivity.
Qed.

Lemma belowOne_letter (c : ascii) (rest : string) :
  JS.isAlpha c = true -> c <> "I"%char ->
  belowOne (String c rest) = true.
Proof.
  intros Hc HI. apply belowOne_NaN. unfold stripCommas.
  rewrite (replaceAll_char ","). cbn [substitute].
  assert (Hcomma : Ascii.eqb "," c = false).
  { destruct (Ascii.eqb_spec "," c) as [<- | _]; [discriminate Hc|].
    reflexivity. }
  rewrite Hcomma. apply Number_letter; assumption.
Qed.

(** C5.  Each of the two tests lets through exactly the field values
    that, commas removed, [Number] reads as a number that is at least 1;
    for a count written in digits and commas, that is exactly when the
    count is at least 1.  The value [1] gets through; [0], the empty
    field, a negative number and a text that is not a number do not: a
    count with a minus sign before it is rejected whatever the count,
    and so is every text that begins with a letter other than the [I]
    of [Infinity]. *)
Theorem minimum_of_one (html : string) :
  let units := extractDataByHeader html "Power Units:" in
  let drivers := extractDataByHeader html "Drivers:" in
  (tooFewPowerUnits html = false
   <-> atLeastOne (Num.Number (stripCommas units)))
  /\ (tooFewDrivers html = false
      <-> atLeastOne (Num.Number (stripCommas drivers)))
  /\ (units = "1" -> tooFewPowerUnits html = false)
  /\ (drivers = "1" -> tooFewDrivers html = false)
  /\ (units = "0" \/ units = EmptyString
      \/ Num.Number (stripCommas units) = Num.NaN
      \/ (exists q, Num.Number (stripCommas units) = Num.Fin q /\ (q < 1)%Q) ->
      tooFewPowerUnits html = true)
  /\ (drivers = "0" \/ drivers = EmptyString
      \/ Num.Number (stripCommas drivers) = Num.NaN
      \/ (exists q, Num.Number (stripCommas drivers) = Num.Fin q /\ (q < 1)%Q) ->
      tooFewDrivers html = true)
  /\ (allOf countChar units = true -> anyOf JS.isDigit units = true ->
      (tooFewPowerUnits html = false <-> (1 <= decimalValue 0 units)%Z))
  /\ (allOf countChar drivers = true -> anyOf JS.isDigit drivers = true ->
      (tooFewDrivers html = false <-> (1 <= decimalValue 0 drivers)%Z))
  /\ (forall count,
         allOf countChar count = true -> anyOf JS.isDigit count = true ->
         (units = "-" ++ count -> tooFewPowerUnits html = true)
         /\ (drivers = "-" ++ count -> tooFewDrivers html = true))
  /\ (forall c rest,
         JS.isAlpha c = true -> c <> "I"%char ->
         (units = String c rest -> tooFewPowerUnits html = true)
         /\ (drivers = String c rest -> tooFewDrivers html = true)).
Proof.
  intros units drivers. unfold tooFewPowerUnits, tooFewDrivers.
  fold units. fold drivers.
  split; [apply belowOne_spec|].
  split; [apply belowOne_spec|].
  split; [intros ->; vm_compute; reflexivity|].
  split; [intros ->; vm_compute; reflexivity|].
  split.
  { intros [-> | [-> | [H | (q & H & Hq)]]];
      [vm_compute; reflexivity | vm_compute; reflexivity
       | apply belowOne_NaN, H | apply (belowOne_small _ q H Hq)]. }
  split.
  { intros [-> | [-> | [H | (q & H & Hq)]]];
      [vm_compute; reflexivity | vm_compute; reflexivity
       | apply belowOne_NaN, H | apply (belowOne_small _ q H Hq)]. }
  split; [apply belowOne_count|].
  split; [apply belowOne_count|].
  split.
  - intros count Hall Hany.
    split; intros ->; apply belowOne_negative; assumption.
  - intros c rest Hc HI.
    split; intros ->; apply belowOne_letter; assumption.
Qed.

Lemma minimum_of_one_witness :
  tooFewPowerUnits (Sample.page "AUTHORIZED" "01/15/2020" "1" "0" EmptyString)
  = false
  /\ tooFewDrivers (Sample.page "AUTHORIZED" "01/15/2020" "0" "1" EmptyString)
     = false
  /\ tooFewPowerUnits (Sample.page "AUTHORIZED" "01/15/2020" "0" "1" EmptyString)
     = true
  /\ tooFewDrivers (Sample.page "AUTHORIZED" "01/15/2020" "1" "0" EmptyString)
     = true
  /\ (tooFewPowerUnits
        (Sample.page "AUTHORIZED" "01/15/2020" "1,250" "0,0" EmptyString)
      = false <-> (1 <= 1250)%Z)
  /\ (tooFewDrivers
        (Sample.page "AUTHORIZED" "01/15/2020" "1,250" "0,0" EmptyString)
      = false <-> (1 <= 0)%Z)
  /\ tooFewPowerUnits
       (Sample.page "AUTHORIZED" "01/15/2020" "-5" "N/A" EmptyString) = true
  /\ tooFewDrivers
       (Sample.page "AUTHORIZED" "01/15/2020" "-5" "N/A" EmptyString) = true
  /\ tooFewPowerUnits
       (Sample.page "AUTHORIZED" "01/15/2020" "12 trucks" "-1,250"
                    EmptyString) = true
  /\ tooFewDrivers
       (Sample.page "AUTHORIZED" "01/15/2020" "12 trucks" "-1,250"
                    EmptyString) = true
  /\ tooFewPowerUnits
       (Sample.page "AUTHORIZED" "01/15/2020" "0.5" "-0" EmptyString) = true
  /\ tooFewDrivers
       (Sample.page "AUTHORIZED" "01/15/2020" "0.5" "-0" EmptyString) = true.
Proof.
  split; [|split; [|split; [|split; [|split; [|split; [|split; [|split;
    [|split; [|split; [|split]]]]]]]]]].
  - apply (proj1 (proj2 (proj2 (minimum_of_one
             (Sample.page "AUTHORIZED" "01/15/2020" "1" "0" EmptyString))))).
    vm_compute. reflexivity.
  - apply (proj1 (proj2 (proj2 (proj2 (minimum_of_one
             (Sample.page "AUTHORIZED" "01/15/2020" "0" "1" EmptyString)))))).
    vm_compute. reflexivity.
  - apply (proj1 (proj2 (proj2 (proj2 (proj2 (minimum_of_one
             (Sample.page "AUTHORIZED" "01/15/2020" "0" "1" EmptyString))))))).
    left. vm_compute. reflexivity.
  - apply (proj1 (proj2 (proj2 (proj2 (proj2 (proj2 (minimum_of_one
             (Sample.page "AUTHORIZED" "01/15/2020" "1" "0" EmptyString)))))))).
    left. vm_compute. reflexivity.
  - apply (iff_trans
             (proj1 (proj2 (proj2 (proj2 (proj2 (proj2 (proj2 (minimum_of_one
                (Sample.page "AUTHORIZED" "01/15/2020" "1,250" "0,0"
                             EmptyString))))))))
                ltac:(vm_compute; reflexivity) ltac:(vm_compute; reflexivity))).
    vm_compute. tauto.
  - apply (iff_trans
             (proj1 (proj2 (proj2 (proj2 (proj2 (proj2 (proj2 (proj2
                (minimum_of_one
                   (Sample.page "AUTHORIZED" "01/15/2020" "1,250" "0,0"
                                EmptyString)))))))))
                ltac:(vm_compute; reflexivity) ltac:(vm_compute; reflexivity))).
    vm_compute. tauto.
  - apply (proj1 (proj1 (proj2 (proj2 (proj2 (proj2 (proj2 (proj2 (proj2
             (proj2 (minimum_of_one
                (Sample.page "AUTHORIZED" "01/15/2020" "-5" "N/A"
                             EmptyString)))))))))) "5"
             ltac:(vm_compute; reflexivity) ltac:(vm_compute; reflexivity))).
    vm_compute. reflexivity.
  - apply (proj2 (proj2 (proj2 (proj2 (proj2 (proj2 (proj2 (proj2 (proj2
             (proj2 (minimum_of_one
                (Sample.page "AUTHORIZED" "01/15/2020" "-5" "N/A"
                             EmptyString)))))))))) "N"%char "/A"
             ltac:(vm_compute; reflexivity) ltac:(discriminate))).
    vm_compute. reflexivity.
  - apply (proj1 (proj2 (proj2 (proj2 (proj2 (minimum_of_one
             (Sample.page "AUTHORIZED" "01/15/2020" "12 trucks" "-1,250"
                          EmptyString))))))).
    right. right. left. vm_compute. reflexivity.
  - apply (proj2 (proj1 (proj2 (proj2 (proj2 (proj2 (proj2 (proj2 (proj2
             (proj2 (minimum_of_one
                (Sample.page "AUTHORIZED" "01/15/2020" "12 trucks" "-1,250"
                             EmptyString)))))))))) "1,250"
             ltac:(vm_compute; reflexivity) ltac:(vm_compute; reflexivity))).
    vm_compute. reflexivity.
  - apply (proj1 (proj2 (proj2 (proj2 (proj2 (minimum_of_one
             (Sample.page "AUTHORIZED" "01/15/2020" "0.5" "-0"
                          EmptyString))))))).
    right. right. right. exists (1 # 2)%Q.
    split; [vm_compute; reflexivity | reflexivity].
  - apply (proj2 (proj1 (proj2 (proj2 (proj2 (proj2 (proj2 (proj2 (proj2
             (proj2 (minimum_of_one
                (Sample.page "AUTHORIZED" "01/15/2020" "0.5" "-0"
                             EmptyString)))))))))) "0"
             ltac:(vm_compute; reflexivity) ltac:(vm_compute; reflexivity))).
    vm_compute. reflexivity.
Defined.

(* ================================================================== *)
(** ** URL-collection mode *)
(* ================================================================== *)

(** In [urls] mode a run yields no record. *)
Lemma urls_mode_no_record E mc w :
  recordP (fst (Part000.handleMC E "urls" mc w)) = None.
Proof.
  rewrite handleMC_P_eq.
  destruct (snapshot E mc w) as [[html|e] w1]; [|reflexivity].
  destruct (passes E html); reflexivity.
Qed.

Lemma collect_no_rows (results : list Part000.Result) :
  (forall r, In r results -> Part000.row r = None) ->
  fst (Part000.collect results) = [].
Proof.
  intro H. unfold Part000.collect. cbn [fst].
  induction results as [|r rest IH]; [reflexivity|].
  cbn [flat_map]. rewrite (H r (or_introl eq_refl)).
  rewrite IH; [destruct (Part000.valid r); reflexivity|].
  intros r' Hr'. apply H. right. exact Hr'.
Qed.

(** C8.  In [urls] mode a page that passes the five tests yields the
    snapshot URL and nothing else: no record, and the world is left as
    the snapshot request left it, so nothing was fetched or waited for
    afterwards; results without records produce no CSV file.  In any
    other mode the same page is handed to [extractAllData], whose record
    is returned; so a record is only ever built outside [urls] mode. *)
Theorem urls_mode_skips_extraction (E : Env) (MODE mc : string) (w w1 : world)
        (html : string) :
  snapshot E mc w = (Returns html, w1) ->
  passes E html = true ->
  Part000.handleMC E "urls" mc w
  = (Returns (Part000.mkResult true (Some (mcToSnapshotUrl mc)) None), w1)
  /\ Part000.collect [Part000.mkResult true (Some (mcToSnapshotUrl mc)) None]
     = ([], [mcToSnapshotUrl mc])
  /\ Part000.csvFile [] = None
  /\ Part000.urlFile "urls" [mcToSnapshotUrl mc] = Some (mcToSnapshotUrl mc)
  /\ (MODE <> "urls" ->
      exists row w2,
        Part000.extractAllData E (mcToSnapshotUrl mc) html w1
        = (Returns row, w2)
        /\ Part000.handleMC E MODE mc w
           = (Returns (Part000.mkResult true (Some (mcToSnapshotUrl mc))
                                        (Some row)), w2))
  /\ (recordP (fst (Part000.handleMC E MODE mc w)) <> None ->
      MODE <> "urls").
Proof.
  intros Hs Hp.
  split; [rewrite handleMC_P_eq, Hs, Hp; reflexivity|].
  split; [reflexivity|].
  split; [reflexivity|].
  split; [reflexivity|].
  split.
  - intro Hm. rewrite handleMC_P_eq, Hs, Hp.
    apply String.eqb_neq in Hm. rewrite Hm.
    destruct (extractAllData_P_returns E (mcToSnapshotUrl mc) html w1)
      as (row & w2 & Hx).
    exists row, w2. rewrite Hx. split; reflexivity.
  - intros Hr ->. apply Hr. apply urls_mode_no_record.
Qed.

Lemma urls_mode_skips_extraction_witness :
  Part000.handleMC (Sample.env Sample.good) "urls" "123456" start
  = (Returns (Part000.mkResult true (Some (mcToSnapshotUrl "123456")) None),
     mkWorld 1 [Fetched (mcToSnapshotUrl "123456")])
  /\ (exists row w2,
         Part000.extractAllData (Sample.env Sample.good)
           (mcToSnapshotUrl "123456") Sample.good
           (mkWorld 1 [Fetched (mcToSnapshotUrl "123456")])
         = (Returns row, w2)
         /\ Part000.handleMC (Sample.env Sample.good) "both" "123456" start
            = (Returns (Part000.mkResult true
                          (Some (mcToSnapshotUrl "123456")) (Some row)), w2))
  /\ "both" <> "urls".
Proof.
  destruct (urls_mode_skips_extraction (Sample.env Sample.good) "both"
              "123456" start (mkWorld 1 [Fetched (mcToSnapshotUrl "123456")])
              Sample.good)
    as (Hurls & _ & _ & _ & Hfull & Honly).
  - vm_compute. reflexivity.
  - vm_compute. reflexivity.
  - split; [exact Hurls|]. split.
    + apply Hfull. discriminate.
    + apply Honly. vm_compute. discriminate.
Defined.

(* ================================================================== *)
(** ** Marked rows *)
(* ================================================================== *)

Lemma existsb_eqb_In (x : string) (l : list string) :
  existsb (String.eqb x) l = true <-> In x l.
Proof.
  rewrite existsb_exists. split.
  - intros (y & Hy & He). apply String.eqb_eq in He. subst. exact Hy.
  - intro H. exists x. split; [exact H | apply String.eqb_refl].
Qed.

Lemma setOf_In (items seen : list string) (x : string) :
  In x (JS.setOf seen items) <-> In x items /\ ~ In x seen.
Proof.
  revert seen. induction items as [|y rest IH]; intro seen; cbn [JS.setOf].
  - cbn. tauto.
  - destruct (existsb (String.eqb y) seen) eqn:He.
    + apply existsb_eqb_In in He. rewrite IH. cbn [In].
      split; [tauto|]. intros [[->|H] Hn]; tauto.
    + assert (Hy : ~ In y seen).
      { intro H. apply existsb_eqb_In in H. congruence. }
      cbn [In]. rewrite IH. cbn [In].
      destruct (string_dec y x) as [->|Hne]; [tauto|]. tauto.
Qed.

Lemma setOf_NoDup (items seen : list string) : NoDup (JS.setOf seen items).
Proof.
  revert seen. induction items as [|y rest IH]; intro seen; cbn [JS.setOf].
  - constructor.
  - destruct (existsb (String.eqb y) seen); [apply IH|].
    constructor; [|apply IH].
    rewrite setOf_In. cbn [In]. tauto.
Qed.

Lemma setOf_snoc (items seen : list string) (x : string) :
  JS.setOf seen (items ++ [x])
  = if existsb (String.eqb x) (seen ++ items) then JS.setOf seen items
    else (JS.setOf seen items ++ [x])%list.
Proof.
  revert seen. induction items as [|y rest IH]; intro seen.
  - cbn [app JS.setOf]. rewrite app_nil_r.
    destruct (existsb (String.eqb x) seen); reflexivity.
  - cbn [app JS.setOf].
    assert (Hx : forall l, existsb (String.eqb x) (l ++ y :: rest)
                           = existsb (String.eqb x) ((y :: l) ++ rest)).
    { intro l. rewrite !existsb_app. cbn [existsb].
      destruct (String.eqb x y), (existsb (String.eqb x) l),
        (existsb (String.eqb x) rest); reflexivity. }
    destruct (existsb (String.eqb y) seen) eqn:He.
    + rewrite IH. rewrite !existsb_app. cbn [existsb].
      destruct (String.eqb x y) eqn:Hxy; [|reflexivity].
      apply String.eqb_eq in Hxy. subst y. rewrite He. reflexivity.
    + rewrite IH, Hx.
      destruct (existsb (String.eqb x) ((y :: seen) ++ rest)); reflexivity.
Qed.

(** What a [Set] does to a list of labels: nothing is lost, nothing is
    kept twice, and a label pushed last lands last unless it was seen. *)
Lemma dedupe_first_seen (items : list string) :
  NoDup (JS.dedupe items)
  /\ (forall x, In x (JS.dedupe items) <-> In x items)
  /\ (forall x, JS.dedupe (items ++ [x])
                = if existsb (String.eqb x) items then JS.dedupe items
                  else (JS.dedupe items ++ [x])%list).
Proof.
  unfold JS.dedupe. split; [apply setOf_NoDup|]. split.
  - intro x. rewrite setOf_In. cbn. tauto.
  - intro x. apply (setOf_snoc items [] x).
Qed.

(** C6, as the code has it.  The labels come out without duplicates, in
    the order of their first appearance.  [extractor.js] looks for them in
    the table found by the section pattern; when that pattern finds no
    table the result is empty, unless the label contains "Operation
    Classification", in which case the table is looked for once more with
    the fixed pattern for that section.  The whole page is never the
    search scope there; in [part_000], which takes no section label, it
    always is. *)
Theorem marked_items_by_section (html sectionHeader : string) :
  let primary := groupText 1 (exec true (Extractor.sectionRegex sectionHeader)
                                html) in
  (forall tableHtml,
      primary = Some tableHtml ->
      Extractor.getXMarkedItems html sectionHeader
      = JS.dedupe (markedLabels tableHtml))
  /\ (primary = None ->
      JS.includes sectionHeader "Operation Classification" = false ->
      Extractor.getXMarkedItems html sectionHeader = [])
  /\ (primary = None ->
      JS.includes sectionHeader "Operation Classification" = true ->
      Extractor.getXMarkedItems html sectionHeader
      = match groupText 1 (exec true Extractor.opClassRegex html) with
        | Some tableHtml => JS.dedupe (markedLabels tableHtml)
        | None => []
        end)
  /\ Part000.getXMarkedItems html = JS.dedupe (markedLabels html)
  /\ NoDup (Extractor.getXMarkedItems html sectionHeader)
  /\ NoDup (Part000.getXMarkedItems html)
  /\ (forall items : list string,
         NoDup (JS.dedupe items)
         /\ (forall x, In x (JS.dedupe items) <-> In x items)
         /\ (forall x, JS.dedupe (items ++ [x])
                       = if existsb (String.eqb x) items then JS.dedupe items
                         else (JS.dedupe items ++ [x])%list)).
Proof.
  intro primary. unfold Extractor.getXMarkedItems. fold primary.
  split; [intros t ->; reflexivity|].
  split; [intros -> ->; reflexivity|].
  split.
  { intros -> ->.
    destruct (groupText 1 (exec true Extractor.opClassRegex html));
      reflexivity. }
  split; [reflexivity|].
  split.
  { destruct primary.
    - apply dedupe_first_seen.
    - destruct (JS.includes sectionHeader "Operation Classification");
        [|constructor].
      destruct (groupText 1 (exec true Extractor.opClassRegex html));
        [apply dedupe_first_seen | constructor]. }
  split; [apply dedupe_first_seen|].
  exact dedupe_first_seen.
Qed.

Lemma marked_items_by_section_witness :
  Extractor.getXMarkedItems Sample.good "Cargo Carried:"
  = ["General Freight"; "Household Goods"]
  /\ Extractor.getXMarkedItems Pages.bareTable "Cargo Carried:" = []
  /\ Extractor.getXMarkedItems Pages.bareTable "Operation Classification:"
     = [].
Proof.
  split; [|split].
  - eapply eq_trans.
    + eapply (proj1 (marked_items_by_section Sample.good "Cargo Carried:")).
      vm_compute. reflexivity.
    + vm_compute. reflexivity.
  - apply (proj1 (proj2 (marked_items_by_section Pages.bareTable
                           "Cargo Carried:"))).
    + vm_compute. reflexivity.
    + vm_compute. reflexivity.
  - rewrite (proj1 (proj2 (proj2 (marked_items_by_section Pages.bareTable
                                    "Operation Classification:")))).
    + vm_compute. reflexivity.
    + vm_compute. reflexivity.
    + vm_compute. reflexivity.
Defined.

(** C6, as stated, fails: the page has a marked row, the section pattern
    for "Cargo Carried:" finds no table on it, and [extractor.js] returns
    nothing where a search of the entire page returns the row. *)
Lemma no_whole_page_fallback_counterexample :
  groupText 1 (exec true (Extractor.sectionRegex "Cargo Carried:")
                 Pages.bareTable) = None
  /\ JS.dedupe (markedLabels Pages.bareTable) = ["General Freight"]
  /\ Extractor.getXMarkedItems Pages.bareTable "Cargo Carried:" = [].
Proof.
  split; [vm_compute; reflexivity|].
  split; [vm_compute; reflexivity|].
  vm_compute; reflexivity.
Qed.

(* ================================================================== *)
(** ** Addresses *)
(* ================================================================== *)

Lemma splitChar_nonempty sep s : forall acc, JS.splitChar sep acc s <> [].
Proof.
  induction s as [|c s IH]; intro acc; cbn; [discriminate|].
  destruct (Ascii.eqb c sep); [discriminate | apply IH].
Qed.

Lemma splitChar_two_iff_comma (s : string) :
  forall acc,
    (2 <=? length (JS.splitChar "," acc s))%nat = JS.includes s ",".
Proof.
  induction s as [|c s IH]; intro acc; [reflexivity|].
  cbn [JS.splitChar JS.includes JS.startsWith].
  rewrite (Ascii.eqb_sym "," c).
  destruct (Ascii.eqb c ",") eqn:Hc.
  - cbn [length andb orb].
    pose proof (splitChar_nonempty "," s EmptyString) as Hn.
    destruct (JS.splitChar "," EmptyString s); [congruence | reflexivity].
  - cbn [andb orb]. apply IH.
Qed.

(** [split(',')] gives two pieces or more exactly when there is a comma. *)
Lemma split_two_iff_comma (s : string) :
  (2 <=? length (JS.split "," s))%nat = JS.includes s ",".
Proof. apply splitChar_two_iff_comma. Qed.

Lemma last_two {A} (d : A) (l : list A) :
  (2 <= length l)%nat ->
  exists front, l = (front ++ [nth (length l - 2) l d;
                               nth (length l - 1) l d])%list.
Proof.
  intro H.
  destruct (exists_last (l := l)) as (l1 & b & ->);
    [intros ->; cbn in H; lia|].
  rewrite length_app in H. cbn in H.
  destruct (exists_last (l := l1)) as (front & a & ->);
    [intros ->; cbn in H; lia|].
  exists front. rewrite <- app_assoc. cbn [app].
  rewrite !length_app. cbn [length].
  replace (length front + 2 - 2)%nat with (length front) by lia.
  replace (length front + 2 - 1)%nat with (S (length front)) by lia.
  rewrite !app_nth2 by lia.
  rewrite Nat.sub_diag.
  replace (S (length front) - length front)%nat with 1%nat by lia.
  reflexivity.
Qed.

(** C7, as the code has it.  When the pattern "segment, two capitals,
    five-digit code" matches, [part_000] returns the segment, the capitals
    and the code, and [extractor.js] the segment and the capitals only:
    its addresses have no postal code.  When it does not match,
    [part_000] returns nothing at all; [extractor.js] takes, if there is
    a comma, the piece before the last comma as the city and the first
    word after it as the state, and returns nothing otherwise. *)
Theorem address_by_file (s : string) :
  (s = EmptyString ->
   Part000.parseAddress s
   = Part000.mkAddress EmptyString EmptyString EmptyString
   /\ Extractor.parseAddress s = Extractor.mkAddress EmptyString EmptyString)
  /\
  (forall m,
      s <> EmptyString ->
      exec false addressRegex s = Some m ->
      Part000.parseAddress s
      = Part000.mkAddress (JS.trim (orEmpty (group 1 m)))
                          (JS.trim (orEmpty (group 2 m)))
                          (JS.trim (orEmpty (group 3 m)))
      /\ Extractor.parseAddress s
         = Extractor.mkAddress (JS.trim (orEmpty (group 1 m)))
                               (JS.trim (orEmpty (group 2 m))))
  /\
  (exec false addressRegex s = None ->
   Part000.parseAddress s
   = Part000.mkAddress EmptyString EmptyString EmptyString)
  /\
  (exec false addressRegex s = None ->
   JS.includes s "," = true ->
   exists front cityPart lastPart,
     JS.split "," s = (front ++ [cityPart; lastPart])%list
     /\ Extractor.parseAddress s
        = Extractor.mkAddress
            (JS.trim cityPart)
            (nth 0 (Regex.split false (plus space) (JS.trim lastPart))
                 EmptyString))
  /\
  (exec false addressRegex s = None ->
   JS.includes s "," = false ->
   Extractor.parseAddress s = Extractor.mkAddress EmptyString EmptyString).
Proof.
  split; [intros ->; split; reflexivity|].
  split.
  { intros m Hs Hm. unfold Part000.parseAddress, Extractor.parseAddress.
    destruct s; [congruence|]. cbn [JS.truthy negb]. rewrite Hm.
    split; reflexivity. }
  split.
  { intro Hm. unfold Part000.parseAddress. rewrite Hm.
    destruct (negb (JS.truthy s)); reflexivity. }
  split.
  { intros Hm Hc. unfold Extractor.parseAddress.
    destruct s as [|c s]; [discriminate|]. cbn [JS.truthy negb].
    rewrite Hm, split_two_iff_comma, Hc.
    assert (H2 : (2 <= length (JS.split "," (String c s)))%nat).
    { apply Nat.leb_le. rewrite split_two_iff_comma. exact Hc. }
    destruct (last_two EmptyString _ H2) as (front & Hf).
    exists front. do 2 eexists. split; [exact Hf | reflexivity]. }
  { intros Hm Hc. unfold Extractor.parseAddress.
    destruct (negb (JS.truthy s)); [reflexivity|].
    rewrite Hm, split_two_iff_comma, Hc. reflexivity. }
Qed.

Lemma address_by_file_witness :
  (exists m,
      exec false addressRegex "12 MAIN ST, SPRINGFIELD, IL 62704" = Some m
      /\ Part000.parseAddress "12 MAIN ST, SPRINGFIELD, IL 62704"
         = Part000.mkAddress (JS.trim (orEmpty (group 1 m)))
                             (JS.trim (orEmpty (group 2 m)))
                             (JS.trim (orEmpty (group 3 m)))
      /\ Extractor.parseAddress "12 MAIN ST, SPRINGFIELD, IL 62704"
         = Extractor.mkAddress (JS.trim (orEmpty (group 1 m)))
                               (JS.trim (orEmpty (group 2 m))))
  /\ Part000.parseAddress "SPRINGFIELD, ILLINOIS"
     = Part000.mkAddress EmptyString EmptyString EmptyString
  /\ (exists front cityPart lastPart,
         JS.split "," "RT 9, SPRINGFIELD, NEW YORK"
         = (front ++ [cityPart; lastPart])%list
         /\ Extractor.parseAddress "RT 9, SPRINGFIELD, NEW YORK"
            = Extractor.mkAddress
                (JS.trim cityPart)
                (nth 0 (Regex.split false (plus space) (JS.trim lastPart))
                     EmptyString))
  /\ Extractor.parseAddress "SPRINGFIELD"
     = Extractor.mkAddress EmptyString EmptyString
  /\ (Part000.parseAddress EmptyString
      = Part000.mkAddress EmptyString EmptyString EmptyString
      /\ Extractor.parseAddress EmptyString
         = Extractor.mkAddress EmptyString EmptyString).
Proof.
  split; [|split; [|split; [|split]]].
  - eexists. split; [vm_compute; reflexivity|].
    apply (proj1 (proj2 (address_by_file
                           "12 MAIN ST, SPRINGFIELD, IL 62704"))).
    + discriminate.
    + vm_compute. reflexivity.
  - apply (proj1 (proj2 (proj2 (address_by_file "SPRINGFIELD, ILLINOIS")))).
    vm_compute. reflexivity.
  - apply (proj1 (proj2 (proj2 (proj2
             (address_by_file "RT 9, SPRINGFIELD, NEW YORK"))))).
    + vm_compute. reflexivity.
    + vm_compute. reflexivity.
  - apply (proj2 (proj2 (proj2 (proj2 (address_by_file "SPRINGFIELD"))))).
    + vm_compute. reflexivity.
    + vm_compute. reflexivity.
  - apply (proj1 (address_by_file EmptyString)). reflexivity.
Defined.

(** C7, as stated, fails in each file.  Where the pattern does not match,
    [part_000] has no fallback: an address with a comma comes back empty.
    The fallback of [extractor.js] takes the first word of the last piece
    as the state, not the piece; and where the pattern matches,
    [extractor.js] returns no postal code: the city and the state are all
    its address holds. *)
Lemma address_counterexample :
  exec false addressRegex "SPRINGFIELD, ILLINOIS" = None
  /\ Part000.parseAddress "SPRINGFIELD, ILLINOIS"
     = Part000.mkAddress EmptyString EmptyString EmptyString
  /\ exec false addressRegex "RT 9, SPRINGFIELD, NEW YORK" = None
  /\ JS.split "," "RT 9, SPRINGFIELD, NEW YORK"
     = ["RT 9"; " SPRINGFIELD"; " NEW YORK"]
  /\ Extractor.parseAddress "RT 9, SPRINGFIELD, NEW YORK"
     = Extractor.mkAddress "SPRINGFIELD" "NEW"
  /\ Part000.zip (Part000.parseAddress "12 MAIN ST, SPRINGFIELD, IL 62704")
     = "62704"
  /\ Extractor.parseAddress "12 MAIN ST, SPRINGFIELD, IL 62704"
     = Extractor.mkAddress "SPRINGFIELD" "IL".
Proof.
  split; [vm_compute; reflexivity|].
  split; [vm_compute; reflexivity|].
  split; [vm_compute; reflexivity|].
  split; [vm_compute; reflexivity|].
  split; [vm_compute; reflexivity|].
  split; [vm_compute; reflexivity|].
  vm_compute; reflexivity.
Qed.

(* ================================================================== *)
(** ** The CSV row and back *)
(* ================================================================== *)

Lemma csvCell_eq (v : string) :
  csvCell (Some v)
  = dq ++ substitute (ascii_of_nat 34) (dq ++ dq) v ++ dq.
Proof.
  unfold csvCell. cbn [orEmpty].
  rewrite <- (replaceAll_char (ascii_of_nat 34)). reflexivity.
Qed.

(** Inside a cell: the doubled quotes of [v] are read back as [v], and
    the single quote after them ends the cell. *)
Lemma read_cell (v : string) :
  forall cur done rest,
    Csv.read Csv.InCell cur done
      (substitute (ascii_of_nat 34) (dq ++ dq) v ++ dq ++ rest)
    = Csv.read Csv.QuoteSeen (JS.rev_onto v cur) done rest.
Proof.
  induction v as [|x v IH]; intros cur done rest; [reflexivity|].
  cbn [substitute JS.rev_onto].
  destruct (Ascii.eqb (ascii_of_nat 34) x) eqn:Hx.
  - apply Ascii.eqb_eq in Hx. subst x.
    change ((dq ++ dq) ++ substitute (ascii_of_nat 34) (dq ++ dq) v)
      with (String (ascii_of_nat 34)
              (String (ascii_of_nat 34)
                 (substitute (ascii_of_nat 34) (dq ++ dq) v))).
    cbn [append Csv.read]. unfold Csv.isQuote. rewrite Ascii.eqb_refl.
    apply IH.
  - cbn [append Csv.read]. unfold Csv.isQuote. rewrite Hx. apply IH.
Qed.

Lemma read_row (fields : list string) :
  forall v done,
    Csv.read Csv.CellStart EmptyString done
      (JS.join "," (map (fun x => csvCell (Some x)) (v :: fields)))
    = Some (List.rev done ++ v :: fields)%list.
Proof.
  induction fields as [|v' fields IH]; intros v done.
  - cbn [map JS.join]. rewrite csvCell_eq.
    change (dq ++ ?t) with (String (ascii_of_nat 34) t).
    cbn [Csv.read]. unfold Csv.isQuote. rewrite Ascii.eqb_refl.
    rewrite <- (append_nil_r
                  (substitute (ascii_of_nat 34) (dq ++ dq) v ++ dq)).
    rewrite append_assoc, read_cell. cbn [Csv.read List.rev].
    fold (JS.rev v). rewrite rev_involutive. reflexivity.
  - change (map (fun x => csvCell (Some x)) (v :: v' :: fields))
      with (csvCell (Some v)
            :: map (fun x => csvCell (Some x)) (v' :: fields)).
    cbn [JS.join]. cbn [map]. rewrite csvCell_eq.
    change (dq ++ ?t) with (String (ascii_of_nat 34) t).
    cbn [append Csv.read]. unfold Csv.isQuote. rewrite Ascii.eqb_refl.
    rewrite append_assoc, read_cell.
    cbn [append Csv.read]. unfold Csv.isQuote. cbn [Ascii.eqb Bool.eqb].
    fold (JS.rev v). rewrite rev_involutive.
    change (csvCell (Some v') :: map (fun x => csvCell (Some x)) fields)
      with (map (fun x => csvCell (Some x)) (v' :: fields)).
    rewrite IH. cbn [List.rev]. rewrite <- app_assoc. reflexivity.
Qed.

(** C9.  A record written as a CSV row by [run], in either file, and
    read back cell by cell, gives the strings of the record again, in the
    order of the header row. *)
Theorem csv_round_trip :
  (forall r : Extractor.Row,
      Csv.parseRow (Extractor.csvRow r)
      = Some (map (fun h => orEmpty (property (Extractor.entries r) h))
                  Extractor.headers)
      /\ map (fun h => orEmpty (property (Extractor.entries r) h))
             Extractor.headers
         = [Extractor.MC_Number r; Extractor.USDOT_Number r;
            Extractor.Legal_Name r; Extractor.City r; Extractor.State r;
            Extractor.Status r; Extractor.Authority_Type r;
            Extractor.Power_Units r; Extractor.Drivers r;
            Extractor.Cargo_Carried r; Extractor.Phone r; Extractor.Email r;
            Extractor.Operation_Type r; Extractor.Entity_Type r;
            Extractor.Script_Output r])
  /\
  (forall r : Part000.Row,
      Csv.parseRow (Part000.csvRow r)
      = Some (map (fun h => orEmpty (property (Part000.entries r) h))
                  Part000.headers)
      /\ map (fun h => orEmpty (property (Part000.entries r) h))
             Part000.headers
         = [Part000.mcNumber r; Part000.legalName r; Part000.dbaName r;
            Part000.entityType r; Part000.operationType r; Part000.phone r;
            Part000.email r; Part000.physicalAddress r;
            Part000.mailingAddress r; Part000.city_ r; Part000.state_ r;
            Part000.zip_ r; Part000.url_ r]).
Proof.
  split; intro r; (split; [|reflexivity]).
  - change (Extractor.csvRow r)
      with (JS.join ","
              (map (fun x => csvCell (Some x))
                   [Extractor.MC_Number r; Extractor.USDOT_Number r;
                    Extractor.Legal_Name r; Extractor.City r;
                    Extractor.State r; Extractor.Status r;
                    Extractor.Authority_Type r; Extractor.Power_Units r;
                    Extractor.Drivers r; Extractor.Cargo_Carried r;
                    Extractor.Phone r; Extractor.Email r;
                    Extractor.Operation_Type r; Extractor.Entity_Type r;
                    Extractor.Script_Output r])).
    unfold Csv.parseRow. rewrite read_row. reflexivity.
  - change (Part000.csvRow r)
      with (JS.join ","
              (map (fun x => csvCell (Some x))
                   [Part000.mcNumber r; Part000.legalName r;
                    Part000.dbaName r; Part000.entityType r;
                    Part000.operationType r; Part000.phone r;
                    Part000.email r; Part000.physicalAddress r;
                    Part000.mailingAddress r; Part000.city_ r;
                    Part000.state_ r; Part000.zip_ r; Part000.url_ r])).
    unfold Csv.parseRow. rewrite read_row. reflexivity.
Qed.

Example csv_round_trip_example :
  Csv.parseRow (JS.join "," (map (fun x => csvCell (Some x))
                               ["a,b"; "say " ++ dq ++ "hi" ++ dq;
                                EmptyString; newline]))
  = Some ["a,b"; "say " ++ dq ++ "hi" ++ dq; EmptyString; newline].
Proof. vm_compute. reflexivity. Qed.

(* ================================================================== *)
(** ** The matcher reports only what the pattern matches *)
(* ================================================================== *)

Section Sound.
Variable ci : bool.
Context {A : Type}.

Lemma take_append (m s : string) :
  JS.take (String.length (m ++ s) - String.length s) (m ++ s) = m.
Proof.
  rewrite length_append.
  replace (String.length m + String.length s - String.length s)%nat
    with (String.length m) by lia.
  induction m as [|x m IH]; cbn.
  - destruct s; reflexivity.
  - rewrite IH. reflexivity.
Qed.

(** Whatever [rmatch] hands to its continuation is the rest of the input
    after a text the pattern matches, with the captures of that match. *)
Lemma rmatch_sound :
  forall r s c (k : string -> caps -> option A) x,
    rmatch ci r s c k = Some x ->
    exists m s' c',
      s = m ++ s' /\ Matches ci r m c c' /\ k s' c' = Some x.
Proof.
  induction r as [| a | p | r1 IH1 r2 IH2 | r1 IH1 r2 IH2 | g r IH | n r IH];
    intros s c k x H.
  - exists EmptyString, s, c. repeat split; [constructor | exact H].
  - cbn in H. destruct s as [|y s]; [discriminate|].
    destruct (litMatches ci a y) eqn:Hl; [|discriminate].
    exists (String y EmptyString), s, c.
    repeat split; [constructor; exact Hl | exact H].
  - cbn in H. destruct s as [|y s]; [discriminate|].
    destruct (p y) eqn:Hl; [|discriminate].
    exists (String y EmptyString), s, c.
    repeat split; [constructor; exact Hl | exact H].
  - cbn [rmatch] in H.
    apply IH1 in H as (m1 & s1 & c1 & -> & L1 & H).
    apply IH2 in H as (m2 & s2 & c2 & -> & L2 & H).
    exists (m1 ++ m2), s2, c2. rewrite append_assoc.
    repeat split; [econstructor; eassumption | exact H].
  - cbn [rmatch] in H.
    destruct (rmatch ci r1 s c k) eqn:H1.
    + injection H as <-.
      apply IH1 in H1 as (m1 & s1 & c1 & -> & L1 & H).
      exists m1, s1, c1. repeat split; [apply MAltL; exact L1 | exact H].
    + apply IH2 in H as (m1 & s1 & c1 & -> & L1 & H).
      exists m1, s1, c1. repeat split; [apply MAltR; exact L1 | exact H].
  - cbn [rmatch] in H.
    match type of H with
    | ?f (String.length s) s c = _ => set (loop := f) in H
    end.
    assert (loop_0 : forall s c, loop O s c = k s c) by reflexivity.
    assert (loop_S :
      forall fuel s c,
        loop (S fuel) s c
        = if g then
            match rmatch ci r s c
                    (fun s' c' =>
                       if (String.length s' <? String.length s)%nat
                       then loop fuel s' c' else None) with
            | Some y => Some y
            | None => k s c
            end
          else
            match k s c with
            | Some y => Some y
            | None =>
                rmatch ci r s c
                  (fun s' c' =>
                     if (String.length s' <? String.length s)%nat
                     then loop fuel s' c' else None)
            end) by reflexivity.
    clearbody loop.
    revert H. generalize (String.length s) at 1. intro fuel. revert s c x.
    induction fuel as [|fuel IHf]; intros s c x H.
    + rewrite loop_0 in H. exists EmptyString, s, c.
      repeat split; [constructor | exact H].
    + rewrite loop_S in H.
      assert (Hagain :
        forall y,
          rmatch ci r s c
            (fun s' c' =>
               if (String.length s' <? String.length s)%nat
               then loop fuel s' c' else None) = Some y ->
          exists m s' c',
            s = m ++ s' /\ Matches ci (Star g r) m c c'
            /\ k s' c' = Some y).
      { intros y Hy. apply IH in Hy as (m1 & s1 & c1 & -> & L1 & Hy).
        destruct (String.length s1 <? String.length (m1 ++ s1))%nat;
          [|discriminate].
        apply IHf in Hy as (m2 & s2 & c2 & -> & L2 & Hy).
        exists (m1 ++ m2), s2, c2. rewrite append_assoc.
        repeat split; [eapply MStarS; eassumption | exact Hy]. }
      destruct g.
      * match type of H with
        | match ?e with _ => _ end = _ => destruct e as [y|] eqn:He
        end.
        -- injection H as <-. apply Hagain. reflexivity.
        -- exists EmptyString, s, c.
           repeat split; [constructor | exact H].
      * destruct (k s c) as [y|] eqn:Hk.
        -- injection H as <-. exists EmptyString, s, c.
           repeat split; [constructor | exact Hk].
        -- apply Hagain. exact H.
  - cbn [rmatch] in H.
    apply IH in H as (m1 & s1 & c1 & -> & L1 & H).
    exists m1, s1, ((n, m1) :: c1).
    rewrite take_append in H.
    repeat split; [constructor; exact L1 | exact H].
Qed.
End Sound.

Lemma matchHere_sound (ci : bool) (r : regex) (s rest : string) (c : caps) :
  matchHere ci r s = Some (rest, c) ->
  exists t,
    s = t ++ rest
    /\ JS.take (String.length s - String.length rest) s = t
    /\ Matches ci r t [] c.
Proof.
  unfold matchHere. intro Hm.
  apply rmatch_sound in Hm as (t & s' & c' & Hs & L & Hk).
  injection Hk as <- <-. exists t. subst s. rewrite take_append.
  repeat split. exact L.
Qed.

Lemma search_sound (ci : bool) (r : regex) (s : string) :
  forall pre m,
    search ci r pre s = Some m ->
    JS.rev pre ++ s = before m ++ matched m ++ after m
    /\ Matches ci r (matched m) [] (groups m).
Proof.
  assert (Hit : forall pre t rest c m,
             matchHere ci r t = Some (rest, c) ->
             Some (Regex.mkResult (JS.rev pre)
                     (JS.take (String.length t - String.length rest) t)
                     c rest) = Some m ->
             JS.rev pre ++ t = before m ++ matched m ++ after m
             /\ Matches ci r (matched m) [] (groups m)).
  { intros pre t rest c m Hm H. injection H as <-.
    cbn [before matched after groups].
    apply matchHere_sound in Hm as (u & Hs & Ht & L).
    rewrite Ht. subst t. split; [reflexivity | exact L]. }
  induction s as [|x s IH]; intros pre m H; cbn [search] in H.
  - destruct (matchHere ci r EmptyString) as [[rest c]|] eqn:Hm;
      [|discriminate].
    exact (Hit pre _ rest c m Hm H).
  - destruct (matchHere ci r (String x s)) as [[rest c]|] eqn:Hm.
    + exact (Hit pre _ rest c m Hm H).
    + apply IH in H as (H1 & H2). split; [|exact H2].
      rewrite <- H1. unfold JS.rev. cbn [JS.rev_onto].
      rewrite (rev_onto_append pre (String x EmptyString)).
      fold (JS.rev pre). rewrite append_assoc. reflexivity.
Qed.

(** A match found by [exec] splits the input in three; the pattern
    matches the middle part, and the captures are those of that match. *)
Lemma exec_sound (ci : bool) (r : regex) (s : string) (m : result) :
  exec ci r s = Some m ->
  s = before m ++ matched m ++ after m
  /\ Matches ci r (matched m) [] (groups m).
Proof. intro H. apply (search_sound ci r s EmptyString m H). Qed.

Section MatchesFacts.
Variable ci : bool.

Lemma M_Emp m c c' : Matches ci Emp m c c' -> m = EmptyString /\ c' = c.
Proof. inversion 1. split; reflexivity. Qed.

Lemma M_Lit a m c c' :
  Matches ci (Lit a) m c c' ->
  exists x, m = String x EmptyString /\ litMatches ci a x = true /\ c' = c.
Proof. inversion 1; subst. eauto. Qed.

Lemma M_Cls p m c c' :
  Matches ci (Cls p) m c c' ->
  exists x, m = String x EmptyString /\ p x = true /\ c' = c.
Proof. inversion 1; subst. eauto. Qed.

Lemma M_Cat r1 r2 m c c' :
  Matches ci (Cat r1 r2) m c c' ->
  exists m1 m2 c1,
    m = m1 ++ m2 /\ Matches ci r1 m1 c c1 /\ Matches ci r2 m2 c1 c'.
Proof. inversion 1; subst. eauto 6. Qed.

Lemma M_Alt r1 r2 m c c' :
  Matches ci (Alt r1 r2) m c c' ->
  Matches ci r1 m c c' \/ Matches ci r2 m c c'.
Proof. inversion 1; subst; tauto. Qed.

Lemma M_Grp n r m c c' :
  Matches ci (Grp n r) m c c' ->
  exists c1, Matches ci r m c c1 /\ c' = (n, m) :: c1.
Proof. inversion 1; subst. eauto. Qed.

Lemma M_star_cls g p m c c' :
  Matches ci (Star g (Cls p)) m c c' -> allOf p m = true /\ c' = c.
Proof.
  intro H. remember (Star g (Cls p)) as r eqn:Hr.
  induction H; try discriminate; [split; reflexivity|].
  injection Hr as -> ->.
  apply M_Cls in H as (x & -> & Hx & ->).
  destruct (IHMatches2 eq_refl) as [Ha ->]. cbn.
  rewrite Hx, Ha. split; reflexivity.
Qed.

Lemma M_plus_cls p m c c' :
  Matches ci (plus (Cls p)) m c c' ->
  allOf p m = true /\ m <> EmptyString /\ c' = c.
Proof.
  intro H. apply M_Cat in H as (m1 & m2 & c1 & -> & H1 & H2).
  apply M_Cls in H1 as (x & -> & Hx & ->).
  apply M_star_cls in H2 as [H2 ->].
  cbn. rewrite Hx, H2. repeat split. discriminate.
Qed.

Lemma M_times_cls p n :
  forall m c c', Matches ci (times n (Cls p)) m c c' ->
                 allOf p m = true /\ String.length m = n /\ c' = c.
Proof.
  induction n as [|n IH]; intros m c c' H; cbn [times] in H.
  - apply M_Emp in H as [-> ->]. repeat split.
  - apply M_Cat in H as (m1 & m2 & c1 & -> & H1 & H2).
    apply M_Cls in H1 as (x & -> & Hx & ->).
    destruct (IH _ _ _ H2) as (Ha & Hl & ->). cbn. rewrite Hx, Ha, Hl.
    repeat split.
Qed.

Lemma M_upto_cls p n :
  forall m c c', Matches ci (upto n (Cls p)) m c c' ->
                 allOf p m = true /\ (String.length m <= n)%nat /\ c' = c.
Proof.
  induction n as [|n IH]; intros m c c' H; cbn [upto] in H.
  - apply M_Emp in H as [-> ->]. repeat split. cbn. lia.
  - apply M_Alt in H as [H | H].
    + apply M_Cat in H as (m1 & m2 & c1 & -> & H1 & H2).
      apply M_Cls in H1 as (x & -> & Hx & ->).
      destruct (IH _ _ _ H2) as (Ha & Hl & ->). cbn. rewrite Hx, Ha.
      repeat split. lia.
    + apply M_Emp in H as [-> ->]. repeat split. cbn. lia.
Qed.

Lemma M_range_cls p lo hi m c c' :
  (lo <= hi)%nat ->
  Matches ci (range lo hi (Cls p)) m c c' ->
  allOf p m = true /\ (lo <= String.length m <= hi)%nat /\ c' = c.
Proof.
  intros Hlh H. apply M_Cat in H as (m1 & m2 & c1 & -> & H1 & H2).
  apply M_times_cls in H1 as (Ha1 & Hl1 & ->).
  apply M_upto_cls in H2 as (Ha2 & Hl2 & ->).
  rewrite allOf_append, Ha1, Ha2, length_append. repeat split; lia.
Qed.

Lemma M_atLeast_cls p lo m c c' :
  Matches ci (atLeast lo (Cls p)) m c c' ->
  allOf p m = true /\ (lo <= String.length m)%nat /\ c' = c.
Proof.
  intro H. apply M_Cat in H as (m1 & m2 & c1 & -> & H1 & H2).
  apply M_times_cls in H1 as (Ha1 & Hl1 & ->).
  apply M_star_cls in H2 as [H2 ->].
  rewrite allOf_append, Ha1, H2, length_append. repeat split. lia.
Qed.
End MatchesFacts.

Lemma M_str_exact t :
  forall m c c', Matches false (str t) m c c' -> m = t /\ c' = c.
Proof.
  induction t as [|a t IH]; intros m c c' H; cbn [str] in H.
  - apply M_Emp in H. exact H.
  - apply M_Cat in H as (m1 & m2 & c1 & -> & H1 & H2).
    apply M_Lit in H1 as (x & -> & Hx & ->). cbn in Hx.
    apply Ascii.eqb_eq in Hx. subst x. cbn.
    destruct (IH _ _ _ H2) as [-> ->]. split; reflexivity.
Qed.

Lemma M_str_nocase t :
  forall m c c',
    Matches true (str t) m c c' ->
    JS.toUpperCase m = JS.toUpperCase t /\ c' = c.
Proof.
  induction t as [|a t IH]; intros m c c' H; cbn [str] in H.
  - apply M_Emp in H as [-> ->]. split; reflexivity.
  - apply M_Cat in H as (m1 & m2 & c1 & -> & H1 & H2).
    apply M_Lit in H1 as (x & -> & Hx & ->). cbn in Hx.
    apply Ascii.eqb_eq in Hx. cbn [append JS.toUpperCase].
    destruct (IH _ _ _ H2) as [-> ->]. rewrite Hx. split; reflexivity.
Qed.

(* ================================================================== *)
(** ** Trimming *)
(* ================================================================== *)

Lemma trimStart_idem s : JS.trimStart (JS.trimStart s) = JS.trimStart s.
Proof.
  induction s as [|x s IH]; [reflexivity|]. cbn [JS.trimStart].
  destruct (JS.isSpace x) eqn:Hx; [exact IH|].
  cbn [JS.trimStart]. rewrite Hx. reflexivity.
Qed.

Lemma trimEnd_idem s : JS.trimEnd (JS.trimEnd s) = JS.trimEnd s.
Proof.
  unfold JS.trimEnd. rewrite rev_involutive, trimStart_idem. reflexivity.
Qed.

(** [trim] twice is [trim] once. *)
Lemma trim_idem s : JS.trim (JS.trim s) = JS.trim s.
Proof.
  unfold JS.trim.
  assert (H : JS.trimStart (JS.trimEnd (JS.trimStart s))
              = JS.trimEnd (JS.trimStart s)).
  { pose proof (trimStart_idem s) as Hi.
    destruct (JS.trimStart s) as [|x v]; [reflexivity|].
    cbn [JS.trimStart] in Hi.
    destruct (JS.isSpace x) eqn:Hx.
    - exfalso. clear -Hi. 
      assert (Hl : forall u, (String.length (JS.trimStart u)
                              <= String.length u)%nat).
      { induction u as [|y u IHu]; cbn; [lia|].
        destruct (JS.isSpace y); cbn; lia. }
      pose proof (Hl v) as Hv. rewrite Hi in Hv. cbn in Hv. lia.
    - destruct (trimEnd_head x v Hx) as (t & ->).
      cbn [JS.trimStart]. rewrite Hx. reflexivity. }
  rewrite H. apply trimEnd_idem.
Qed.

Lemma allOf_trimStart p s : allOf p s = true -> allOf p (JS.trimStart s) = true.
Proof.
  induction s as [|x s IH]; [reflexivity|]. cbn [allOf JS.trimStart].
  intro H. destruct (JS.isSpace x); [|exact H].
  apply andb_true_iff in H as [_ H]. exact (IH H).
Qed.

Lemma allOf_trim p s : allOf p s = true -> allOf p (JS.trim s) = true.
Proof.
  intro H. unfold JS.trim, JS.trimEnd.
  rewrite allOf_rev. apply allOf_trimStart. rewrite allOf_rev.
  apply allOf_trimStart, H.
Qed.

(* ================================================================== *)
(** ** Shapes of the extracted values *)
(* ================================================================== *)

Lemma upper_not_space c : JS.isUpper c = true -> negb (JS.isSpace c) = true.
Proof.
  intro H. rewrite alpha_not_space; [reflexivity|].
  unfold JS.isAlpha. rewrite H. reflexivity.
Qed.

Lemma digit_not_space' c : JS.isDigit c = true -> negb (JS.isSpace c) = true.
Proof. intro H. rewrite (digit_not_space c H). reflexivity. Qed.

(** What the address pattern captures when it matches. *)
Lemma addressRegex_groups (s : string) (m : result) :
  exec false addressRegex s = Some m ->
  exists g1 g2 g3,
    group 1 m = Some g1 /\ group 2 m = Some g2 /\ group 3 m = Some g3
    /\ allOf (notChar ",") g1 = true /\ g1 <> EmptyString
    /\ twoCapitals g2 /\ zipShaped g3.
Proof.
  intro He. apply exec_sound in He as [_ H]. unfold addressRegex in H.
  apply M_Cat in H as (? & ? & c1 & _ & H0 & H).
  assert (c1 = []) as ->.
  { apply M_Alt in H0 as [H0 | H0].
    - apply M_Lit in H0 as (? & _ & _ & ->). reflexivity.
    - apply M_Emp in H0 as [_ ->]. reflexivity. }
  apply M_Cat in H as (? & ? & ? & _ & H1 & H).
  apply M_star_cls in H1 as [_ ->].
  apply M_Cat in H as (g1 & ? & ? & _ & H1 & H).
  apply M_Grp in H1 as (? & H1 & ->).
  apply M_plus_cls in H1 as (Hg1 & Hn1 & ->).
  apply M_Cat in H as (? & ? & ? & _ & H2 & H).
  apply M_str_exact in H2 as [_ ->].
  apply M_Cat in H as (? & ? & ? & _ & H2 & H).
  apply M_star_cls in H2 as [_ ->].
  apply M_Cat in H as (g2 & ? & ? & _ & H2 & H).
  apply M_Grp in H2 as (? & H2 & ->).
  apply M_times_cls in H2 as (Hg2 & Hl2 & ->).
  apply M_Cat in H as (? & g3 & ? & _ & H3 & H).
  apply M_star_cls in H3 as [_ ->].
  apply M_Grp in H as (? & H & Heq).
  apply M_Cat in H as (a & b & ? & -> & Ha & Hb).
  apply M_times_cls in Ha as (Ha & Hla & ->).
  assert (Hz : zipShaped (a ++ b)).
  { apply M_Alt in Hb as [Hb | Hb].
    - apply M_Cat in Hb as (d & e & ? & -> & Hd & Hb).
      apply M_str_exact in Hd as [-> _].
      apply M_times_cls in Hb as (Hb & Hlb & _).
      right. exists a, e. repeat split; assumption.
    - apply M_Emp in Hb as [-> _]. rewrite append_nil_r.
      left. split; assumption. }
  assert (Hc : groups m = [(3, a ++ b); (2, g2); (1, g1)]).
  { rewrite Heq. f_equal.
    apply M_Alt in Hb as [Hb | Hb].
    - apply M_Cat in Hb as (d & e & ? & _ & Hd & Hb).
      apply M_str_exact in Hd as [_ ->].
      apply M_times_cls in Hb as (_ & _ & ->). reflexivity.
    - apply M_Emp in Hb as [_ ->]. reflexivity. }
  exists g1, g2, (a ++ b). unfold group. rewrite Hc. cbn [cap Nat.eqb].
  repeat split; assumption.
Qed.

Lemma twoCapitals_trim g : twoCapitals g -> JS.trim g = g.
Proof.
  intros [H _]. apply trim_nospace.
  exact (allOf_weaken _ _ g upper_not_space H).
Qed.

Lemma digitsOf_nospace n g :
  digitsOf n g -> allOf (fun c => negb (JS.isSpace c)) g = true.
Proof. intros [H _]. exact (allOf_weaken _ _ g digit_not_space' H). Qed.

Lemma zipShaped_trim z : zipShaped z -> JS.trim z = z.
Proof.
  intros [H | (a & b & -> & Ha & Hb)]; apply trim_nospace.
  - exact (digitsOf_nospace 5 z H).
  - rewrite !allOf_append, (digitsOf_nospace 5 a Ha),
      (digitsOf_nospace 4 b Hb). reflexivity.
Qed.

Lemma citySegment_trim g :
  allOf (notChar ",") g = true -> citySegment (JS.trim g).
Proof. intro H. split; [apply allOf_trim, H | apply trim_idem]. Qed.

Lemma splitChar_no_sep sep s :
  forall acc x,
    allOf (notChar sep) acc = true ->
    In x (JS.splitChar sep acc s) ->
    allOf (notChar sep) x = true.
Proof.
  induction s as [|c s IH]; intros acc x Hacc Hx; cbn [JS.splitChar] in Hx.
  - destruct Hx as [<- | []]. rewrite allOf_rev. exact Hacc.
  - destruct (Ascii.eqb c sep) eqn:Hc.
    + destruct Hx as [<- | Hx].
      * rewrite allOf_rev. exact Hacc.
      * exact (IH EmptyString x eq_refl Hx).
    + apply (IH (String c acc) x); [|exact Hx].
      cbn. unfold notChar at 1. rewrite Hc, Hacc. reflexivity.
Qed.

Lemma nth_allOf p (l : list string) n :
  (forall x, In x l -> allOf p x = true) ->
  allOf p (nth n l EmptyString) = true.
Proof.
  intro H. destruct (Nat.lt_ge_cases n (length l)) as [Hn | Hn].
  - apply H, nth_In, Hn.
  - rewrite nth_overflow by exact Hn. reflexivity.
Qed.

(** X1: the shape of a parsed address.  In [part_000] an address is either
    empty in all three parts or has a city that holds no comma and has no
    white space at its ends, a state of two capital letters and a postal
    code of five digits with an optional four-digit extension.  In
    [extractor.js] the city has the same shape on every path, and the
    state is two capital letters whenever the pattern matched. *)
Theorem parseAddress_shape (s : string) :
  (Part000.parseAddress s
   = Part000.mkAddress EmptyString EmptyString EmptyString
   \/ (citySegment (Part000.city (Part000.parseAddress s))
       /\ twoCapitals (Part000.state (Part000.parseAddress s))
       /\ zipShaped (Part000.zip (Part000.parseAddress s))))
  /\ citySegment (Extractor.city (Extractor.parseAddress s))
  /\ (twoCapitals (Extractor.state (Extractor.parseAddress s))
      \/ exec false addressRegex s = None
      \/ s = EmptyString).
Proof.
  unfold Part000.parseAddress, Extractor.parseAddress.
  destruct s as [|c s]; cbn [JS.truthy negb].
  { split; [left; reflexivity|]. split; [split; reflexivity | tauto]. }
  destruct (exec false addressRegex (String c s)) as [m|] eqn:He.
  - destruct (addressRegex_groups _ m He)
      as (g1 & g2 & g3 & -> & -> & -> & H1 & _ & H2 & H3).
    cbn [orEmpty Part000.city Part000.state Part000.zip
         Extractor.city Extractor.state].
    rewrite (twoCapitals_trim g2 H2), (zipShaped_trim g3 H3).
    split; [right|split; [|left]]; auto using citySegment_trim.
  - split; [left; reflexivity|]. split; [|tauto].
    destruct (2 <=? length (JS.split "," (String c s)))%nat;
      [|split; reflexivity].
    cbn [Extractor.city]. apply citySegment_trim, nth_allOf.
    intros x Hx. exact (splitChar_no_sep "," _ EmptyString x eq_refl Hx).
Qed.

(* ================================================================== *)
(** ** The fields of a record *)
(* ================================================================== *)

(** Take apart, case by case, a run that is known to have returned. *)
Ltac run_cases H :=
  unfold bind, tryCatch, ret, sleep, throw in H;
  repeat (match type of H with
          | context [match ?e with _ => _ end] =>
              lazymatch e with
              | context [match _ with _ => _ end] => fail
              | _ => destruct e eqn:?
              end
          end; try discriminate H).

(** What [extractAllData] of [extractor.js] puts in each field. *)
Lemma extractAllData_E_fields E url html w row w' :
  Extractor.extractAllData E url html w = (Returns row, w') ->
  Extractor.MC_Number row
  = orEmpty (groupText 1 (exec true Extractor.mcRegex html))
  /\ Extractor.USDOT_Number row = extractDataByHeader html "USDOT Number:"
  /\ Extractor.Legal_Name row = extractDataByHeader html "Legal Name:"
  /\ Extractor.City row
     = Extractor.city
         (Extractor.parseAddress
            (extractDataByHeader html "Physical Address:"))
  /\ Extractor.State row
     = Extractor.state
         (Extractor.parseAddress
            (extractDataByHeader html "Physical Address:"))
  /\ Extractor.Status row
     = (if JS.includes
             (JS.toUpperCase (extractDataByHeader html "USDOT Status:"))
             "ACTIVE"
           && JS.includes
                (JS.toUpperCase
                   (extractDataByHeader html "Operating Authority Status:"))
                "AUTHORIZED"
        then "Active" else "Inactive")
  /\ Extractor.Authority_Type row
     = match exec true Extractor.authorityRegex
               (extractDataByHeader html "Operating Authority Status:") with
       | Some m => orEmpty (group 1 m)
       | None => EmptyString
       end
  /\ Extractor.Power_Units row = extractDataByHeader html "Power Units:"
  /\ Extractor.Drivers row = extractDataByHeader html "Drivers:"
  /\ Extractor.Cargo_Carried row
     = JS.join ", " (Extractor.getXMarkedItems html "Cargo Carried:")
  /\ Extractor.Phone row = extractDataByHeader html "Phone:"
  /\ Extractor.Operation_Type row
     = JS.join ", " (Extractor.getXMarkedItems html "Carrier Operation:")
  /\ Extractor.Entity_Type row = extractDataByHeader html "Entity Type:"
  /\ Extractor.Script_Output row = EmptyString
  /\ emailFound (Extractor.Email row).
Proof.
  unfold Extractor.extractAllData. cbv zeta.
  unfold bind at 1.
  match goal with
  | |- match ?m w with _ => _ end = _ -> _ =>
      destruct (m w) as [[email|e] wm] eqn:Hm
  end; [|discriminate].
  unfold ret at 1. intros [= <- <-].
  cbn [Extractor.MC_Number Extractor.USDOT_Number Extractor.Legal_Name
       Extractor.City Extractor.State Extractor.Status
       Extractor.Authority_Type Extractor.Power_Units Extractor.Drivers
       Extractor.Cargo_Carried Extractor.Phone Extractor.Email
       Extractor.Operation_Type Extractor.Entity_Type
       Extractor.Script_Output].
  repeat (split; [reflexivity|]).
  unfold Extractor.newURL in Hm. run_cases Hm.
  all: injection Hm as <- <-; try (left; reflexivity).
  right. eauto.
Qed.

(** What [extractAllData] of [part_000] puts in each field. *)
Lemma extractAllData_P_fields E url html w row w' :
  Part000.extractAllData E url html w = (Returns row, w') ->
  Part000.entityType row = extractDataByHeader html "Entity Type:"
  /\ Part000.legalName row = extractDataByHeader html "Legal Name:"
  /\ Part000.dbaName row = extractDataByHeader html "DBA Name:"
  /\ Part000.mcNumber row
     = match groupText 1 (exec true Part000.mcRegex html) with
       | Some g => "MC-" ++ g
       | None => EmptyString
       end
  /\ Part000.phone row = extractDataByHeader html "Phone:"
  /\ Part000.physicalAddress row
     = extractDataByHeader html "Physical Address:"
  /\ Part000.mailingAddress row
     = extractDataByHeader html "Mailing Address:"
  /\ (exists a,
         a = Part000.parseAddress
               (if JS.truthy (extractDataByHeader html "Physical Address:")
                then extractDataByHeader html "Physical Address:"
                else extractDataByHeader html "Mailing Address:")
         /\ Part000.city_ row = Part000.city a
         /\ Part000.state_ row = Part000.state a
         /\ Part000.zip_ row = Part000.zip a)
  /\ In (Part000.operationType row)
        ["Property"; "Passenger"; "Broker"; EmptyString]
  /\ Part000.url_ row = url
  /\ emailFound (Part000.email row).
Proof.
  unfold Part000.extractAllData. cbv zeta.
  unfold bind at 1.
  match goal with
  | |- match ?m w with _ => _ end = _ -> _ =>
      destruct (m w) as [[email|e] wm] eqn:Hm
  end; [|discriminate].
  unfold ret at 1. intros [= <- <-].
  cbn [Part000.entityType Part000.legalName Part000.dbaName
       Part000.mcNumber Part000.phone Part000.email
       Part000.physicalAddress Part000.mailingAddress Part000.city_
       Part000.state_ Part000.zip_ Part000.operationType Part000.url_].
  repeat (split; [reflexivity|]).
  split; [eexists; repeat split|].
  split.
  { destruct (Part000.has _ "Auth. For Hire"); [cbn; tauto|].
    destruct (Part000.has _ "Passengers"); [cbn; tauto|].
    destruct (Part000.has _ "Broker"); cbn; tauto. }
  split; [reflexivity|].
  run_cases Hm.
  all: injection Hm as <- <-; try (left; reflexivity).
  right. eauto.
Qed.

(** A record returned by [handleMC] was built by [extractAllData] from a
    page that was fetched and passed the five tests. *)
Lemma recordE_origin E mc w row :
  recordE (fst (Extractor.handleMC E mc w)) = Some row ->
  exists html w1 w2,
    snapshot E mc w = (Returns html, w1)
    /\ passes E html = true
    /\ Extractor.extractAllData E (mcToSnapshotUrl mc) html w1
       = (Returns row, w2).
Proof.
  rewrite handleMC_E_eq.
  destruct (snapshot E mc w) as [[html|e] w1]; [|discriminate].
  destruct (passes E html) eqn:Hp; [|discriminate].
  destruct (Extractor.extractAllData E (mcToSnapshotUrl mc) html w1)
    as [[r|e] w2] eqn:Hx; [|discriminate].
  cbn. intros [= <-]. eauto 6.
Qed.

Lemma recordP_origin E MODE mc w row :
  recordP (fst (Part000.handleMC E MODE mc w)) = Some row ->
  exists html w1 w2,
    snapshot E mc w = (Returns html, w1)
    /\ passes E html = true
    /\ Part000.extractAllData E (mcToSnapshotUrl mc) html w1
       = (Returns row, w2).
Proof.
  rewrite handleMC_P_eq.
  destruct (snapshot E mc w) as [[html|e] w1]; [|discriminate].
  destruct (passes E html) eqn:Hp; [|discriminate].
  destruct (String.eqb MODE "urls"); [discriminate|].
  destruct (Part000.extractAllData E (mcToSnapshotUrl mc) html w1)
    as [[r|e] w2] eqn:Hx; [|discriminate].
  cbn. intros [= <-]. eauto 6.
Qed.

(* ================================================================== *)
(** ** What the patterns of a record capture *)
(* ================================================================== *)

Lemma emailRegex_group (s : string) (m : result) :
  exec false emailRegex s = Some m ->
  exists g, group 1 m = Some g /\ emailShaped g.
Proof.
  intro He. apply exec_sound in He as [_ H]. unfold emailRegex in H.
  destruct m as [pre g caps post]. cbn [matched groups] in H.
  apply M_Grp in H as (c1 & H & Hc).
  apply M_Cat in H as (l & ? & ? & -> & Hl & H).
  apply M_plus_cls in Hl as (Hl & Hln & ->).
  apply M_Cat in H as (? & ? & ? & -> & Hat & H).
  apply M_str_exact in Hat as [-> ->].
  apply M_Cat in H as (d & ? & ? & -> & Hd & H).
  apply M_plus_cls in Hd as (Hd & Hdn & ->).
  apply M_Cat in H as (? & t & ? & -> & Hdot & H).
  apply M_str_exact in Hdot as [-> ->].
  apply M_atLeast_cls in H as (Ht & Htl & ->).
  eexists. unfold group. cbn [groups]. rewrite Hc. cbn [cap Nat.eqb].
  split; [reflexivity|].
  exists l, d, t. repeat split; assumption.
Qed.

Lemma emailFound_shape (email : string) :
  emailFound email -> email = EmptyString \/ emailShaped email.
Proof.
  intros [-> | (page & m & Hm & ->)]; [left; reflexivity|].
  apply emailRegex_group in Hm as (g & -> & Hg). right. exact Hg.
Qed.

Lemma mcRegex_group (hi : nat) (s : string) (m : result) :
  (3 <= hi)%nat ->
  exec true (str "MC-" +++ Grp 1 (range 3 hi digit)) s = Some m ->
  exists g, group 1 m = Some g /\ digitRun 3 hi g.
Proof.
  intros Hhi He. apply exec_sound in He as [_ H].
  apply M_Cat in H as (? & g & ? & _ & Hp & H).
  apply M_str_nocase in Hp as [_ ->].
  apply M_Grp in H as (? & H & Hc).
  apply M_range_cls in H as (Hg & Hl & ->); [|exact Hhi].
  exists g. unfold group. rewrite Hc. cbn [cap Nat.eqb].
  repeat split; try assumption; lia.
Qed.

Lemma groupText_mc (hi : nat) (s g : string) :
  (3 <= hi)%nat ->
  groupText 1 (exec true (str "MC-" +++ Grp 1 (range 3 hi digit)) s)
  = Some g ->
  digitRun 3 hi g.
Proof.
  intros Hhi. unfold groupText.
  destruct (exec true _ s) as [m|] eqn:He; [|discriminate].
  apply mcRegex_group in He as (g' & -> & Hg); [|exact Hhi].
  destruct (JS.truthy g'); [|discriminate]. intros [= <-]. exact Hg.
Qed.

Lemma authorityRegex_group (s : string) (m : result) :
  exec true Extractor.authorityRegex s = Some m ->
  exists g, group 1 m = Some g /\ authorityWord g.
Proof.
  intro He. apply exec_sound in He as [_ H].
  unfold Extractor.authorityRegex in H.
  apply M_Cat in H as (? & g & ? & _ & Hp & H).
  apply M_str_nocase in Hp as [_ ->].
  apply M_Grp in H as (? & H & Hc).
  exists g. unfold group. rewrite Hc. cbn [cap Nat.eqb].
  split; [reflexivity|]. unfold authorityWord.
  apply M_Alt in H as [H | H]; [|apply M_Alt in H as [H | H]];
    apply M_str_nocase in H as [-> _]; cbn; tauto.
Qed.

(* ================================================================== *)
(** ** What is in a record that was written *)
(* ================================================================== *)

Lemma startsWith_iff (p s : string) :
  JS.startsWith p s = true <-> exists b, s = p ++ b.
Proof.
  revert s. induction p as [|a p IH]; intro s; cbn.
  - split; [intros _; exists s; reflexivity | reflexivity].
  - destruct s as [|x s]; [split; [discriminate | intros [b [=]]]|].
    rewrite andb_true_iff, Ascii.eqb_eq, IH. split.
    + intros [-> [b ->]]. exists b. reflexivity.
    + intros [b [= -> ->]]. split; [reflexivity | exists b; reflexivity].
Qed.

Lemma includes_iff (s needle : string) :
  JS.includes s needle = true <-> exists a b, s = a ++ needle ++ b.
Proof.
  induction s as [|x s IH].
  - cbn. rewrite orb_false_r, startsWith_iff. split.
    + intros [b Hb]. exists EmptyString, b. exact Hb.
    + intros ([|y a] & b & H); [exists b; exact H | discriminate H].
  - cbn [JS.includes]. rewrite orb_true_iff, startsWith_iff, IH. split.
    + intros [[b Hb] | (a & b & ->)].
      * exists EmptyString, b. exact Hb.
      * exists (String x a), b. reflexivity.
    + intros ([|y a] & b & H).
      * left. exists b. exact H.
      * injection H as -> ->. right. exists a, b. reflexivity.
Qed.

Lemma includes_suffix (s a b : string) :
  JS.includes s (a ++ b) = true -> JS.includes s b = true.
Proof.
  rewrite !includes_iff. intros (p & q & ->).
  exists (p ++ a), q. rewrite !append_assoc. reflexivity.
Qed.

(** X2: a record written by [extractor.js] identifies the carrier in a
    fixed shape.  Its [MC_Number] is empty or three to nine decimal
    digits; its [Email] is empty or a local part, an at sign, a domain, a
    dot and at least two letters, each part in the alphabet of the
    pattern; its [Authority_Type] is empty or one of Property, Passenger
    and HHG in some mix of cases; and its [Script_Output] is always
    empty. *)
Theorem record_shape_E (E : Env) (mc : string) (w : world)
        (row : Extractor.Row) :
  recordE (fst (Extractor.handleMC E mc w)) = Some row ->
  (Extractor.MC_Number row = EmptyString
   \/ digitRun 3 9 (Extractor.MC_Number row))
  /\ (Extractor.Email row = EmptyString
      \/ emailShaped (Extractor.Email row))
  /\ (Extractor.Authority_Type row = EmptyString
      \/ authorityWord (Extractor.Authority_Type row))
  /\ Extractor.Script_Output row = EmptyString.
Proof.
  intro H. apply recordE_origin in H as (html & w1 & w2 & _ & _ & H).
  apply extractAllData_E_fields in H
    as (Hmc & _ & _ & _ & _ & _ & Hau & _ & _ & _ & _ & _ & _ & Hso & Hem).
  split; [|split; [|split]].
  - rewrite Hmc.
    destruct (groupText 1 (exec true Extractor.mcRegex html)) as [g|] eqn:Hg;
      [|left; reflexivity].
    right. apply (groupText_mc 9 html g); [lia | exact Hg].
  - apply emailFound_shape. exact Hem.
  - rewrite Hau.
    destruct (exec true Extractor.authorityRegex _) as [m|] eqn:Hm;
      [|left; reflexivity].
    apply authorityRegex_group in Hm as (g & -> & Hg). right. exact Hg.
  - exact Hso.
Qed.

Lemma record_shape_E_witness :
  exists row,
    recordE (fst (Extractor.handleMC (Sample.env Sample.good) "123456" start))
    = Some row
    /\ (Extractor.MC_Number row = EmptyString
        \/ digitRun 3 9 (Extractor.MC_Number row))
    /\ (Extractor.Email row = EmptyString
        \/ emailShaped (Extractor.Email row))
    /\ (Extractor.Authority_Type row = EmptyString
        \/ authorityWord (Extractor.Authority_Type row))
    /\ Extractor.Script_Output row = EmptyString.
Proof.
  eexists. split; [vm_compute; reflexivity|].
  apply (record_shape_E (Sample.env Sample.good) "123456" start).
  vm_compute. reflexivity.
Defined.

(** X3: a record written by [part_000] carries the address that was
    asked for and an identifier in a fixed shape.  Its [url] is the
    snapshot address of the identifier given to [handleMC], the same as
    the [url] of the result; its [mcNumber] is empty or [MC-] followed by
    three to seven decimal digits; its [email] is empty or shaped as an
    email; and its [operationType] is Property, Passenger, Broker or
    empty. *)
Theorem record_shape_P (E : Env) (MODE mc : string) (w : world)
        (row : Part000.Row) :
  recordP (fst (Part000.handleMC E MODE mc w)) = Some row ->
  Part000.url_ row = mcToSnapshotUrl mc
  /\ (exists r, fst (Part000.handleMC E MODE mc w) = Returns r
                /\ Part000.url r = Some (Part000.url_ row)
                /\ Part000.valid r = true)
  /\ (Part000.mcNumber row = EmptyString
      \/ exists g, Part000.mcNumber row = "MC-" ++ g /\ digitRun 3 7 g)
  /\ (Part000.email row = EmptyString \/ emailShaped (Part000.email row))
  /\ In (Part000.operationType row)
        ["Property"; "Passenger"; "Broker"; EmptyString].
Proof.
  intro H0. pose proof H0 as H.
  apply recordP_origin in H as (html & w1 & w2 & Hs & Hp & H).
  pose proof H as Hx.
  apply extractAllData_P_fields in H
    as (_ & _ & _ & Hmc & _ & _ & _ & _ & Hop & Hurl & Hem).
  split; [exact Hurl|]. split.
  { rewrite handleMC_P_eq in H0 |- *. rewrite Hs, Hp in H0 |- *.
    destruct (String.eqb MODE "urls"); [discriminate H0|].
    rewrite Hx. eexists. cbn. rewrite Hurl. repeat split. }
  split; [|split].
  - rewrite Hmc.
    destruct (groupText 1 (exec true Part000.mcRegex html)) as [g|] eqn:Hg;
      [|left; reflexivity].
    right. exists g. split; [reflexivity|].
    apply (groupText_mc 7 html g); [lia | exact Hg].
  - apply emailFound_shape. exact Hem.
  - exact Hop.
Qed.

Lemma record_shape_P_witness :
  exists row,
    recordP (fst (Part000.handleMC (Sample.env Sample.good) "both" "123456"
                    start))
    = Some row
    /\ Part000.url_ row = mcToSnapshotUrl "123456"
    /\ (Part000.mcNumber row = EmptyString
        \/ exists g, Part000.mcNumber row = "MC-" ++ g /\ digitRun 3 7 g).
Proof.
  eexists. split; [vm_compute; reflexivity|].
  pose proof (record_shape_P (Sample.env Sample.good) "both" "123456" start)
    as H.
  edestruct H as (H1 & _ & H3 & _); [vm_compute; reflexivity|].
  split; [exact H1 | exact H3].
Defined.

(** X4: the numbers in a record of [extractor.js] passed the tests.  The
    [Power_Units] and the [Drivers] of a written record are, once their
    commas are removed, numbers of at least one; so neither is empty,
    zero or text that is no number. *)
Theorem record_counts_E (E : Env) (mc : string) (w : world)
        (row : Extractor.Row) :
  recordE (fst (Extractor.handleMC E mc w)) = Some row ->
  atLeastOne (Num.Number (stripCommas (Extractor.Power_Units row)))
  /\ atLeastOne (Num.Number (stripCommas (Extractor.Drivers row)))
  /\ Extractor.Power_Units row <> EmptyString
  /\ Extractor.Drivers row <> EmptyString.
Proof.
  intro H. apply recordE_origin in H as (html & w1 & w2 & _ & Hp & H).
  apply extractAllData_E_fields in H
    as (_ & _ & _ & _ & _ & _ & _ & Hpu & Hdr & _).
  apply passes_true in Hp as (_ & _ & _ & Hu & Hd).
  unfold tooFewPowerUnits in Hu. unfold tooFewDrivers in Hd.
  rewrite <- Hpu in Hu. rewrite <- Hdr in Hd.
  repeat split.
  - apply belowOne_spec. exact Hu.
  - apply belowOne_spec. exact Hd.
  - intro He. rewrite He in Hu. vm_compute in Hu. discriminate Hu.
  - intro He. rewrite He in Hd. vm_compute in Hd. discriminate Hd.
Qed.

Lemma record_counts_E_witness :
  exists row,
    recordE (fst (Extractor.handleMC (Sample.env Sample.good) "123456" start))
    = Some row
    /\ atLeastOne (Num.Number (stripCommas (Extractor.Power_Units row)))
    /\ atLeastOne (Num.Number (stripCommas (Extractor.Drivers row))).
Proof.
  eexists. split; [vm_compute; reflexivity|].
  pose proof (record_counts_E (Sample.env Sample.good) "123456" start) as H.
  edestruct H as (H1 & H2 & _); [vm_compute; reflexivity|].
  split; [exact H1 | exact H2].
Defined.

(** X5: what [Status] says in a written record of [extractor.js].  The
    page of a written record has an authority status that contains
    AUTHORIZED, so [Status] is decided by the USDOT status alone: it is
    Active when that field contains ACTIVE in any mix of cases, and
    Inactive otherwise.  A USDOT status of INACTIVE contains ACTIVE, so
    such a record is written with the status Active. *)
Theorem record_status_E (E : Env) (mc : string) (w : world)
        (row : Extractor.Row) :
  recordE (fst (Extractor.handleMC E mc w)) = Some row ->
  exists html w1,
    snapshot E mc w = (Returns html, w1)
    /\ let usdot :=
         JS.toUpperCase (extractDataByHeader html "USDOT Status:") in
       Extractor.Status row
       = (if JS.includes usdot "ACTIVE" then "Active" else "Inactive")
       /\ (JS.includes usdot "INACTIVE" = true ->
           Extractor.Status row = "Active").
Proof.
  intro H. apply recordE_origin in H as (html & w1 & w2 & Hs & Hp & H).
  apply extractAllData_E_fields in H
    as (_ & _ & _ & _ & _ & Hst & _).
  apply passes_true in Hp as (_ & Ha & _).
  unfold notAuthorized in Ha. cbv zeta in Ha.
  apply orb_false_iff in Ha as [_ Ha]. apply negb_false_iff in Ha.
  rewrite Ha, andb_true_r in Hst.
  exists html, w1. split; [exact Hs|]. cbv zeta. split; [exact Hst|].
  intro Hi. rewrite Hst.
  rewrite (includes_suffix _ "IN" "ACTIVE" Hi). reflexivity.
Qed.

Lemma record_status_E_witness :
  exists row,
    recordE (fst (Extractor.handleMC (Sample.env dormant) "123456" start))
    = Some row
    /\ extractDataByHeader dormant "USDOT Status:" = "INACTIVE"
    /\ Extractor.Status row = "Active".
Proof.
  eexists. split; [vm_compute; reflexivity|].
  split; [vm_compute; reflexivity|].
  pose proof (record_status_E (Sample.env dormant) "123456" start) as H.
  edestruct H as (html & w1 & Hs & _ & Hin); [vm_compute; reflexivity|].
  apply Hin. injection Hs as <- _. vm_compute. reflexivity.
Defined.

(* ================================================================== *)
(** ** The fetcher on any network *)
(* ================================================================== *)

Lemma first_true (P : nat -> bool) (n : nat) :
  (forall k, (k < n)%nat -> P k = false)
  \/ exists j, (j < n)%nat /\ P j = true
               /\ forall k, (k < j)%nat -> P k = false.
Proof.
  induction n as [|n [IH | (j & Hj & Hp & Hk)]].
  - left. intros k Hk. lia.
  - destruct (P n) eqn:Hn.
    + right. exists n. repeat split; [lia | exact Hn | exact IH].
    + left. intros k Hk. destruct (Nat.eq_dec k n) as [-> | Hne];
        [exact Hn | apply IH; lia].
  - right. exists j. repeat split; [lia | exact Hp | exact Hk].
Qed.

Lemma pausedIn_app t1 t2 :
  pausedIn (t1 ++ t2) = (pausedIn t1 + pausedIn t2)%Z.
Proof.
  induction t1 as [|[u|ms] t1 IH]; cbn [pausedIn app]; lia.
Qed.

Lemma pausedIn_failures url n :
  forall i,
    pausedIn (failures url i n)
    = (BACKOFF_BASE_MS * 2 ^ Z.of_nat i * (2 ^ Z.of_nat n - 1))%Z.
Proof.
  induction n as [|n IH]; intro i.
  - cbn. lia.
  - rewrite failures_S. cbn [pausedIn]. rewrite IH.
    rewrite !Nat2Z.inj_succ, !Z.pow_succ_r by lia. lia.
Qed.

(** The two ways a call of [fetchRetry] can end, on any network. *)
Lemma fetchRetry_cases (E : Env) (url label : string) (timeout : Z)
        (tries : nat) (w : world) :
  match fetchRetry E url tries timeout label w with
  | (Returns body, w') =>
      exists j,
        (j < tries)%nat
        /\ attempt E (requests w + j) url = Returns body
        /\ (forall i, (i < j)%nat ->
                      exists e, attempt E (requests w + i) url = Throws e)
        /\ trace w' = (trace w ++ failures url 0 j ++ [Fetched url])%list
        /\ requests w' = (requests w + j + 1)%nat
  | (Throws e, w') =>
      (forall i, (i < tries)%nat ->
                 exists e', attempt E (requests w + i) url = Throws e')
      /\ trace w' = (trace w ++ failures url 0 tries)%list
      /\ requests w' = (requests w + tries)%nat
      /\ match tries with
         | O => e = genericError label 0
         | S t => attempt E (requests w + t) url = Throws e
         end
  end.
Proof.
  set (errs := fun i => match attempt E (requests w + i) url with
                        | Throws e => e
                        | Returns _ => Error EmptyString
                        end).
  set (P := fun i => match attempt E (requests w + i) url with
                     | Throws _ => false
                     | Returns _ => true
                     end).
  assert (Herr : forall k, P k = false ->
                           attempt E (requests w + k) url = Throws (errs k)).
  { intros k. unfold P, errs.
    destruct (attempt E (requests w + k) url); [discriminate | reflexivity]. }
  unfold fetchRetry.
  destruct (first_true P tries) as [Hall | (j & Hj & Hp & Hk)].
  - rewrite (fetchRetryLoop_fails E url label tries timeout errs tries 0
               None w) by (intros k Hk; apply Herr, Hall, Hk).
    cbn [trace requests]. repeat split.
    + intros i Hi. exists (errs i). apply Herr, Hall, Hi.
    + destruct tries as [|t]; [reflexivity|].
      apply Herr, Hall. lia.
  - unfold P in Hp.
    destruct (attempt E (requests w + j) url) as [body|] eqn:Hb;
      [|discriminate].
    rewrite (fetchRetryLoop_succeeds E url label tries timeout errs body j
               tries 0 None w Hj)
      by (try exact Hb; intros k Hlt; apply Herr, Hk, Hlt).
    exists j. cbn [trace requests]. repeat split; try assumption.
    intros i Hi. exists (errs i). apply Herr, Hk, Hi.
Qed.

(** X6: what [fetchRetry] does on any network.  It never makes more
    than [tries] requests.  When it returns, the body is that of the
    first attempt that succeeded, every attempt before it failed and
    nothing was requested after it; the pauses before it add up to
    [BACKOFF_BASE_MS * (2^j - 1)] for a success at attempt [j], counted
    from 0.  When it throws, every one of the [tries] attempts failed,
    the error is that of the last one, and the pauses, one after every
    attempt and also after the last, add up to
    [BACKOFF_BASE_MS * (2^tries - 1)]; with no attempt allowed it throws
    "<label> failed after 0 attempts" and leaves the world as it was. *)
Theorem fetchRetry_outcome (E : Env) (url label : string) (timeout : Z)
        (tries : nat) (w : world) :
  let o := fst (fetchRetry E url tries timeout label w) in
  let w' := snd (fetchRetry E url tries timeout label w) in
  (requests w <= requests w' <= requests w + tries)%nat
  /\ (forall body,
         o = Returns body ->
         exists j,
           (j < tries)%nat
           /\ attempt E (requests w + j) url = Returns body
           /\ (forall i, (i < j)%nat ->
                         exists e, attempt E (requests w + i) url = Throws e)
           /\ requests w' = (requests w + j + 1)%nat
           /\ pausedIn (trace w')
              = (pausedIn (trace w)
                 + BACKOFF_BASE_MS * (2 ^ Z.of_nat j - 1))%Z)
  /\ (forall e,
         o = Throws e ->
         (forall i, (i < tries)%nat ->
                    exists e', attempt E (requests w + i) url = Throws e')
         /\ requests w' = (requests w + tries)%nat
         /\ pausedIn (trace w')
            = (pausedIn (trace w)
               + BACKOFF_BASE_MS * (2 ^ Z.of_nat tries - 1))%Z
         /\ (tries = 0%nat -> e = genericError label 0 /\ w' = w)
         /\ ((0 < tries)%nat ->
             attempt E (requests w + (tries - 1)) url = Throws e)).
Proof.
  cbv zeta.
  pose proof (fetchRetry_cases E url label timeout tries w) as H.
  destruct (fetchRetry E url tries timeout label w) as [[body|e] w'].
  - destruct H as (j & Hj & Hok & Hbefore & Ht & Hr). cbn [fst snd].
    split; [lia|]. split; [|discriminate].
    intros b [= <-]. exists j. repeat split; try assumption.
    rewrite Ht, !pausedIn_app, pausedIn_failures. cbn [pausedIn]. lia.
  - destruct H as (Hall & Ht & Hr & Hlast). cbn [fst snd].
    split; [lia|]. split; [discriminate|].
    intros e0 [= <-]. repeat split; try assumption.
    + rewrite Ht, pausedIn_app, pausedIn_failures. lia.
    + destruct tries; [exact Hlast | discriminate].
    + destruct w as [r t], w' as [r' t']. cbn [requests trace] in *.
      subst tries. cbn in Ht. rewrite app_nil_r in Ht.
      f_equal; [lia | exact Ht].
    + intro Hpos. destruct tries as [|n]; [lia|].
      replace (S n - 1)%nat with n by lia. exact Hlast.
Qed.

(* ================================================================== *)
(** ** What one identifier costs *)
(* ================================================================== *)

Lemma spent_refl w n ms : (0 <= ms)%Z -> spent w w n ms.
Proof.
  intro H. exists []. rewrite app_nil_r. cbn. repeat split; lia.
Qed.

Lemma spent_trans w w1 w2 n1 s1 n2 s2 :
  spent w w1 n1 s1 -> spent w1 w2 n2 s2 ->
  spent w w2 (n1 + n2) (s1 + s2).
Proof.
  intros (t1 & Ht1 & Hr1 & Hn1 & Hs1) (t2 & Ht2 & Hr2 & Hn2 & Hs2).
  exists (t1 ++ t2)%list.
  rewrite Ht2, Ht1, app_assoc, Hr2, Hr1, attemptsIn_app, pausedIn_app.
  repeat split; lia.
Qed.

Lemma spent_weaken w w' n s n' s' :
  (n <= n')%nat -> (s <= s')%Z -> spent w w' n s -> spent w w' n' s'.
Proof.
  intros Hn Hs (t & Ht & Hr & Hnt & Hst). exists t. repeat split; lia || auto.
Qed.

Section Costs.
Context {A B : Type}.

Lemma costs_weaken (m : M A) n s e t n' s' e' t' :
  costs m n s e t ->
  (n <= n')%nat -> (s <= s')%Z -> (e <= e')%nat -> (t <= t')%Z ->
  costs m n' s' e' t'.
Proof.
  intros H Hn Hs He Ht w. specialize (H w).
  destruct (m w) as [[a|err] w']; eapply spent_weaken; eauto.
Qed.

Lemma costs_ret (a : A) : costs (ret a) 0 0 0 0.
Proof. intro w. apply spent_refl. lia. Qed.

Lemma costs_throw (err : error) : costs (throw (A := A) err) 0 0 0 0.
Proof. intro w. apply spent_refl. lia. Qed.

Lemma costs_bind (m : M A) (f : A -> M B) n1 s1 e1 t1 n2 s2 e2 t2 :
  costs m n1 s1 e1 t1 ->
  (forall a, costs (f a) n2 s2 e2 t2) ->
  costs (bind m f) (n1 + n2) (s1 + s2)
        (Nat.max e1 (n1 + e2)) (Z.max t1 (s1 + t2)).
Proof.
  intros Hm Hf w. unfold bind. specialize (Hm w).
  destruct (m w) as [[a|err] w1].
  - specialize (Hf a w1). destruct (f a w1) as [[b|err] w2].
    + eapply spent_trans; eassumption.
    + eapply spent_weaken; [| |eapply spent_trans; eassumption]; lia.
  - eapply spent_weaken; [| |eassumption]; lia.
Qed.

Lemma costs_tryCatch (m : M A) (h : error -> M A) n1 s1 e1 t1 n2 s2 e2 t2 :
  costs m n1 s1 e1 t1 ->
  (forall err, costs (h err) n2 s2 e2 t2) ->
  costs (tryCatch m h) (Nat.max n1 (e1 + n2)) (Z.max s1 (t1 + s2))
        (e1 + e2) (t1 + t2).
Proof.
  intros Hm Hh w. unfold tryCatch. specialize (Hm w).
  destruct (m w) as [[a|err] w1].
  - eapply spent_weaken; [| |eassumption]; lia.
  - specialize (Hh err w1). destruct (h err w1) as [[b|err'] w2].
    + eapply spent_weaken; [| |eapply spent_trans; eassumption]; lia.
    + eapply spent_trans; eassumption.
Qed.

Lemma costs_if (c : bool) (m1 m2 : M A) n1 s1 e1 t1 n2 s2 e2 t2 :
  costs m1 n1 s1 e1 t1 -> costs m2 n2 s2 e2 t2 ->
  costs (if c then m1 else m2) (Nat.max n1 n2) (Z.max s1 s2)
        (Nat.max e1 e2) (Z.max t1 t2).
Proof.
  intros H1 H2. destruct c; eapply costs_weaken; eauto; lia.
Qed.

Lemma costs_option {X} (o : option X) (f : X -> M A) (d : M A)
      n1 s1 e1 t1 n2 s2 e2 t2 :
  (forall x, costs (f x) n1 s1 e1 t1) -> costs d n2 s2 e2 t2 ->
  costs (match o with Some x => f x | None => d end)
        (Nat.max n1 n2) (Z.max s1 s2) (Nat.max e1 e2) (Z.max t1 t2).
Proof.
  intros H1 H2. destruct o; eapply costs_weaken; eauto; lia.
Qed.
End Costs.

Lemma costs_sleep (ms : Z) : (0 <= ms)%Z -> costs (sleep ms) 0 ms 0 0.
Proof.
  intros H w. exists [Slept ms]. cbn. repeat split; lia.
Qed.

(** A call of [fetchRetry] that returns has paused after all attempts
    but the last; one that throws has paused after every attempt. *)
Lemma costs_fetchRetry E url tries timeout label :
  costs (fetchRetry E url tries timeout label)
        tries (BACKOFF_BASE_MS * (2 ^ Z.of_nat (tries - 1) - 1))
        tries (BACKOFF_BASE_MS * (2 ^ Z.of_nat tries - 1)).
Proof.
  intro w. pose proof (fetchRetry_cases E url label timeout tries w) as H.
  destruct (fetchRetry E url tries timeout label w) as [[body|e] w'].
  - destruct H as (j & Hj & _ & _ & Ht & Hr).
    exists (failures url 0 j ++ [Fetched url])%list.
    rewrite attemptsIn_app, pausedIn_app, attemptsIn_failures,
      pausedIn_failures.
    cbn [attemptsIn filter length pausedIn].
    split; [exact Ht|]. split; [lia|]. split; [lia|].
    assert (2 ^ Z.of_nat j <= 2 ^ Z.of_nat (tries - 1))%Z
      by (apply Z.pow_le_mono_r; lia).
    assert (0 < 2 ^ Z.of_nat j)%Z by (apply Z.pow_pos_nonneg; lia).
    unfold BACKOFF_BASE_MS. cbn [Z.of_nat Z.pow Z.pow_pos Pos.iter]. lia.
  - destruct H as (_ & Ht & Hr & _).
    exists (failures url 0 tries).
    rewrite attemptsIn_failures, pausedIn_failures.
    split; [exact Ht|]. split; [exact Hr|]. split; [lia|].
    assert (0 < 2 ^ Z.of_nat tries)%Z by (apply Z.pow_pos_nonneg; lia).
    unfold BACKOFF_BASE_MS. cbn [Z.of_nat Z.pow Z.pow_pos Pos.iter]. lia.
Qed.

Lemma costs_fetch3 E url label :
  costs (fetchRetry E url MAX_RETRIES FETCH_TIMEOUT_MS label)
        3 6000 3 14000.
Proof. exact (costs_fetchRetry E url 3 FETCH_TIMEOUT_MS label). Qed.

Ltac cost_step :=
  first
    [ apply costs_ret
    | apply costs_throw
    | apply costs_fetch3
    | apply costs_sleep; lia
    | eapply costs_bind; [|intro]
    | eapply costs_tryCatch; [|intro]
    | eapply costs_if
    | eapply costs_option; [intro|] ].

Lemma costs_extract_E E url html :
  costs (Extractor.extractAllData E url html) 6 20600 6 20600.
Proof.
  unfold Extractor.extractAllData, Extractor.newURL. cbv zeta.
  eapply costs_weaken.
  - repeat cost_step.
  - vm_compute. lia.
  - vm_compute. discriminate.
  - vm_compute. lia.
  - vm_compute. discriminate.
Qed.

Lemma costs_extract_P E url html :
  costs (Part000.extractAllData E url html) 6 20600 6 20600.
Proof.
  unfold Part000.extractAllData. cbv zeta.
  eapply costs_weaken.
  - repeat cost_step.
  - vm_compute. lia.
  - vm_compute. discriminate.
  - vm_compute. lia.
  - vm_compute. discriminate.
Qed.

Lemma costs_handleMC_E E mc :
  costs (Extractor.handleMC E mc) 9 26600 9 26600.
Proof.
  unfold Extractor.handleMC. cbv zeta.
  eapply costs_weaken.
  - eapply costs_tryCatch; [|intro; apply costs_ret].
    eapply costs_bind; [apply costs_fetch3|intro html].
    repeat (eapply costs_if; [apply costs_ret|]).
    eapply costs_bind; [apply costs_extract_E|intro; apply costs_ret].
  - vm_compute. lia.
  - vm_compute. discriminate.
  - vm_compute. lia.
  - vm_compute. discriminate.
Qed.

Lemma costs_handleMC_P E MODE mc :
  costs (Part000.handleMC E MODE mc) 9 26600 9 26600.
Proof.
  unfold Part000.handleMC. cbv zeta.
  eapply costs_weaken.
  - eapply costs_tryCatch; [|intro; apply costs_ret].
    eapply costs_bind; [apply costs_fetch3|intro html].
    repeat (eapply costs_if; [apply costs_ret|]).
    eapply costs_bind; [apply costs_extract_P|intro; apply costs_ret].
  - vm_compute. lia.
  - vm_compute. discriminate.
  - vm_compute. lia.
  - vm_compute. discriminate.
Qed.

(** X7: what one identifier can cost.  On any network and for any page,
    a run of [handleMC], in either file and in any mode, makes at most
    nine requests and sleeps at most 26600 milliseconds between them, all
    of it appended to the trace; and there is a network on which a run
    costs exactly that. *)
Theorem handleMC_budget (E : Env) (MODE mc : string) (w : world) :
  spent w (snd (Extractor.handleMC E mc w)) 9 26600
  /\ spent w (snd (Part000.handleMC E MODE mc w)) 9 26600
  /\ (let w' := snd (Extractor.handleMC stubbornEnv "123456" start) in
      requests w' = 9%nat /\ pausedIn (trace w') = 26600%Z)
  /\ (let w' := snd (Part000.handleMC stubbornEnv "both" "123456" start) in
      requests w' = 9%nat /\ pausedIn (trace w') = 26600%Z).
Proof.
  split; [|split; [|split]].
  - pose proof (costs_handleMC_E E mc w) as H.
    destruct (Extractor.handleMC E mc w) as [[r|e] w']; exact H.
  - pose proof (costs_handleMC_P E MODE mc w) as H.
    destruct (Part000.handleMC E MODE mc w) as [[r|e] w']; exact H.
  - vm_compute. split; reflexivity.
  - vm_compute. split; reflexivity.
Qed.

(* ================================================================== *)
(** ** Runs of white space *)
(* ================================================================== *)

(** A greedy run of white space before a continuation that cannot fail
    takes all the white space there is. *)
Lemma star_space_greedy {A} (ci : bool) (k : string -> caps -> option A) :
  (forall s c, k s c <> None) ->
  forall s c, rmatch ci (Star true space) s c k = k (JS.trimStart s) c.
Proof.
  intros Hk s c. cbn [rmatch].
  match goal with
  | |- ?f (String.length s) s c = _ => set (loop := f)
  end.
  assert (loop_0 : forall s c, loop O s c = k s c) by reflexivity.
  assert (loop_S :
    forall fuel s c,
      loop (S fuel) s c
      = match rmatch ci space s c
                (fun s' c' =>
                   if (String.length s' <? String.length s)%nat
                   then loop fuel s' c' else None) with
        | Some y => Some y
        | None => k s c
        end) by reflexivity.
  clearbody loop.
  assert (H : forall fuel s c, (String.length s <= fuel)%nat ->
                               loop fuel s c = k (JS.trimStart s) c).
  { clear s c. induction fuel as [|fuel IH]; intros s c Hl.
    - destruct s; [|cbn in Hl; lia]. apply loop_0.
    - rewrite loop_S. destruct s as [|x s]; [reflexivity|].
      cbn [rmatch space JS.trimStart]. destruct (JS.isSpace x); [|reflexivity].
      cbn [String.length] in *.
      replace (String.length s <? S (String.length s))%nat with true
        by (symmetry; apply Nat.ltb_lt; lia).
      rewrite IH by lia.
      destruct (k (JS.trimStart s) c) eqn:Hy; [reflexivity|].
      exfalso. exact (Hk _ _ Hy). }
  apply H. lia.
Qed.

Lemma matchHere_spaces (s : string) :
  matchHere false (plus space) s
  = match s with
    | String x s' =>
        if JS.isSpace x then Some (JS.trimStart s', []) else None
    | EmptyString => None
    end.
Proof.
  unfold matchHere, plus. cbn [rmatch].
  destruct s as [|x s]; [reflexivity|]. cbn [rmatch space].
  destruct (JS.isSpace x); [|reflexivity].
  apply (star_space_greedy false (fun rest c => Some (rest, c))).
  intros; discriminate.
Qed.

Lemma trimStart_length s :
  (String.length (JS.trimStart s) <= String.length s)%nat.
Proof.
  induction s as [|y u IHu]; cbn; [lia|].
  destruct (JS.isSpace y); cbn; lia.
Qed.

Lemma headOk_trimStart s : headOk (JS.trimStart s) = true.
Proof.
  induction s as [|x s IH]; [reflexivity|]. cbn [JS.trimStart].
  destruct (JS.isSpace x) eqn:Hx; [exact IH|]. cbn. rewrite Hx. reflexivity.
Qed.

(** The first run of white space: nothing before it is white space, and
    what follows it does not begin with white space. *)
Lemma search_spaces (s : string) :
  forall pre,
    match search false (plus space) pre s with
    | None => allOf (fun c => negb (JS.isSpace c)) s = true
    | Some m =>
        exists a x s' run,
          s = a ++ String x s'
          /\ allOf (fun c => negb (JS.isSpace c)) a = true
          /\ JS.isSpace x = true
          /\ before m = JS.rev pre ++ a
          /\ matched m = String x run
          /\ after m = JS.trimStart s'
    end.
Proof.
  induction s as [|x s IH]; intro pre; [reflexivity|].
  cbn [search]. rewrite matchHere_spaces.
  destruct (JS.isSpace x) eqn:Hx.
  - exists EmptyString, x, s. cbn [before matched after String.length].
    pose proof (trimStart_length s) as Hl.
    replace (S (String.length s) - String.length (JS.trimStart s))%nat
      with (S (String.length s - String.length (JS.trimStart s))) by lia.
    cbn [JS.take]. eexists. rewrite append_nil_r. repeat split.
    exact Hx.
  - specialize (IH (String x pre)).
    destruct (search false (plus space) (String x pre) s) as [m|].
    + destruct IH as (a & y & s' & run & -> & Ha & Hy & Hb & Hm & Hr).
      exists (String x a), y, s', run. cbn [allOf append].
      rewrite Hx, Ha. repeat split; try assumption.
      rewrite Hb, rev_cons, append_assoc. reflexivity.
    + cbn [allOf]. rewrite Hx, IH. reflexivity.
Qed.

Lemma singleSpaced_nospace s :
  allOf (fun c => negb (JS.isSpace c)) s = true -> singleSpaced s = true.
Proof.
  induction s as [|x s IH]; [reflexivity|]. cbn [allOf singleSpaced].
  intro H. apply andb_true_iff in H as [-> H]. rewrite (IH H). reflexivity.
Qed.

Lemma singleSpaced_app a t :
  allOf (fun c => negb (JS.isSpace c)) a = true ->
  singleSpaced t = true -> singleSpaced (a ++ t) = true.
Proof.
  intros Ha Ht. induction a as [|x a IH]; [exact Ht|].
  cbn [allOf append singleSpaced] in *.
  apply andb_true_iff in Ha as [-> Ha]. rewrite (IH Ha). reflexivity.
Qed.

(** Replacing every run of white space by one space leaves single
    spaces only. *)
Lemma squeeze_spaces :
  forall fuel s,
    (String.length s < fuel)%nat ->
    singleSpaced (replaceLoop fuel false (plus space) " " s) = true
    /\ (headOk s = true ->
        headOk (replaceLoop fuel false (plus space) " " s) = true).
Proof.
  induction fuel as [|fuel IH]; intros s Hl; [lia|].
  cbn [replaceLoop]. unfold exec.
  pose proof (search_spaces s EmptyString) as H.
  destruct (search false (plus space) EmptyString s) as [m|].
  - destruct H as (a & x & s' & run & -> & Ha & Hsp & Hb & Hm & Hr).
    rewrite Hm, Hb, Hr. cbn [JS.rev JS.rev_onto append].
    assert (Hlen : (String.length (JS.trimStart s') < fuel)%nat).
    { pose proof (trimStart_length s'). rewrite length_append in Hl.
      cbn [String.length] in Hl. lia. }
    destruct (IH _ Hlen) as [Hs Hh].
    specialize (Hh (headOk_trimStart s')).
    split.
    + apply singleSpaced_app; [exact Ha|].
      cbn [append singleSpaced]. rewrite Hh, Hs. reflexivity.
    + destruct a as [|y a]; cbn [append headOk]; [|tauto].
      rewrite Hsp. discriminate.
  - split; [apply singleSpaced_nospace, H | tauto].
Qed.

Lemma trimStart_suffix s : exists a, s = a ++ JS.trimStart s.
Proof.
  induction s as [|x s [a IH]]; [exists EmptyString; reflexivity|].
  cbn [JS.trimStart]. destruct (JS.isSpace x).
  - exists (String x a). cbn. rewrite <- IH. reflexivity.
  - exists EmptyString. reflexivity.
Qed.

Lemma trimEnd_prefix s : exists b, s = JS.trimEnd s ++ b.
Proof.
  unfold JS.trimEnd. destruct (trimStart_suffix (JS.rev s)) as [a Ha].
  exists (JS.rev a). rewrite <- rev_append, <- Ha, rev_involutive.
  reflexivity.
Qed.

Lemma singleSpaced_suffix a s :
  singleSpaced (a ++ s) = true -> singleSpaced s = true.
Proof.
  induction a as [|x a IH]; [tauto|]. cbn [append singleSpaced].
  intro H. apply andb_true_iff in H as [_ H]. exact (IH H).
Qed.

Lemma singleSpaced_prefix a b :
  singleSpaced (a ++ b) = true -> singleSpaced a = true.
Proof.
  induction a as [|x a IH]; [reflexivity|]. cbn [append singleSpaced].
  intro H. apply andb_true_iff in H as [Hx H]. rewrite (IH H), andb_true_r.
  destruct (negb (JS.isSpace x)); [reflexivity|]. cbn [orb] in *.
  apply andb_true_iff in Hx as [-> Hx]. destruct a; [reflexivity | exact Hx].
Qed.

Lemma singleSpaced_trim s :
  singleSpaced s = true -> singleSpaced (JS.trim s) = true.
Proof.
  intro H. unfold JS.trim.
  destruct (trimStart_suffix s) as [a Ha].
  destruct (trimEnd_prefix (JS.trimStart s)) as [b Hb].
  rewrite Ha in H. apply singleSpaced_suffix in H.
  rewrite Hb in H. apply singleSpaced_prefix in H. exact H.
Qed.

Lemma trim_ends s :
  headOk (JS.trim s) = true /\ headOk (JS.rev (JS.trim s)) = true.
Proof.
  unfold JS.trim. split.
  - pose proof (headOk_trimStart s) as H.
    destruct (JS.trimStart s) as [|x v]; [reflexivity|].
    cbn in H. apply negb_true_iff in H.
    destruct (trimEnd_head x v H) as [t ->]. cbn. rewrite H. reflexivity.
  - unfold JS.trimEnd. rewrite rev_involutive. apply headOk_trimStart.
Qed.

(** X8: the text of a field is in normal form.  Whatever [htmlToText]
    returns has no white space at either end, has a plain space wherever
    it has white space, and has no two of them side by side; so it holds
    no tab, no line break and no no-break space, and trimming it changes
    nothing.  The same holds of what [extractDataByHeader] returns for
    any page and any label that stands for itself in a pattern. *)
Theorem field_text_is_normal (html headerText s : string) :
  (JS.trim (htmlToText s) = htmlToText s
   /\ singleSpaced (htmlToText s) = true
   /\ headOk (htmlToText s) = true
   /\ headOk (JS.rev (htmlToText s)) = true)
  /\ (plainLabel headerText = true ->
      let v := extractDataByHeader html headerText in
      JS.trim v = v /\ singleSpaced v = true
      /\ headOk v = true /\ headOk (JS.rev v) = true).
Proof.
  assert (H : forall t,
             JS.trim (htmlToText t) = htmlToText t
             /\ singleSpaced (htmlToText t) = true
             /\ headOk (htmlToText t) = true
             /\ headOk (JS.rev (htmlToText t)) = true).
  { intro t. unfold htmlToText.
    destruct (negb (JS.truthy t)); [repeat split|]. cbv zeta.
    split; [apply trim_idem|]. split; [|apply trim_ends].
    apply singleSpaced_trim. unfold replaceAll at 1.
    apply squeeze_spaces. lia. }
  split; [apply H|]. intros _. cbv zeta. unfold extractDataByHeader.
  destruct (groupText 1 _) as [g|]; [apply H | repeat split].
Qed.

(** A cell padded with a tab, line breaks and no-break spaces, as the
    service pads its cells. *)
Lemma field_text_is_normal_witness :
  htmlToText (String NBSP (String (ascii_of_nat 9)
                             (" 5" ++ String NBSP newline)))
  = "5"
  /\ (let v := extractDataByHeader Sample.good "Physical Address:" in
      v = "12 MAIN ST, SPRINGFIELD, IL 62704"
      /\ JS.trim v = v /\ singleSpaced v = true).
Proof.
  split; [vm_compute; reflexivity|].
  cbv zeta. split; [vm_compute; reflexivity|].
  destruct (proj2 (field_text_is_normal Sample.good "Physical Address:"
                     EmptyString)) as (H1 & H2 & _).
  - vm_compute. reflexivity.
  - split; [exact H1 | exact H2].
Defined.

(* ================================================================== *)
(** ** Where the text of a field comes from *)
(* ================================================================== *)

Lemma toUpperCase_append a b :
  JS.toUpperCase (a ++ b) = JS.toUpperCase a ++ JS.toUpperCase b.
Proof.
  induction a as [|x a IH]; [reflexivity|]. cbn. rewrite IH. reflexivity.
Qed.

Lemma upper_gt (x : ascii) : JS.upper x = ">"%char -> x = ">"%char.
Proof.
  destruct x as [[] [] [] [] [] [] [] []]; vm_compute; intro H;
    try reflexivity; discriminate H.
Qed.

(** What the pattern of [extractDataByHeader] matches: the label closed
    by its anchor and header cell, white space, an opening [td] tag, the
    captured cell, and a closing [td] tag. *)
Lemma headerRegex_match (headerText html : string) (m : result) :
  exec true (headerRegex headerText) html = Some m ->
  exists lab gap open attrs cell close,
    html = before m ++ (lab ++ gap ++ open ++ attrs ++ ">" ++ cell ++ close)
                ++ after m
    /\ JS.toUpperCase lab = JS.toUpperCase (">" ++ headerText ++ "</a></th>")
    /\ allOf JS.isSpace gap = true
    /\ JS.toUpperCase open = "<TD"
    /\ allOf (notChar ">") attrs = true
    /\ JS.toUpperCase close = "</TD>"
    /\ group 1 m = Some cell.
Proof.
  intro He. apply exec_sound in He as [Hs H].
  destruct m as [pre mt gs post]. cbn [before matched groups after] in *.
  unfold headerRegex in H.
  apply M_Cat in H as (l1 & ? & ? & -> & H1 & H).
  apply M_str_nocase in H1 as [H1 ->].
  apply M_Cat in H as (l2 & ? & ? & -> & H2 & H).
  apply M_str_nocase in H2 as [H2 ->].
  apply M_Cat in H as (l3 & ? & ? & -> & H3 & H).
  apply M_str_nocase in H3 as [H3 ->].
  apply M_Cat in H as (gap & ? & ? & -> & Hg & H).
  apply M_star_cls in Hg as [Hg ->].
  apply M_Cat in H as (open & ? & ? & -> & Ho & H).
  apply M_str_nocase in Ho as [Ho ->].
  apply M_Cat in H as (attrs & ? & ? & -> & Ha & H).
  apply M_star_cls in Ha as [Ha ->].
  apply M_Cat in H as (gt & ? & ? & -> & Hgt & H).
  apply M_str_nocase in Hgt as [Hgt ->].
  apply M_Cat in H as (cell & close & ? & -> & Hc & H).
  apply M_Grp in Hc as (? & Hc & ->).
  apply M_star_cls in Hc as [_ ->].
  apply M_str_nocase in H as [Hcl ->].
  assert (gt = ">") as ->.
  { destruct gt as [|x [|y gt]]; try discriminate Hgt.
    cbn in Hgt. injection Hgt as Hx. rewrite (upper_gt x Hx). reflexivity. }
  exists (l1 ++ l2 ++ l3), gap, open, attrs, cell, close.
  split.
  { rewrite Hs. f_equal. rewrite !append_assoc. reflexivity. }
  split.
  { rewrite !toUpperCase_append, H1, H2, H3. reflexivity. }
  repeat split; assumption.
Qed.

(** X9: a field is read from the cell that follows its label.  Take a
    label that stands for itself in a pattern.  When
    [extractDataByHeader] returns text for it, the page holds, in this
    order and in any mix of cases, the label closed by [</a></th>] after
    a [>], white space or none, an opening [<td] tag, a cell, and
    [</td>]; and the text is that cell run through [htmlToText].  So a
    page on which the closed label stands nowhere gives the empty
    text. *)
Theorem field_comes_from_its_cell (html headerText : string) :
  plainLabel headerText = true ->
  (extractDataByHeader html headerText <> EmptyString ->
   exists pre lab gap open attrs cell close post,
     html = pre ++ lab ++ gap ++ open ++ attrs ++ ">" ++ cell ++ close ++ post
     /\ JS.toUpperCase lab = JS.toUpperCase (">" ++ headerText ++ "</a></th>")
     /\ allOf JS.isSpace gap = true
     /\ JS.toUpperCase open = "<TD"
     /\ allOf (notChar ">") attrs = true
     /\ JS.toUpperCase close = "</TD>"
     /\ cell <> EmptyString
     /\ extractDataByHeader html headerText = htmlToText cell)
  /\ (JS.includes (JS.toUpperCase html)
        (JS.toUpperCase (">" ++ headerText ++ "</a></th>")) = false ->
      extractDataByHeader html headerText = EmptyString).
Proof.
  intros _.
  assert (H : extractDataByHeader html headerText <> EmptyString ->
   exists pre lab gap open attrs cell close post,
     html = pre ++ lab ++ gap ++ open ++ attrs ++ ">" ++ cell ++ close ++ post
     /\ JS.toUpperCase lab = JS.toUpperCase (">" ++ headerText ++ "</a></th>")
     /\ allOf JS.isSpace gap = true
     /\ JS.toUpperCase open = "<TD"
     /\ allOf (notChar ">") attrs = true
     /\ JS.toUpperCase close = "</TD>"
     /\ cell <> EmptyString
     /\ extractDataByHeader html headerText = htmlToText cell).
  { unfold extractDataByHeader, groupText.
    destruct (exec true (headerRegex headerText) html) as [m|] eqn:He;
      [|congruence].
    apply headerRegex_match in He
      as (lab & gap & open & attrs & cell & close & Hs & Hl & Hg & Ho & Ha
          & Hc & ->).
    destruct cell as [|x cell]; [cbn; congruence|]. cbn [JS.truthy].
    intros _. exists (before m), lab, gap, open, attrs, (String x cell), close,
      (after m).
    split.
    { rewrite Hs at 1. rewrite !append_assoc. reflexivity. }
    repeat split; try assumption. discriminate. }
  split; [exact H|].
  intro Hn. destruct (string_dec (extractDataByHeader html headerText)
                        EmptyString) as [He | He]; [exact He|].
  exfalso. destruct (H He)
    as (pre & lab & gap & open & attrs & cell & close & post & Hs & Hl & _).
  assert (Hi : JS.includes (JS.toUpperCase html)
                 (JS.toUpperCase (">" ++ headerText ++ "</a></th>")) = true).
  { apply includes_iff. exists (JS.toUpperCase pre).
    eexists. rewrite Hs at 1. rewrite toUpperCase_append.
    rewrite (toUpperCase_append lab), Hl. reflexivity. }
  rewrite Hi in Hn. discriminate Hn.
Qed.

Lemma field_comes_from_its_cell_witness :
  (exists cell,
      cell <> EmptyString
      /\ extractDataByHeader Sample.good "Legal Name:" = htmlToText cell)
  /\ extractDataByHeader Sample.good "DBA Name:" = EmptyString.
Proof.
  split.
  - destruct (proj1 (field_comes_from_its_cell Sample.good "Legal Name:"
                       ltac:(vm_compute; reflexivity)))
      as (pre & lab & gap & open & attrs & cell & close & post & _ & _ & _
          & _ & _ & _ & Hc & Hv).
    + vm_compute. discriminate.
    + exists cell. split; [exact Hc | exact Hv].
  - apply (proj2 (field_comes_from_its_cell Sample.good "DBA Name:"
                    ltac:(vm_compute; reflexivity))).
    vm_compute. reflexivity.
Defined.

(* ================================================================== *)
(** ** The address of an identifier *)
(* ================================================================== *)

Lemma squash_nospace s :
  allOf (fun c => negb (JS.isSpace c)) s = true -> squash s = s.
Proof.
  induction s as [|x s IH]; [reflexivity|]. cbn [allOf squash].
  intro H. apply andb_true_iff in H as [Hx H].
  apply negb_true_iff in Hx. rewrite Hx, (IH H). reflexivity.
Qed.

Lemma squash_append a b : squash (a ++ b) = squash a ++ squash b.
Proof.
  induction a as [|x a IH]; [reflexivity|]. cbn [append squash].
  destruct (JS.isSpace x); [exact IH|]. cbn. rewrite IH. reflexivity.
Qed.

Lemma squash_trimStart s : squash (JS.trimStart s) = squash s.
Proof.
  induction s as [|x s IH]; [reflexivity|]. cbn [JS.trimStart squash].
  destruct (JS.isSpace x) eqn:Hx; [exact IH|]. cbn [squash]. rewrite Hx.
  reflexivity.
Qed.

(** [s.replace(/\s+/g, '')] removes the white space of [s]. *)
Lemma replaceAll_spaces_empty :
  forall fuel s,
    (String.length s < fuel)%nat ->
    replaceLoop fuel false (plus space) EmptyString s = squash s.
Proof.
  induction fuel as [|fuel IH]; intros s Hl; [lia|].
  cbn [replaceLoop]. unfold exec.
  pose proof (search_spaces s EmptyString) as H.
  destruct (search false (plus space) EmptyString s) as [m|].
  - destruct H as (a & x & s' & run & -> & Ha & Hsp & Hb & Hm & Hr).
    rewrite Hm, Hb, Hr. cbn [JS.rev JS.rev_onto append].
    rewrite IH.
    + rewrite squash_append, (squash_nospace a Ha). cbn [squash].
      rewrite Hsp, squash_trimStart. reflexivity.
    + pose proof (trimStart_length s'). rewrite length_append in Hl.
      cbn [String.length] in Hl. lia.
  - symmetry. apply squash_nospace, H.
Qed.

Lemma encode_cons c s :
  encodeURIComponent (String c s) = escapeOf c ++ encodeURIComponent s.
Proof. reflexivity. Qed.

Lemma codeUnits_all (c : ascii) : In c codeUnits.
Proof.
  unfold codeUnits. rewrite <- (ascii_nat_embedding c).
  apply in_map, in_seq. pose proof (nat_ascii_bounded c). lia.
Qed.

Lemma common_prefix (a b x y : string) :
  a ++ x = b ++ y -> JS.startsWith a b = true \/ JS.startsWith b a = true.
Proof.
  revert b. induction a as [|c a IH]; intros b H; [left; reflexivity|].
  destruct b as [|d b]; [right; reflexivity|].
  cbn in H. injection H as -> H. cbn [JS.startsWith].
  rewrite Ascii.eqb_refl. cbn [andb]. exact (IH b H).
Qed.

(** No escape begins another: the escapes of two different code units
    differ on the code units they share. *)
Lemma escapes_prefix_free (c d : ascii) :
  JS.startsWith (escapeOf c) (escapeOf d) = true -> c = d.
Proof.
  assert (H : forallb (fun c =>
                forallb (fun d =>
                           Ascii.eqb c d
                           || negb (JS.startsWith (escapeOf c) (escapeOf d)))
                        codeUnits) codeUnits = true)
    by (vm_compute; reflexivity).
  rewrite forallb_forall in H. specialize (H c (codeUnits_all c)).
  rewrite forallb_forall in H. specialize (H d (codeUnits_all d)).
  intro Hp. rewrite Hp in H. cbn in H. rewrite orb_false_r in H.
  apply Ascii.eqb_eq. exact H.
Qed.

Lemma append_cancel (a x y : string) : a ++ x = a ++ y -> x = y.
Proof.
  induction a as [|c a IH]; [tauto|]. cbn. intros [= H]. exact (IH H).
Qed.

Lemma encode_injective :
  forall s t, encodeURIComponent s = encodeURIComponent t -> s = t.
Proof.
  assert (Hne : forall c s, escapeOf c ++ s <> EmptyString).
  { intros c s. unfold escapeOf, percent.
    destruct (unreserved c); [discriminate|].
    destruct (JS.code c <? 128)%nat; discriminate. }
  induction s as [|c s IH]; intros [|d t] H.
  - reflexivity.
  - rewrite encode_cons in H. cbn [encodeURIComponent] in H.
    symmetry in H. destruct (Hne _ _ H).
  - rewrite encode_cons in H. cbn [encodeURIComponent] in H.
    destruct (Hne _ _ H).
  - rewrite !encode_cons in H.
    assert (c = d) as ->.
    { destruct (common_prefix _ _ _ _ H) as [Hp | Hp].
      - apply escapes_prefix_free, Hp.
      - symmetry. apply escapes_prefix_free, Hp. }
    apply append_cancel in H. rewrite (IH t H). reflexivity.
Qed.

Lemma encode_unreserved s :
  allOf unreserved s = true -> encodeURIComponent s = s.
Proof.
  induction s as [|c s IH]; [reflexivity|]. cbn [allOf encodeURIComponent].
  intro H. apply andb_true_iff in H as [-> H]. rewrite (IH H). reflexivity.
Qed.

Lemma encode_safe s :
  allOf (fun c => unreserved c || Ascii.eqb c "%") (encodeURIComponent s)
  = true.
Proof.
  assert (H : forallb (fun c =>
                allOf (fun c => unreserved c || Ascii.eqb c "%") (escapeOf c))
                codeUnits = true) by (vm_compute; reflexivity).
  rewrite forallb_forall in H.
  induction s as [|c s IH]; [reflexivity|].
  rewrite encode_cons, allOf_append, IH, (H c (codeUnits_all c)).
  reflexivity.
Qed.

(** X10: the address asked for an identifier.  [mcToSnapshotUrl] appends
    to a fixed query the identifier without its white space, percent
    encoded: what it appends holds only unreserved characters and percent
    signs, and an identifier of letters and digits is appended as it is.
    Two identifiers get the same address exactly when they are the same
    once their white space is removed. *)
Theorem snapshot_address (mc mc' : string) :
  mcToSnapshotUrl mc
  = mcToSnapshotUrl EmptyString ++ encodeURIComponent (squash mc)
  /\ allOf (fun c => unreserved c || Ascii.eqb c "%")
           (encodeURIComponent (squash mc)) = true
  /\ (allOf JS.isAlnum mc = true ->
      mcToSnapshotUrl mc = mcToSnapshotUrl EmptyString ++ mc)
  /\ (mcToSnapshotUrl mc = mcToSnapshotUrl mc' <-> squash mc = squash mc').
Proof.
  assert (H : forall s,
             mcToSnapshotUrl s
             = mcToSnapshotUrl EmptyString ++ encodeURIComponent (squash s)).
  { intro s. unfold mcToSnapshotUrl. cbv zeta. unfold replaceAll.
    rewrite replaceAll_spaces_empty by lia.
    rewrite (replaceAll_spaces_empty _ EmptyString) by (cbn; lia).
    cbn [squash encodeURIComponent]. rewrite append_nil_r. reflexivity. }
  split; [apply H|]. split; [apply encode_safe|]. split.
  - intro Ha. rewrite H. f_equal.
    assert (Hu : allOf unreserved mc = true).
    { apply (allOf_weaken JS.isAlnum); [|exact Ha].
      intros c Hc. unfold unreserved. rewrite Hc. reflexivity. }
    assert (Hs : allOf (fun c => negb (JS.isSpace c)) mc = true).
    { apply (allOf_weaken JS.isAlnum); [|exact Ha].
      intros c. destruct c as [[] [] [] [] [] [] [] []]; vm_compute;
        congruence. }
    rewrite (squash_nospace mc Hs). apply encode_unreserved, Hu.
  - rewrite (H mc), (H mc'). split.
    + intro He. apply append_cancel in He. apply encode_injective, He.
    + intros ->. reflexivity.
Qed.

Lemma snapshot_address_witness :
  mcToSnapshotUrl "123456" = mcToSnapshotUrl EmptyString ++ "123456"
  /\ mcToSnapshotUrl " 12 3456" = mcToSnapshotUrl "123456"
  /\ mcToSnapshotUrl ("12" ++ String NBSP "3") = mcToSnapshotUrl "123".
Proof.
  split; [|split].
  - apply (proj1 (proj2 (proj2 (snapshot_address "123456" EmptyString)))).
    vm_compute. reflexivity.
  - apply (proj2 (proj2 (proj2 (snapshot_address " 12 3456" "123456")))).
    vm_compute. reflexivity.
  - apply (proj2 (proj2 (proj2 (snapshot_address ("12" ++ String NBSP "3")
                                                 "123")))).
    vm_compute. reflexivity.
Defined.

(* ================================================================== *)
(** ** Verdicts and what they carry *)
(* ================================================================== *)

(** X11: a verdict and what comes with it.  In [extractor.js] a result of
    [handleMC] is valid exactly when it carries a record.  In [part_000]
    a result is valid exactly when it carries an address, which is then
    the snapshot address of the identifier; it carries a record only when
    it is valid, and then always unless the mode is [urls].  So the
    tests [r.valid && r.row] and [r.url] of [run] never drop a valid
    result. *)
Theorem verdict_and_payload (E : Env) (MODE mc : string) (w : world) :
  (exists r w',
      Extractor.handleMC E mc w = (Returns r, w')
      /\ (Extractor.valid r = true <-> Extractor.row r <> None))
  /\ (exists r w',
         Part000.handleMC E MODE mc w = (Returns r, w')
         /\ (Part000.valid r = true
             <-> Part000.url r = Some (mcToSnapshotUrl mc))
         /\ (Part000.valid r = false <-> Part000.url r = None)
         /\ (Part000.row r <> None
             <-> Part000.valid r = true /\ MODE <> "urls")).
Proof.
  split.
  - rewrite handleMC_E_eq.
    destruct (snapshot E mc w) as [[html|e] w1].
    + destruct (passes E html).
      * destruct (Extractor.extractAllData E (mcToSnapshotUrl mc) html w1)
          as [[row|e] w2]; eexists; eexists; (split; [reflexivity|]); cbn;
          split; congruence.
      * eexists; eexists; (split; [reflexivity|]); cbn; split; congruence.
    + eexists; eexists; (split; [reflexivity|]); cbn; split; congruence.
  - rewrite handleMC_P_eq.
    destruct (snapshot E mc w) as [[html|e] w1].
    + destruct (passes E html).
      * destruct (String.eqb_spec MODE "urls") as [Hm | Hm].
        -- eexists; eexists; (split; [reflexivity|]); cbn.
           repeat split; try congruence; tauto.
        -- pose proof (extractAllData_P_returns E (mcToSnapshotUrl mc) html w1)
             as (row & w2 & Hx).
           rewrite Hx. eexists; eexists; (split; [reflexivity|]); cbn.
           repeat split; try congruence; tauto.
      * eexists; eexists; (split; [reflexivity|]); cbn.
        repeat split; try congruence; intros []; congruence.
    + eexists; eexists; (split; [reflexivity|]); cbn.
      repeat split; try congruence; intros []; congruence.
Qed.

(* ================================================================== *)
(** ** The labels of the marked rows *)
(* ================================================================== *)

Lemma execLoop_sound (ci : bool) (r : regex) :
  forall fuel s m,
    In m (execLoop fuel ci r s) -> Matches ci r (matched m) [] (groups m).
Proof.
  induction fuel as [|fuel IH]; intros s m; cbn [execLoop]; [intros []|].
  destruct (exec ci r s) as [m0|] eqn:He; [|intros []].
  apply exec_sound in He as [_ Hm0].
  destruct (matched m0) eqn:Hm.
  - intros [<- | []]. rewrite Hm. exact Hm0.
  - cbn [In]. intros [<- | Hin].
    + rewrite Hm. exact Hm0.
    + exact (IH _ _ Hin).
Qed.

Lemma findXRegex_group (m : result) :
  Matches true findXRegex (matched m) [] (groups m) ->
  exists g, group 1 m = Some g
            /\ g <> EmptyString /\ allOf (notChar "<") g = true.
Proof.
  intro H. destruct m as [pre mt gs post]. cbn [matched groups] in H.
  unfold findXRegex in H.
  apply M_Cat in H as (? & ? & ? & _ & H1 & H).
  apply M_str_nocase in H1 as [_ ->].
  apply M_Cat in H as (? & ? & ? & _ & H1 & H).
  apply M_star_cls in H1 as [_ ->].
  apply M_Cat in H as (? & ? & ? & _ & H1 & H).
  apply M_str_nocase in H1 as [_ ->].
  apply M_Cat in H as (? & ? & ? & _ & H1 & H).
  apply M_star_cls in H1 as [_ ->].
  apply M_Cat in H as (? & ? & ? & _ & H1 & H).
  apply M_str_nocase in H1 as [_ ->].
  apply M_Cat in H as (? & ? & ? & _ & H1 & H).
  apply M_plus_cls in H1 as (_ & _ & ->).
  apply M_Cat in H as (? & ? & ? & _ & H1 & H).
  apply M_str_nocase in H1 as [_ ->].
  apply M_Cat in H as (g & ? & ? & _ & H1 & H).
  apply M_Grp in H1 as (? & H1 & ->).
  apply M_plus_cls in H1 as (Hg & Hn & ->).
  apply M_str_nocase in H as [_ ->].
  exists g. unfold group. cbn [groups cap Nat.eqb]. repeat split; assumption.
Qed.

Lemma markedLabels_shape (tableHtml x : string) :
  In x (markedLabels tableHtml) ->
  JS.trim x = x /\ allOf (notChar "<") x = true.
Proof.
  unfold markedLabels, execAll. rewrite in_map_iff.
  intros (m & <- & Hin). apply execLoop_sound in Hin.
  apply findXRegex_group in Hin as (g & -> & _ & Hg).
  split; [apply trim_idem | apply allOf_trim, Hg].
Qed.

(** X12: the items of a marked section are plain labels.  Every item
    that [getXMarkedItems] returns, in either file, is the trimmed text
    of a label cell: it has no white space at either end and holds no
    [<], so no markup. *)
Theorem marked_items_are_labels (html sectionHeader x : string) :
  In x (Extractor.getXMarkedItems html sectionHeader)
  \/ In x (Part000.getXMarkedItems html) ->
  JS.trim x = x /\ allOf (notChar "<") x = true.
Proof.
  intro H.
  assert (Hx : exists t, In x (markedLabels t)).
  { destruct H as [H | H].
    - unfold Extractor.getXMarkedItems in H.
      destruct (groupText 1 (exec true (Extractor.sectionRegex _) html))
        as [t|].
      + exists t. apply (proj1 (setOf_In _ _ _)) in H. tauto.
      + destruct (JS.includes sectionHeader "Operation Classification");
          [|destruct H].
        destruct (groupText 1 (exec true Extractor.opClassRegex html))
          as [t|]; [|destruct H].
        exists t. apply (proj1 (setOf_In _ _ _)) in H. tauto.
    - exists html. apply (proj1 (setOf_In _ _ _)) in H. tauto. }
  destruct Hx as [t Ht]. exact (markedLabels_shape t x Ht).
Qed.

Lemma marked_items_are_labels_witness :
  Part000.getXMarkedItems
    (Sample.marked (String NBSP ("General Freight" ++ String NBSP " ")))
  = ["General Freight"]
  /\ JS.trim "General Freight" = "General Freight"
  /\ allOf (notChar "<") "General Freight" = true.
Proof.
  split; [vm_compute; reflexivity|].
  apply (marked_items_are_labels
           (Sample.marked (String NBSP ("General Freight" ++ String NBSP " ")))
           EmptyString).
  right. vm_compute. left. reflexivity.
Defined.

(* ================================================================== *)
(** ** Reading the input file *)
(* ================================================================== *)

Lemma matchHere_lineEnd (s : string) :
  matchHere false lineEnd s
  = match s with
    | String x s' =>
        if Ascii.eqb LF x then Some (s', [])
        else
          match s' with
          | String y s'' =>
              if Ascii.eqb CR x && Ascii.eqb LF y then Some (s'', [])
              else None
          | EmptyString => None
          end
    | EmptyString => None
    end.
Proof.
  unfold matchHere, lineEnd, opt. cbn [rmatch litMatches].
  destruct s as [|x s']; [reflexivity|].
  destruct (Ascii.eqb_spec CR x) as [<- | Hx].
  - cbn [andb]. change (Ascii.eqb LF CR) with false. cbn iota.
    destruct s' as [|y s'']; [reflexivity|].
    destruct (Ascii.eqb LF y); reflexivity.
  - cbn [andb]. destruct (Ascii.eqb LF x); [reflexivity|].
    destruct s'; reflexivity.
Qed.

Lemma splitLoop_lines :
  forall fuel s acc,
    (String.length s < fuel)%nat ->
    splitLoop fuel false lineEnd acc s = linesFrom acc s.
Proof.
  induction fuel as [|fuel IH]; intros s acc Hl; [lia|].
  cbn [splitLoop]. destruct s as [|x s']; [reflexivity|].
  rewrite matchHere_lineEnd. cbn [linesFrom String.length] in *.
  assert (Hne : forall n, (n =? S n)%nat = false)
    by (intro n; apply Nat.eqb_neq; lia).
  assert (Hne2 : forall n, (n =? S (S n))%nat = false)
    by (intro n; apply Nat.eqb_neq; lia).
  destruct (Ascii.eqb LF x).
  - rewrite Hne. rewrite IH by lia. destruct acc; reflexivity.
  - destruct s' as [|y s'']; [apply IH; cbn; lia|].
    destruct (Ascii.eqb CR x && Ascii.eqb LF y).
    + cbn [String.length] in *. rewrite Hne2. rewrite IH by lia.
      destruct acc; reflexivity.
    + apply IH. cbn [String.length] in *. lia.
Qed.

Lemma readIdentifiers_lines (raw : string) :
  readIdentifiers raw
  = filter JS.truthy (map JS.trim (linesFrom EmptyString raw)).
Proof.
  unfold readIdentifiers, Regex.split.
  destruct raw as [|x raw]; [reflexivity|].
  rewrite splitLoop_lines by lia. reflexivity.
Qed.

Lemma linesFrom_one (s : string) :
  forall acc,
    allOf (notChar LF) s = true -> linesFrom acc s = [JS.rev acc ++ s].
Proof.
  induction s as [|x s IH]; intros acc H.
  - cbn. rewrite append_nil_r. reflexivity.
  - cbn [allOf] in H. apply andb_true_iff in H as [Hx H].
    cbn [linesFrom]. unfold notChar in Hx. apply negb_true_iff in Hx.
    rewrite Ascii.eqb_sym, Hx.
    assert (Hgo : linesFrom (String x acc) s = [JS.rev acc ++ String x s]).
    { rewrite (IH _ H), rev_cons, append_assoc. reflexivity. }
    destruct s as [|y s']; [exact Hgo|].
    cbn [allOf] in H. apply andb_true_iff in H as [Hy _].
    unfold notChar in Hy. apply negb_true_iff in Hy.
    rewrite (Ascii.eqb_sym LF y), Hy, andb_false_r. exact Hgo.
Qed.

Lemma trimStart_all_space s :
  allOf JS.isSpace s = true -> JS.trimStart s = EmptyString.
Proof.
  induction s as [|x s IH]; [reflexivity|]. cbn [allOf JS.trimStart].
  intro H. apply andb_true_iff in H as [-> H]. exact (IH H).
Qed.

(** A carriage return at the end goes with the trimming. *)
Lemma trim_drop_CR s :
  JS.trim (s ++ String CR EmptyString) = JS.trim s.
Proof.
  unfold JS.trim.
  assert (He : forall u, JS.trimEnd (u ++ String CR EmptyString)
                         = JS.trimEnd u).
  { intro u. unfold JS.trimEnd. rewrite rev_append. reflexivity. }
  induction s as [|x s IH].
  - reflexivity.
  - cbn [append JS.trimStart]. destruct (JS.isSpace x); [exact IH|].
    apply (He (String x s)).
Qed.

Lemma lines_append :
  forall n a acc b,
    (String.length a <= n)%nat ->
    map JS.trim (linesFrom acc (a ++ String LF b))
    = (map JS.trim (linesFrom acc a)
       ++ map JS.trim (linesFrom EmptyString b))%list.
Proof.
  induction n as [|n IH]; intros a acc b Hl.
  - destruct a; [|cbn in Hl; lia]. reflexivity.
  - destruct a as [|x a]; [reflexivity|].
    cbn [append linesFrom String.length] in *.
    destruct (Ascii.eqb LF x) eqn:Hx.
    + cbn [map app]. rewrite IH by lia. reflexivity.
    + destruct a as [|y a'].
      * cbn [append linesFrom]. rewrite Ascii.eqb_refl, andb_true_r.
        destruct (Ascii.eqb_spec CR x) as [<- | Hc].
        -- cbn [map app]. rewrite rev_cons, trim_drop_CR. reflexivity.
        -- reflexivity.
      * cbn [append]. destruct (Ascii.eqb CR x && Ascii.eqb LF y).
        -- cbn [map app]. cbn [String.length] in Hl.
           rewrite IH by lia. reflexivity.
        -- change (String y (a' ++ String LF b))
             with (String y a' ++ String LF b).
           apply IH. lia.
Qed.

(** X13: how the input file is read.  Reading a text with a line feed in
    it gives the identifiers read before the line feed followed by those
    read after it; reading a text without a line feed gives its trimming,
    or nothing when that is empty.  So the identifiers come in the order
    of the file, one for each line that is not blank, without the white
    space around them; a carriage return before a line feed, blank lines
    and a line end after the last line change nothing. *)
Theorem readIdentifiers_by_line (a b : string) :
  readIdentifiers (a ++ newline ++ b)
  = (readIdentifiers a ++ readIdentifiers b)%list
  /\ (allOf (notChar LF) a = true ->
      readIdentifiers a
      = if JS.truthy (JS.trim a) then [JS.trim a] else [])
  /\ (forall id, In id (readIdentifiers a) ->
                 id <> EmptyString /\ JS.trim id = id).
Proof.
  split; [|split].
  - rewrite !readIdentifiers_lines.
    change (newline ++ b) with (String LF b).
    rewrite (lines_append (String.length a)) by lia.
    apply filter_app.
  - intro H. rewrite readIdentifiers_lines, (linesFrom_one a _ H).
    reflexivity.
  - intros id. unfold readIdentifiers. rewrite filter_In, in_map_iff.
    intros [(s & <- & _) Ht]. split; [|apply trim_idem].
    intro He. rewrite He in Ht. discriminate Ht.
Qed.

Lemma readIdentifiers_by_line_witness :
  readIdentifiers ("77" ++ String NBSP EmptyString) = ["77"]
  /\ readIdentifiers
       (" 123456 " ++ String CR newline ++ String NBSP newline ++ "77")
     = ["123456"; "77"]
  /\ "123456" <> EmptyString /\ JS.trim "123456" = "123456".
Proof.
  split; [|split].
  - apply (proj1 (proj2 (readIdentifiers_by_line
                           ("77" ++ String NBSP EmptyString) EmptyString))).
    vm_compute. reflexivity.
  - vm_compute. reflexivity.
  - apply (proj2 (proj2 (readIdentifiers_by_line
                          (" 123456 " ++ String CR newline) EmptyString))).
    vm_compute. left. reflexivity.
Defined.

(* ================================================================== *)
(** ** The slices of a run *)
(* ================================================================== *)

Lemma slice_from (l : list string) (k c : nat) :
  (k <= length l)%nat ->
  slice l (Z.of_nat k) (Z.of_nat k + Z.of_nat c) = firstn c (skipn k l).
Proof.
  intro Hk. unfold slice, relIndex.
  destruct (Z.ltb_spec (Z.of_nat k) 0) as [H | _]; [lia|].
  destruct (Z.ltb_spec (Z.of_nat k + Z.of_nat c) 0) as [H | _]; [lia|].
  rewrite (Z.min_l (Z.of_nat k)) by lia. rewrite Nat2Z.id.
  destruct (Z.min_spec (Z.of_nat k + Z.of_nat c) (Z.of_nat (length l)))
    as [[Hlt ->] | [Hge ->]].
  - f_equal. lia.
  - rewrite !firstn_all2; [reflexivity | |]; rewrite length_skipn; lia.
Qed.

Lemma slicesFrom_done fuel C i (l : list string) :
  (Z.of_nat (length l) <= i)%Z -> slicesFrom fuel C i l = Some [].
Proof.
  intro H. destruct fuel; cbn [slicesFrom];
    destruct (Z.ltb_spec i (Z.of_nat (length l))); (lia || reflexivity).
Qed.

Lemma slicesFrom_partition (l : list string) (c : nat) :
  (1 <= c)%nat ->
  forall fuel k,
    (k <= length l)%nat -> (length l - k <= fuel)%nat ->
    exists sl,
      slicesFrom fuel (Z.of_nat c) (Z.of_nat k) l = Some sl
      /\ concat sl = skipn k l
      /\ Forall (fun s => (1 <= length s <= c)%nat) sl.
Proof.
  intro Hc. induction fuel as [|fuel IH]; intros k Hk Hf.
  - exists []. rewrite slicesFrom_done by lia.
    assert (k = length l) as -> by lia. rewrite skipn_all. auto.
  - destruct (Nat.eq_dec k (length l)) as [-> | Hne].
    { exists []. rewrite slicesFrom_done by lia. rewrite skipn_all. auto. }
    cbn [slicesFrom].
    destruct (Z.ltb_spec (Z.of_nat k) (Z.of_nat (length l))) as [_ | H];
      [|lia].
    rewrite slice_from by lia.
    assert (Hlen : (1 <= length (firstn c (skipn k l)) <= c)%nat).
    { rewrite length_firstn, length_skipn. lia. }
    destruct (Nat.le_gt_cases (k + c) (length l)) as [Hle | Hgt].
    + destruct (IH (k + c)%nat Hle ltac:(lia)) as (sl & Hs & Hcat & Hall).
      rewrite <- Nat2Z.inj_add, Hs. cbn [option_map].
      eexists. split; [reflexivity|]. split.
      * cbn [concat]. rewrite Hcat.
        rewrite (Nat.add_comm k c), <- skipn_skipn. apply firstn_skipn.
      * constructor; assumption.
    + rewrite slicesFrom_done by lia. cbn [option_map].
      eexists. split; [reflexivity|]. split.
      * cbn [concat]. rewrite app_nil_r. apply firstn_all2.
        rewrite length_skipn. lia.
      * constructor; [exact Hlen | constructor].
Qed.

Lemma slicesFrom_stuck (l : list string) (C : Z) :
  (C <= 0)%Z -> l <> [] ->
  forall fuel i, (i <= 0)%Z -> slicesFrom fuel C i l = None.
Proof.
  intros HC Hl.
  assert (Hpos : (0 < Z.of_nat (length l))%Z)
    by (destruct l; [congruence | cbn [length]; lia]).
  induction fuel as [|fuel IH]; intros i Hi; cbn [slicesFrom];
    destruct (Z.ltb_spec i (Z.of_nat (length l))); try lia.
  - reflexivity.
  - rewrite IH by lia. reflexivity.
Qed.

(** X14: the slices of a run.  With a [CONCURRENCY] of one or more, the
    loop of [run] ends within as many rounds as there are identifiers,
    and its slices, put end to end, are the identifiers in their order:
    each is handed to [handleMC] exactly once.  No slice is empty and
    none holds more than [CONCURRENCY] identifiers.  With a
    [CONCURRENCY] of zero or less and at least one identifier, the loop
    does not end in any number of rounds. *)
Theorem slices_partition (CONCURRENCY : Z) (allMCs : list string) :
  ((1 <= CONCURRENCY)%Z ->
   exists sl,
     slices (length allMCs) CONCURRENCY allMCs = Some sl
     /\ concat sl = allMCs
     /\ Forall (fun s => (1 <= Z.of_nat (length s) <= CONCURRENCY)%Z) sl)
  /\ ((CONCURRENCY <= 0)%Z -> allMCs <> [] ->
      forall fuel, slices fuel CONCURRENCY allMCs = None).
Proof.
  split.
  - intro HC.
    destruct (slicesFrom_partition allMCs (Z.to_nat CONCURRENCY)
                ltac:(lia) (length allMCs) 0%nat ltac:(lia) ltac:(lia))
      as (sl & Hs & Hcat & Hall).
    rewrite Z2Nat.id in Hs by lia. exists sl.
    split; [exact Hs|]. split; [exact Hcat|].
    eapply Forall_impl; [|exact Hall]. cbn beta. intros s Hlen. lia.
  - intros HC Hl fuel. apply slicesFrom_stuck; [exact HC | exact Hl | lia].
Qed.

Lemma slices_partition_witness :
  (exists sl,
      slices 3 2 ["1"; "2"; "3"] = Some sl
      /\ concat sl = ["1"; "2"; "3"]
      /\ Forall (fun s => (1 <= Z.of_nat (length s) <= 2)%Z) sl)
  /\ slices 1000 0 ["1"] = None.
Proof.
  split.
  - apply (proj1 (slices_partition 2 ["1"; "2"; "3"])). lia.
  - apply (proj2 (slices_partition 0 ["1"])); [lia | discriminate].
Defined.

(* ================================================================== *)
(** ** A snapshot that cannot be fetched *)
(* ================================================================== *)

(** X15: a snapshot that cannot be fetched.  When the three attempts at
    the snapshot page fail, by an error of the network or by a status
    outside 200 to 299, [handleMC] returns a rejection in both files and
    in every mode, and throws nothing; it has then made exactly three
    requests, all for the snapshot address, and paused 2000, 4000 and
    8000 milliseconds after them. *)
Theorem snapshot_failure_rejects (E : Env) (MODE mc : string) (w : world) :
  (forall i, (i < 3)%nat ->
             exists e,
               attempt E (requests w + i) (mcToSnapshotUrl mc) = Throws e) ->
  let url := mcToSnapshotUrl mc in
  let w' :=
    mkWorld (requests w + 3)
            (trace w ++ [Fetched url; Slept 2000; Fetched url; Slept 4000;
                         Fetched url; Slept 8000]) in
  Extractor.handleMC E mc w = (Returns Extractor.rejected, w')
  /\ Part000.handleMC E MODE mc w = (Returns Part000.rejected, w').
Proof.
  intros Hfail url w'.
  assert (Hs : exists e, snapshot E mc w = (Throws e, w')).
  { unfold snapshot.
    pose proof (fetchRetry_cases E (mcToSnapshotUrl mc) "snapshot"
                  FETCH_TIMEOUT_MS MAX_RETRIES w) as H.
    destruct (fetchRetry E (mcToSnapshotUrl mc) MAX_RETRIES FETCH_TIMEOUT_MS
                "snapshot" w) as [[body|e] w1].
    - destruct H as (j & Hj & Hok & _).
      destruct (Hfail j Hj) as [e He]. congruence.
    - destruct H as (_ & Ht & Hr & _). exists e. f_equal.
      destruct w1 as [r1 t1]. cbn [trace requests] in *. subst r1 t1.
      reflexivity. }
  destruct Hs as [e Hs].
  rewrite handleMC_E_eq, handleMC_P_eq, Hs. split; reflexivity.
Qed.

Lemma snapshot_failure_rejects_witness :
  Extractor.handleMC unavailableEnv "123456" start
  = (Returns Extractor.rejected,
     mkWorld 3 [Fetched (mcToSnapshotUrl "123456"); Slept 2000;
                Fetched (mcToSnapshotUrl "123456"); Slept 4000;
                Fetched (mcToSnapshotUrl "123456"); Slept 8000])
  /\ Part000.handleMC unavailableEnv "both" "123456" start
     = (Returns Part000.rejected,
        mkWorld 3 [Fetched (mcToSnapshotUrl "123456"); Slept 2000;
                   Fetched (mcToSnapshotUrl "123456"); Slept 4000;
                   Fetched (mcToSnapshotUrl "123456"); Slept 8000]).
Proof.
  apply (snapshot_failure_rejects unavailableEnv "both" "123456" start).
  intros i Hi. exists (Error "HTTP 503").
  destruct i as [|[|[|i]]]; [reflexivity | reflexivity | reflexivity | lia].
Defined.
